(** * daemon: the rc.d (FreeBSD) and launchd (Darwin) service records

    A shallow embedding of [daemon_freebsd.go] and of the Darwin variant of
    the package, with the properties of their lifecycle operations.

    Go strings are byte strings: they are [string] here.  A Go [error] that
    may be nil is an [option error].  Every method runs in a small state
    monad over the file system, the receiver record and a log of the
    commands and file operations issued; a run-time panic is an outcome of
    its own. *)

From Stdlib Require Import Ascii String List Bool Arith Lia NArith.
From stdpp Require Import base option strings gmap.

Local Open Scope string_scope.
Local Open Scope list_scope.

(* An append computes as soon as its first argument is known. *)
#[global] Arguments String.append !s1 s2 : simpl nomatch.

(** ** Characters that cannot be written inside a literal *)

Definition dq : string := String (ascii_of_nat 34) EmptyString.
Definition nl : string := String (ascii_of_nat 10) EmptyString.
Definition tab : string := String (ascii_of_nat 9) EmptyString.
Definition newline : ascii := ascii_of_nat 10.

Definition ascii_eqb (a b : ascii) : bool := Ascii.eqb a b.

(** [strings.Join] *)
Fixpoint strings_Join (l : list string) (sep : string) : string :=
  match l with
  | [] => ""
  | [x] => x
  | x :: r => x +:+ sep +:+ strings_Join r sep
  end.

(** Substring test, used to state what a pattern without operators finds. *)
Fixpoint is_prefix (p s : string) : bool :=
  match p, s with
  | EmptyString, _ => true
  | String a p', String b s' => ascii_eqb a b && is_prefix p' s'
  | String _ _, EmptyString => false
  end.

Fixpoint contains (s p : string) : bool :=
  is_prefix p s ||
  match s with
  | EmptyString => false
  | String _ s' => contains s' p
  end.

(** ** Go's [regexp], as far as the package uses it

    The package builds patterns from the service name and from two constant
    markers.  The part of the syntax modelled exactly is: ASCII characters
    that are not operators, [.], [.*] and the group [([0-9]+)].  A pattern
    with an opening parenthesis that nothing can close is a syntax error.
    Every other pattern is answered by the environment ([re_valid],
    [re_find]), as is a pattern with [.] on a subject that is not pure
    ASCII, where Go steps by UTF-8 sequence and not by byte. *)

Module Regexp.

Inductive item : Type :=
| Lit (c : ascii)
| Dot
| DotStar
| Digits.

Definition is_meta (c : ascii) : bool :=
  existsb (ascii_eqb c)
    (list_ascii_of_string ("\.+*?()|[]{}^$")).

Definition is_ascii7 (c : ascii) : bool :=
  let 'Ascii _ _ _ _ _ _ _ b7 := c in negb b7.

Definition is_digit (c : ascii) : bool :=
  (48 <=? nat_of_ascii c)%nat && (nat_of_ascii c <=? 57)%nat.

Fixpoint strip_prefix (p s : string) : option string :=
  match p, s with
  | EmptyString, _ => Some s
  | String a p', String b s' =>
      if ascii_eqb a b then strip_prefix p' s' else None
  | String _ _, EmptyString => None
  end.

(** The items of a pattern of the modelled fragment; [None] outside it. *)
Fixpoint parse_fuel (fuel : nat) (p : string) : option (list item) :=
  match p with
  | EmptyString => Some []
  | String c r =>
      match fuel with
      | O => None
      | S n =>
          match strip_prefix "([0-9]+)" p with
          | Some rest => cons Digits <$> parse_fuel n rest
          | None =>
              match strip_prefix ".*" p with
              | Some rest => cons DotStar <$> parse_fuel n rest
              | None =>
                  if ascii_eqb c "." then cons Dot <$> parse_fuel n r
                  else if is_meta c || negb (is_ascii7 c) then None
                  else cons (Lit c) <$> parse_fuel n r
              end
          end
      end
  end.

Definition parse (p : string) : option (list item) :=
  parse_fuel (String.length p) p.

Definition has_char (c : ascii) (p : string) : bool :=
  existsb (ascii_eqb c) (list_ascii_of_string p).

(** An opening parenthesis opens a group unless it is escaped or inside a
    class; with no [)] in the pattern the group is never closed. *)
Definition unclosed_group (p : string) : bool :=
  has_char "(" p && negb (has_char ")" p)
  && negb (has_char "\" p) && negb (has_char "[" p).

Inductive syntax : Type :=
| Items (its : list item)
| Malformed
| Beyond.

Definition classify (p : string) : syntax :=
  match parse p with
  | Some its => Items its
  | None => if unclosed_group p then Malformed else Beyond
  end.

(** Backtracking match at the head of the subject; greedy operators try the
    longest continuation first.  The result is the text consumed and the
    texts of the groups. *)
Fixpoint match_here (its : list item) (s : string)
  : option (string * list string) :=
  match its with
  | [] => Some ("", [])
  | Lit c :: r =>
      match s with
      | String x s' =>
          if ascii_eqb x c then
            '(m, g) ← match_here r s'; Some (String x m, g)
          else None
      | EmptyString => None
      end
  | Dot :: r =>
      match s with
      | String x s' =>
          if ascii_eqb x newline then None
          else '(m, g) ← match_here r s'; Some (String x m, g)
      | EmptyString => None
      end
  | DotStar :: r =>
      (fix star (s : string) : option (string * list string) :=
         match s with
         | String x s' =>
             if ascii_eqb x newline then match_here r s
             else
               match star s' with
               | Some (m, g) => Some (String x m, g)
               | None => match_here r s
               end
         | EmptyString => match_here r s
         end) s
  | Digits :: r =>
      '(d, (m, g)) ←
        (fix digits (s : string) : option (string * (string * list string)) :=
           match s with
           | String x s' =>
               if is_digit x then
                 match digits s' with
                 | Some (d, res) => Some (String x d, res)
                 | None =>
                     res ← match_here r s'; Some (String x "", res)
                 end
               else None
           | EmptyString => None
           end) s;
      Some (d +:+ m, d :: g)
  end.

(** Leftmost match: the whole match followed by the groups. *)
Fixpoint search (its : list item) (s : string) : option (list string) :=
  match match_here its s with
  | Some (m, g) => Some (m :: g)
  | None =>
      match s with
      | EmptyString => None
      | String _ s' => search its s'
      end
  end.

Definition dot_free (its : list item) : bool :=
  forallb (fun i => match i with Dot | DotStar => false | _ => true end) its.

Definition ascii_only (s : string) : bool :=
  forallb is_ascii7 (list_ascii_of_string s).

(** What the environment answers for the patterns and subjects left out. *)
Record Oracle : Type := {
  re_valid : string -> bool;
  re_find : string -> string -> option (list string)
}.

(** A compiled expression keeps its source text. *)
Definition t : Type := string.

(** [regexp.Compile]: [None] is the nil [*Regexp] returned with an error. *)
Definition Compile (O : Oracle) (expr : string) : option t :=
  match classify expr with
  | Items _ => Some expr
  | Malformed => None
  | Beyond => if re_valid O expr then Some expr else None
  end.

(** The leftmost match of a compiled expression with its groups. *)
Definition exec (O : Oracle) (re : t) (s : string) : option (list string) :=
  match parse re with
  | Some its =>
      if dot_free its || ascii_only s then search its s else re_find O re s
  | None => re_find O re s
  end.

(** [Regexp.FindStringSubmatch]: the nil slice is the empty list. *)
Definition FindStringSubmatch (O : Oracle) (re : t) (s : string) : list string :=
  default [] (exec O re s).

(** [Regexp.Find] followed by the conversion to a string. *)
Definition Find (O : Oracle) (re : t) (s : string) : string :=
  match exec O re s with
  | Some (m :: _) => m
  | _ => ""
  end.

(** [regexp.MatchString]: the verdict and whether the pattern compiled. *)
Definition MatchString (O : Oracle) (pattern s : string) : bool * bool :=
  match Compile O pattern with
  | Some re => (bool_decide (is_Some (exec O re s)), true)
  | None => (false, false)
  end.

End Regexp.

(** ** Go's [text/template], as far as the two descriptors use it

    Text, the actions [{{.}}] and [{{.Field}}], and [{{range .Field}}] up to
    its [{{end}}].  Values are printed as they are: [text/template] escapes
    nothing. *)

Module Template.

Inductive token : Type :=
| TText (s : string)
| TAction (s : string).

Definition snoc (s : string) (c : ascii) : string := s +:+ String c "".

(** Split the source at the delimiters; [None] for an action left open. *)
Fixpoint lex (in_action : bool) (acc : string) (s : string)
  : option (list token) :=
  match s with
  | EmptyString =>
      if in_action then None
      else Some (match acc with EmptyString => [] | _ => [TText acc] end)
  | String c r =>
      let delim := if in_action then "}"%char else "{"%char in
      match r with
      | String c2 r' =>
          if ascii_eqb c delim && ascii_eqb c2 delim then
            let tok := if in_action then [TAction acc]
                       else match acc with
                            | EmptyString => []
                            | _ => [TText acc]
                            end in
            app tok <$> lex (negb in_action) "" r'
          else lex in_action (snoc acc c) r
      | EmptyString => lex in_action (snoc acc c) r
      end
  end.

Set Warnings "-register-all".

Inductive pipe : Type :=
| PDot
| PField (f : string).

Inductive node : Type :=
| Text (s : string)
| Action (p : pipe)
| Range (p : pipe) (body : list node).

Definition parse_pipe (s : string) : option pipe :=
  match s with
  | String c f =>
      if ascii_eqb c "." then
        match f with
        | EmptyString => Some PDot
        | _ => if forallb (fun x => negb (ascii_eqb x " ") && negb (ascii_eqb x "."))
                    (list_ascii_of_string f)
               then Some (PField f) else None
        end
      else None
  | EmptyString => None
  end.

(** Build the tree; the second component is what follows the [{{end}}]
    that closed the list, [None] when the input ended instead. *)
Fixpoint build (fuel : nat) (toks : list token)
  : option (list node * option (list token)) :=
  match fuel with
  | O => None
  | S n =>
      match toks with
      | [] => Some ([], None)
      | TText s :: r =>
          '(ns, k) ← build n r; Some (Text s :: ns, k)
      | TAction a :: r =>
          if String.eqb a "end" then Some ([], Some r)
          else
            match Regexp.strip_prefix "range " a with
            | Some p =>
                p ← parse_pipe p;
                '(body, k) ← build n r;
                after ← k;
                '(ns, k') ← build n after;
                Some (Range p body :: ns, k')
            | None =>
                p ← parse_pipe a;
                '(ns, k) ← build n r; Some (Action p :: ns, k)
            end
      end
  end.

(** [template.New(name).Parse(text)]: the tree, or [None] for an error. *)
Definition Parse (text : string) : option (list node) :=
  toks ← lex false "" text;
  '(ns, k) ← build (S (length toks)) toks;
  match k with
  | None => Some ns
  | Some _ => None
  end.

Inductive value : Type :=
| VString (s : string)
| VStrings (l : list string).

(** The data of an execution: a struct of named fields, or inside a
    [range] the element reached. *)
Inductive dot : Type :=
| DStruct (fields : list (string * value))
| DValue (v : value).

Fixpoint field (f : string) (fields : list (string * value)) : option value :=
  match fields with
  | [] => None
  | (k, v) :: r => if String.eqb k f then Some v else field f r
  end.

Definition eval (p : pipe) (d : dot) : option value :=
  match p, d with
  | PDot, DValue v => Some v
  | PDot, DStruct _ => None
  | PField f, DStruct fs => field f fs
  | PField _, DValue _ => None
  end.

(** [fmt.Fprint] of a value. *)
Definition print (v : value) : string :=
  match v with
  | VString s => s
  | VStrings l => "[" +:+ strings_Join l " " +:+ "]"
  end.

(** The texts an execution hands to the writer, in order, and whether it
    then stopped on an error of its own. *)
Fixpoint run_node (n : node) (d : dot) : list string * bool :=
  match n with
  | Text s => ([s], true)
  | Action p =>
      match eval p d with
      | Some v => ([print v], true)
      | None => ([], false)
      end
  | Range p body =>
      match eval p d with
      | Some (VStrings l) =>
          (fix each (l : list string) : list string * bool :=
             match l with
             | [] => ([], true)
             | e :: l' =>
                 let '(w, ok) :=
                   (fix seq (ns : list node) : list string * bool :=
                      match ns with
                      | [] => ([], true)
                      | n' :: ns' =>
                          let '(w1, ok1) := run_node n' (DValue (VString e)) in
                          if ok1 then let '(w2, ok2) := seq ns' in (w1 ++ w2, ok2)
                          else (w1, false)
                      end) body in
                 if ok then let '(w', ok') := each l' in (w ++ w', ok')
                 else (w, false)
             end) l
      | _ => ([], false)
      end
  end.

Fixpoint run (ns : list node) (d : dot) : list string * bool :=
  match ns with
  | [] => ([], true)
  | n :: r =>
      let '(w1, ok1) := run_node n d in
      if ok1 then let '(w2, ok2) := run r d in (w1 ++ w2, ok2)
      else (w1, false)
  end.

End Template.

(** ** Errors, files and the environment *)

Inductive errno : Type :=
| ENOENT | EACCES | ENOTDIR | EISDIR | ENOSPC | EROFS | EIO | EBADF.

(** The sentinel errors are declared in a file of the package outside the
    two variants; here they are constructors of their own, next to the
    errors of the operating system, of a subprocess and of a template. *)
Inductive error : Type :=
| ErrIncorrectExecStartPath
| ErrAlreadyRunning
| ErrAlreadyStopped
| PathError (op path : string) (e : errno)
| ExitError (status : nat)
| TemplateError (what : string)
| ForeignError (what : string).

(** Modelled from the spec: the message suffixes [failed] and [success] are
    constants declared outside the two variants; the result contract gives
    them as "failed" and "completed successfully". *)
Definition failed : string := "failed".
Definition success : string := "completed successfully".

Inductive entry : Type :=
| File (content : string) (mode : N)
| Dir
| Broken (e : errno).

Record FileInfo : Type := { IsDir : bool; Mode : N }.

Inductive event : Type :=
| EvOpen (path : string)
| EvCreate (path : string)
| EvChmod (path : string) (mode : N)
| EvRemove (path : string)
| EvExec (argv : list string).

Record record : Type := {
  name : string;
  description : string;
  execStartPath : string;
  dependencies : list string
}.

(** The state a call works on: the receiver, the file system, the room
    left on it in bytes ([None]: no limit is met) and the events so far,
    oldest first. *)
Record State : Type := {
  self : record;
  fs : gmap string entry;
  space : option nat;
  log : list event
}.

(** What the call cannot decide: the two helpers of the package that are
    outside the variants, the subprocesses, faults of single system calls
    and the patterns left to the environment. *)
Record Env : Type := {
  checkPrivileges : bool * option error;
  executablePath : string -> string * option error;
  command : list string -> string * option error;
  create_fault : string -> option errno;
  chmod_fault : string -> option errno;
  remove_fault : string -> option errno;
  oracle : Regexp.Oracle
}.

Definition set_self (r : record) (st : State) : State :=
  {| self := r; fs := fs st; space := space st; log := log st |}.
Definition set_fs (m : gmap string entry) (st : State) : State :=
  {| self := self st; fs := m; space := space st; log := log st |}.
Definition set_space (k : option nat) (st : State) : State :=
  {| self := self st; fs := fs st; space := k; log := log st |}.
Definition emit (e : event) (st : State) : State :=
  {| self := self st; fs := fs st; space := space st; log := log st ++ [e] |}.

(** ** The monad of a call *)

Inductive outcome (A : Type) : Type :=
| Returned (a : A)
| Panicked (why : string).
Arguments Returned {A} a.
Arguments Panicked {A} why.

Definition M (A : Type) : Type := State -> outcome A * State.

#[global] Instance M_ret : MRet M := fun A a st => (Returned a, st).
#[global] Instance M_bind : MBind M := fun A B k m st =>
  match m st with
  | (Returned a, st') => k a st'
  | (Panicked w, st') => (Panicked w, st')
  end.

Definition ret {A : Type} (a : A) : M A := mret a.
Definition get : M State := fun st => (Returned st, st).
Definition modify (f : State -> State) : M unit := fun st => (Returned tt, f st).
Definition panic {A : Type} (why : string) : M A := fun st => (Panicked why, st).

Definition nil_dereference : string :=
  "invalid memory address or nil pointer dereference".

(** ** System calls *)

Definition stat_entry (path : string) (e : option entry)
  : option FileInfo * option error :=
  match e with
  | Some (File _ m) => (Some {| IsDir := false; Mode := m |}, None)
  | Some Dir => (Some {| IsDir := true; Mode := 493%N |}, None)
  | Some (Broken e) => (None, Some (PathError "stat" path e))
  | None => (None, Some (PathError "stat" path ENOENT))
  end.

(** [os.Stat]: a nil [FileInfo] comes with every error. *)
Definition os_Stat (path : string) : M (option FileInfo * option error) :=
  st ← get; ret (stat_entry path (fs st !! path)).

Definition os_IsNotExist (err : option error) : bool :=
  match err with
  | Some (PathError _ _ ENOENT) => true
  | _ => false
  end.

(** [stat.IsDir()] on the interface value [os.Stat] returned. *)
Definition FileInfo_IsDir (stat : option FileInfo) : M bool :=
  match stat with
  | Some fi => ret (IsDir fi)
  | None => panic nil_dereference
  end.

(** [os.Create]: creates or truncates; the handle is the path. *)
Definition os_Create (E : Env) (path : string) : M (option string * option error) :=
  st ← get;
  match create_fault E path with
  | Some e => ret (None, Some (PathError "open" path e))
  | None =>
      match fs st !! path with
      | Some Dir => ret (None, Some (PathError "open" path EISDIR))
      | Some (Broken e) => ret (None, Some (PathError "open" path e))
      | Some (File _ m) =>
          modify (fun st => emit (EvCreate path) (set_fs (<[path := File "" m]> (fs st)) st));;
          ret (Some path, None)
      | None =>
          modify (fun st => emit (EvCreate path) (set_fs (<[path := File "" 420%N]> (fs st)) st));;
          ret (Some path, None)
      end
  end.

Fixpoint take (n : nat) (s : string) : string :=
  match n, s with
  | S k, String c r => String c (take k r)
  | _, _ => ""
  end.

(** [file.Write]: what fits is written, the rest is refused. *)
Definition file_Write (file : string) (b : string) : M (option error) :=
  st ← get;
  match fs st !! file with
  | Some (File c m) =>
      match space st with
      | None =>
          modify (set_fs (<[file := File (c +:+ b) m]> (fs st)));; ret None
      | Some k =>
          if (String.length b <=? k)%nat then
            modify (fun st => set_space (Some (k - String.length b))
                                (set_fs (<[file := File (c +:+ b) m]> (fs st)) st));;
            ret None
          else
            modify (fun st => set_space (Some 0)
                                (set_fs (<[file := File (c +:+ take k b) m]> (fs st)) st));;
            ret (Some (PathError "write" file ENOSPC))
      end
  | _ => ret (Some (PathError "write" file EBADF))
  end.

Fixpoint write_all (file : string) (chunks : list string) : M (option error) :=
  match chunks with
  | [] => ret None
  | b :: r =>
      err ← file_Write file b;
      match err with
      | Some e => ret (Some e)
      | None => write_all file r
      end
  end.

(** [templ.Execute(file, data)]: the writes stop at the first error. *)
Definition template_Execute (templ : list Template.node) (file : string)
    (data : Template.dot) : M (option error) :=
  let '(chunks, ok) := Template.run templ data in
  err ← write_all file chunks;
  match err with
  | Some e => ret (Some e)
  | None => ret (if ok then None else Some (TemplateError "exec"))
  end.

(** [os.Chmod] *)
Definition os_Chmod (E : Env) (path : string) (mode : N) : M (option error) :=
  st ← get;
  match chmod_fault E path with
  | Some e => ret (Some (PathError "chmod" path e))
  | None =>
      match fs st !! path with
      | Some (File c _) =>
          modify (fun st => emit (EvChmod path mode) (set_fs (<[path := File c mode]> (fs st)) st));;
          ret None
      | Some Dir => modify (emit (EvChmod path mode));; ret None
      | Some (Broken e) => ret (Some (PathError "chmod" path e))
      | None => ret (Some (PathError "chmod" path ENOENT))
      end
  end.

(** [os.Remove] *)
Definition os_Remove (E : Env) (path : string) : M (option error) :=
  st ← get;
  match remove_fault E path with
  | Some e => ret (Some (PathError "remove" path e))
  | None =>
      match fs st !! path with
      | Some (Broken e) => ret (Some (PathError "remove" path e))
      | Some _ =>
          modify (fun st => emit (EvRemove path) (set_fs (delete path (fs st)) st));;
          ret None
      | None => ret (Some (PathError "remove" path ENOENT))
      end
  end.

Definition open_entry (path : string) (e : option entry)
  : option string * option error :=
  match e with
  | Some (File _ _) | Some Dir => (Some path, None)
  | Some (Broken e) => (None, Some (PathError "open" path e))
  | None => (None, Some (PathError "open" path ENOENT))
  end.

(** [os.Open] for reading; the handle is the path. *)
Definition os_Open (path : string) : M (option string * option error) :=
  st ← get;
  modify (emit (EvOpen path));;
  ret (open_entry path (fs st !! path)).

Definition read_entry (file : string) (e : option entry)
  : string * option error :=
  match e with
  | Some (File c _) => (c, None)
  | Some Dir => ("", Some (PathError "read" file EISDIR))
  | _ => ("", Some (PathError "read" file EBADF))
  end.

(** [ioutil.ReadAll]: a directory opens but does not read. *)
Definition ioutil_ReadAll (file : string) : M (string * option error) :=
  st ← get;
  ret (read_entry file (fs st !! file)).

(** [exec.Command(argv...).Output()] *)
Definition exec_Output (E : Env) (argv : list string) : M (string * option error) :=
  modify (emit (EvExec argv));; ret (command E argv).

(** [exec.Command(argv...).Run()] *)
Definition exec_Run (E : Env) (argv : list string) : M (option error) :=
  modify (emit (EvExec argv));; ret (snd (command E argv)).

(** [regexp.MustCompile] *)
Definition regexp_MustCompile (E : Env) (expr : string) : M Regexp.t :=
  match Regexp.Compile (oracle E) expr with
  | Some re => ret re
  | None => panic ("regexp: Compile: " +:+ expr)
  end.

Definition unlines (l : list string) : string :=
  fold_right (fun x acc => x +:+ nl +:+ acc) "" l.

Definition result : Type := string * option error.

(** ** The rc.d variant: [bsdRecord] *)

Module Bsd.

Definition servicePath (bsd : record) : string :=
  "/usr/local/etc/rc.d/" +:+ name bsd.

Definition IsInstalled : M (bool * option error) :=
  st ← get;
  '(_, err) ← os_Stat (servicePath (self st));
  match err with
  | None => ret (true, err)
  | Some _ => ret (false, err)
  end.

(** The loop of [isEnabled] over the line found.  [range] yields code
    points; the two characters compared are ASCII and no byte of a longer
    sequence equals either, so the loop is run byte by byte. *)
Fixpoint scan (v : string) (chrFound sharpFound : bool) : bool * bool :=
  match v with
  | EmptyString => (chrFound, sharpFound)
  | String c r =>
      if ascii_eqb c "#" && negb chrFound then (chrFound, true)
      else if negb sharpFound && negb (ascii_eqb c " ") then (true, sharpFound)
      else scan r chrFound sharpFound
  end.

Definition enable_pattern (bsd : record) : string :=
  ".*" +:+ name bsd +:+ "_enable=" +:+ dq +:+ "YES" +:+ dq +:+ ".*".

Definition isEnabled (E : Env) : M (bool * option error) :=
  st ← get;
  '(rcConf, err) ← os_Open "/etc/rc.conf";
  match rcConf, err with
  | Some rcConf, None =>
      '(rcData, _) ← ioutil_ReadAll rcConf;
      match Regexp.Compile (oracle E) (enable_pattern (self st)) with
      | None => panic nil_dereference
      | Some r =>
          let v := Regexp.Find (oracle E) r rcData in
          let '(chrFound, _) := scan v false false in
          ret (chrFound, None)
      end
  | _, _ => ret (false, err)
  end.

Definition getCmd (E : Env) (cmd : string) : M string :=
  '(ok, err) ← isEnabled E;
  if negb ok || bool_decide (is_Some err) then ret ("one" +:+ cmd)
  else ret cmd.

Definition checkRunning (E : Env) : M (string * bool) :=
  st ← get;
  verb ← getCmd E "status";
  '(output, err) ← exec_Output E ["service"; name (self st); verb];
  match err with
  | None =>
      let '(matched, compiled) :=
        Regexp.MatchString (oracle E) (name (self st)) output in
      if compiled && matched then
        reg ← regexp_MustCompile E "pid  ([0-9]+)";
        match Regexp.FindStringSubmatch (oracle E) reg output with
        | _ :: pid :: _ =>
            ret ("Service (pid  " +:+ pid +:+ ") is running...", true)
        | _ => ret ("Service is running...", true)
        end
      else ret ("Service is stopped", false)
  | Some _ => ret ("Service is stopped", false)
  end.

Definition bsdConfig : string :=
  unlines [
    "#!/bin/sh";
    "#";
    "# PROVIDE: {{.Name}}";
    "# REQUIRE: networking syslog";
    "# KEYWORD:";
    "";
    "# Add the following lines to /etc/rc.conf to enable the {{.Name}}:";
    "#";
    "# {{.Name}}_enable=" +:+ dq +:+ "YES" +:+ dq;
    "#";
    "";
    "";
    ". /etc/rc.subr";
    "";
    "name=" +:+ dq +:+ "{{.Name}}" +:+ dq;
    "rcvar=" +:+ dq +:+ "{{.Name}}_enable" +:+ dq;
    "command=" +:+ dq +:+ "{{.Path}}" +:+ dq;
    "pidfile=" +:+ dq +:+ "/var/run/$name.pid" +:+ dq;
    "";
    "start_cmd=" +:+ dq +:+ "/usr/sbin/daemon -p $pidfile -f $command {{.Args}}" +:+ dq;
    "load_rc_config $name";
    "run_rc_command " +:+ dq +:+ "$1" +:+ dq
  ].

(** The anonymous struct handed to the template. *)
Definition config_data (bsd : record) (args : list string) : Template.dot :=
  Template.DStruct [
    ("Name", Template.VString (name bsd));
    ("Description", Template.VString (description bsd));
    ("Path", Template.VString (execStartPath bsd));
    ("Args", Template.VString (strings_Join args " "))
  ].

Definition Install (E : Env) (args : list string) : M result :=
  st ← get;
  let installAction := "Install " +:+ description (self st) +:+ ":" in
  let '(ok, err) := checkPrivileges E in
  if negb ok then ret (installAction +:+ failed, err) else
  let srvPath := servicePath (self st) in
  '(check, err) ← IsInstalled;
  if (check : bool) then ret (installAction +:+ failed, err) else
  resolved ←
    (if String.eqb (execStartPath (self st)) "" then
       let '(path, err) := executablePath E (name (self st)) in
       modify (fun st => set_self {| name := name (self st);
                                     description := description (self st);
                                     execStartPath := path;
                                     dependencies := dependencies (self st) |} st);;
       ret err
     else ret None);
  match resolved with
  | Some e => ret (installAction +:+ failed, Some e)
  | None =>
      st ← get;
      '(stat, err) ← os_Stat (execStartPath (self st));
      bad ← (if os_IsNotExist err then ret true else FileInfo_IsDir stat);
      if (bad : bool) then ret (installAction +:+ failed, Some ErrIncorrectExecStartPath) else
      '(file, err) ← os_Create E srvPath;
      match file, err with
      | Some file, None =>
          match Template.Parse bsdConfig with
          | None => ret (installAction +:+ failed, Some (TemplateError "parse"))
          | Some templ =>
              err ← template_Execute templ file (config_data (self st) args);
              match err with
              | Some e => ret (installAction +:+ failed, Some e)
              | None =>
                  err ← os_Chmod E srvPath 493%N;
                  match err with
                  | Some e => ret (installAction +:+ failed, Some e)
                  | None => ret (installAction +:+ success, None)
                  end
              end
          end
      | _, _ => ret (installAction +:+ failed, err)
      end
  end.

Definition Remove (E : Env) : M result :=
  st ← get;
  let removeAction := "Removing " +:+ description (self st) +:+ ":" in
  let '(ok, err) := checkPrivileges E in
  if negb ok then ret (removeAction +:+ failed, err) else
  '(check, err) ← IsInstalled;
  if negb check then ret (removeAction +:+ failed, err) else
  err ← os_Remove E (servicePath (self st));
  match err with
  | Some e => ret (removeAction +:+ failed, Some e)
  | None => ret (removeAction +:+ success, None)
  end.

Definition Start (E : Env) : M result :=
  st ← get;
  let startAction := "Starting " +:+ description (self st) +:+ ":" in
  let '(ok, err) := checkPrivileges E in
  if negb ok then ret (startAction +:+ failed, err) else
  '(check, err) ← IsInstalled;
  if negb check then ret (startAction +:+ failed, err) else
  '(_, ok) ← checkRunning E;
  if (ok : bool) then ret (startAction +:+ failed, Some ErrAlreadyRunning) else
  verb ← getCmd E "start";
  err ← exec_Run E ["service"; name (self st); verb];
  match err with
  | Some e => ret (startAction +:+ failed, Some e)
  | None => ret (startAction +:+ success, None)
  end.

Definition Stop (E : Env) : M result :=
  st ← get;
  let stopAction := "Stopping " +:+ description (self st) +:+ ":" in
  let '(ok, err) := checkPrivileges E in
  if negb ok then ret (stopAction +:+ failed, err) else
  '(check, err) ← IsInstalled;
  if negb check then ret (stopAction +:+ failed, err) else
  '(_, ok) ← checkRunning E;
  if negb ok then ret (stopAction +:+ failed, Some ErrAlreadyStopped) else
  verb ← getCmd E "stop";
  err ← exec_Run E ["service"; name (self st); verb];
  match err with
  | Some e => ret (stopAction +:+ failed, Some e)
  | None => ret (stopAction +:+ success, None)
  end.

Definition Status (E : Env) : M result :=
  let '(ok, err) := checkPrivileges E in
  if negb ok then ret ("", err) else
  '(check, err) ← IsInstalled;
  if negb check then ret ("Status could not defined", err) else
  '(statusAction, _) ← checkRunning E;
  ret (statusAction, None).

(** [Run]: the workload is the caller's. *)
Definition Run (e : M unit) : M result :=
  st ← get;
  let runAction := "Running " +:+ description (self st) +:+ ":" in
  e;;
  ret (runAction +:+ " completed.", None).

End Bsd.

(** ** The launchd variant: [darwinRecord] *)

Module Darwin.

Definition servicePath (darwin : record) : string :=
  "/Library/LaunchDaemons/" +:+ name darwin +:+ ".plist".

Definition IsInstalled : M (bool * option error) :=
  st ← get;
  '(_, err) ← os_Stat (servicePath (self st));
  match err with
  | None => ret (true, err)
  | Some _ => ret (false, err)
  end.

Definition pid_pattern : string := "PID" +:+ dq +:+ " = ([0-9]+);".

Definition checkRunning (E : Env) : M (string * bool) :=
  st ← get;
  '(output, err) ← exec_Output E ["launchctl"; "list"; name (self st)];
  match err with
  | None =>
      let '(matched, compiled) :=
        Regexp.MatchString (oracle E) (name (self st)) output in
      if compiled && matched then
        reg ← regexp_MustCompile E pid_pattern;
        match Regexp.FindStringSubmatch (oracle E) reg output with
        | _ :: pid :: _ =>
            ret ("Service (pid  " +:+ pid +:+ ") is running...", true)
        | _ => ret ("Service is running...", true)
        end
      else ret ("Service is stopped", false)
  | Some _ => ret ("Service is stopped", false)
  end.

Definition propertyList : string :=
  unlines [
    "<?xml version=" +:+ dq +:+ "1.0" +:+ dq +:+ " encoding=" +:+ dq +:+ "UTF-8" +:+ dq +:+ "?>";
    "<!DOCTYPE plist PUBLIC " +:+ dq +:+ "-//Apple//DTD PLIST 1.0//EN" +:+ dq +:+ " "
      +:+ dq +:+ "http://www.apple.com/DTDs/PropertyList-1.0.dtd" +:+ dq +:+ ">";
    "<plist version=" +:+ dq +:+ "1.0" +:+ dq +:+ ">";
    "<dict>";
    tab +:+ "<key>KeepAlive</key>";
    tab +:+ "<true/>";
    tab +:+ "<key>Label</key>";
    tab +:+ "<string>{{.Name}}</string>";
    tab +:+ "<key>ProgramArguments</key>";
    tab +:+ "<array>";
    tab +:+ "    <string>{{.Path}}</string>";
    tab +:+ tab +:+ "{{range .Args}}<string>{{.}}</string>";
    tab +:+ tab +:+ "{{end}}";
    tab +:+ "</array>";
    tab +:+ "<key>RunAtLoad</key>";
    tab +:+ "<true/>";
    "    <key>WorkingDirectory</key>";
    "    <string>/usr/local/var</string>";
    "    <key>StandardErrorPath</key>";
    "    <string>/usr/local/var/log/{{.Name}}.err</string>";
    "    <key>StandardOutPath</key>";
    "    <string>/usr/local/var/log/{{.Name}}.log</string>";
    "</dict>";
    "</plist>"
  ].

(** The anonymous struct handed to the template. *)
Definition plist_data (darwin : record) (args : list string) : Template.dot :=
  Template.DStruct [
    ("Name", Template.VString (name darwin));
    ("Path", Template.VString (execStartPath darwin));
    ("Args", Template.VStrings args)
  ].

Definition Install (E : Env) (args : list string) : M result :=
  st ← get;
  let installAction := "Install " +:+ description (self st) +:+ ":" in
  let '(ok, err) := checkPrivileges E in
  if negb ok then ret (installAction +:+ failed, err) else
  let srvPath := servicePath (self st) in
  '(check, err) ← IsInstalled;
  if (check : bool) then ret (installAction +:+ failed, err) else
  resolved ←
    (if String.eqb (execStartPath (self st)) "" then
       let '(path, err) := executablePath E (name (self st)) in
       modify (fun st => set_self {| name := name (self st);
                                     description := description (self st);
                                     execStartPath := path;
                                     dependencies := dependencies (self st) |} st);;
       ret err
     else ret None);
  match resolved with
  | Some e => ret (installAction +:+ failed, Some e)
  | None =>
      st ← get;
      '(stat, err) ← os_Stat (execStartPath (self st));
      bad ← (if os_IsNotExist err then ret true else FileInfo_IsDir stat);
      if (bad : bool) then ret (installAction +:+ failed, Some ErrIncorrectExecStartPath) else
      '(file, err) ← os_Create E srvPath;
      match file, err with
      | Some file, None =>
          match Template.Parse propertyList with
          | None => ret (installAction +:+ failed, Some (TemplateError "parse"))
          | Some templ =>
              err ← template_Execute templ file (plist_data (self st) args);
              match err with
              | Some e => ret (installAction +:+ failed, Some e)
              | None => ret (installAction +:+ success, None)
              end
          end
      | _, _ => ret (installAction +:+ failed, err)
      end
  end.

Definition Remove (E : Env) : M result :=
  st ← get;
  let removeAction := "Removing " +:+ description (self st) +:+ ":" in
  let '(ok, err) := checkPrivileges E in
  if negb ok then ret (removeAction +:+ failed, err) else
  '(check, err) ← IsInstalled;
  if negb check then ret (removeAction +:+ failed, err) else
  err ← os_Remove E (servicePath (self st));
  match err with
  | Some e => ret (removeAction +:+ failed, Some e)
  | None => ret (removeAction +:+ success, None)
  end.

Definition Start (E : Env) : M result :=
  st ← get;
  let startAction := "Starting " +:+ description (self st) +:+ ":" in
  let '(ok, err) := checkPrivileges E in
  if negb ok then ret (startAction +:+ failed, err) else
  '(check, err) ← IsInstalled;
  if negb check then ret (startAction +:+ failed, err) else
  '(_, ok) ← checkRunning E;
  if (ok : bool) then ret (startAction +:+ failed, Some ErrAlreadyRunning) else
  err ← exec_Run E ["launchctl"; "load"; servicePath (self st)];
  match err with
  | Some e => ret (startAction +:+ failed, Some e)
  | None => ret (startAction +:+ success, None)
  end.

Definition Stop (E : Env) : M result :=
  st ← get;
  let stopAction := "Stopping " +:+ description (self st) +:+ ":" in
  let '(ok, err) := checkPrivileges E in
  if negb ok then ret (stopAction +:+ failed, err) else
  '(check, err) ← IsInstalled;
  if negb check then ret (stopAction +:+ failed, err) else
  '(_, ok) ← checkRunning E;
  if negb ok then ret (stopAction +:+ failed, Some ErrAlreadyStopped) else
  err ← exec_Run E ["launchctl"; "unload"; servicePath (self st)];
  match err with
  | Some e => ret (stopAction +:+ failed, Some e)
  | None => ret (stopAction +:+ success, None)
  end.

Definition Status (E : Env) : M result :=
  let '(ok, err) := checkPrivileges E in
  if negb ok then ret ("", err) else
  '(check, err) ← IsInstalled;
  if negb check then ret ("Status could not defined", err) else
  '(statusAction, _) ← checkRunning E;
  ret (statusAction, None).

Definition Run (e : M unit) : M result :=
  st ← get;
  let runAction := "Running " +:+ description (self st) +:+ ":" in
  e;;
  ret (runAction +:+ " completed.", None).

End Darwin.


(** ** The descriptor as a text

    [Parse] and [Execute] into a buffer: what a successful [Install]
    leaves in the descriptor file. *)

Definition cat (l : list string) : string := fold_right String.append "" l.
#[global] Arguments cat : simpl never.

Definition descriptor (text : string) (data : Template.dot) : option string :=
  templ ← Template.Parse text;
  let '(chunks, ok) := Template.run templ data in
  if ok then Some (cat chunks) else None.

Definition bsd_render (bsd : record) (args : list string) : option string :=
  descriptor Bsd.bsdConfig (Bsd.config_data bsd args).

Definition darwin_render (darwin : record) (args : list string) : option string :=
  descriptor Darwin.propertyList (Darwin.plist_data darwin args).

Definition bsd_nodes : list Template.node :=
  Eval vm_compute in default [] (Template.Parse Bsd.bsdConfig).

Definition plist_nodes : list Template.node :=
  Eval vm_compute in default [] (Template.Parse Darwin.propertyList).

(** [v] occurs in [text] as it is. *)
Definition embeds (text v : string) : Prop :=
  exists pre post, text = pre +:+ v +:+ post.

(** One array entry per argument, in the order of the arguments. *)
Definition plist_entries (args : list string) : string :=
  cat (map (fun a => "<string>" +:+ a +:+ "</string>" +:+ nl +:+ tab +:+ tab) args).

Definition set_description (d : string) (r : record) : record :=
  {| name := name r; description := d;
     execStartPath := execStartPath r; dependencies := dependencies r |}.

(** ** The result contract and the preconditions of Install *)

(** A returned pair honours the result contract for [action]: the failure
    suffix with an error, or the success suffix with none. *)
Definition honours (action : string) (r : outcome result) : Prop :=
  match r with
  | Returned (msg, err) =>
      (msg = action +:+ failed /\ err <> None)
      \/ (msg = action +:+ success /\ err = None)
  | Panicked _ => True
  end.

(** The privilege guard explains every refusal with an error. *)
Definition refusal_has_error (E : Env) : Prop :=
  fst (checkPrivileges E) = false -> snd (checkPrivileges E) <> None.

Definition resolved_path (E : Env) (st : State) : string :=
  if String.eqb (execStartPath (self st)) ""
  then fst (executablePath E (name (self st)))
  else execStartPath (self st).

(** ** The enablement check and the verbs *)

Definition rc_conf : string := "/etc/rc.conf".

Definition enable_text : string := "_enable=" +:+ dq +:+ "YES" +:+ dq.

(** The verdict on a line: the first character that is not a space exists
    and is not the comment sign. *)
Fixpoint uncommented (v : string) : bool :=
  match v with
  | EmptyString => false
  | String c r =>
      if ascii_eqb c " " then uncommented r else negb (ascii_eqb c "#")
  end.

(** The service is registered for autostart and the check did not fail. *)
Definition autostart (E : Env) (st : State) : bool :=
  match fst (Bsd.isEnabled E st) with
  | Returned (true, None) => true
  | _ => false
  end.

Definition verb_for (E : Env) (st : State) (cmd : string) : string :=
  if autostart E st then cmd else "one" +:+ cmd.

Definition service_call (E : Env) (st : State) (cmd : string) : event :=
  EvExec ["service"; name (self st); verb_for E st cmd].


(** ** What the modelled patterns match *)

Definition all_digits (d : string) : bool :=
  forallb Regexp.is_digit (list_ascii_of_string d).

(** A run of decimal digits, at least one. *)
Definition digits_run (d : string) : Prop := d <> "" /\ all_digits d = true.

Definition no_newline (w : string) : bool :=
  forallb (fun x => negb (ascii_eqb x newline)) (list_ascii_of_string w).

(** The texts a list of items matches, with the texts of its groups. *)
Fixpoint re_sem (its : list Regexp.item) (m : string) (g : list string) : Prop :=
  match its with
  | [] => m = "" /\ g = []
  | Regexp.Lit c :: r => exists m', m = String c m' /\ re_sem r m' g
  | Regexp.Dot :: r =>
      exists x m', m = String x m' /\ ascii_eqb x newline = false /\ re_sem r m' g
  | Regexp.DotStar :: r =>
      exists w m', m = w +:+ m' /\ no_newline w = true /\ re_sem r m' g
  | Regexp.Digits :: r =>
      exists d m' g', m = d +:+ m' /\ g = d :: g' /\ digits_run d /\ re_sem r m' g'
  end.

(** The items of a text without operators. *)
Definition lits (l : string) : list Regexp.item :=
  map Regexp.Lit (list_ascii_of_string l).

(** A name that is ASCII and free of the operators of a pattern. *)
Definition plain (nm : string) : bool :=
  forallb (fun c => Regexp.is_ascii7 c && negb (Regexp.is_meta c))
    (list_ascii_of_string nm).

(** ** The status probe *)

(** What a probe makes of the answer of the status command. *)
Definition verdict (O : Regexp.Oracle) (nm marker : string)
    (answer : string * option error) : string * bool :=
  match snd answer with
  | Some _ => ("Service is stopped", false)
  | None =>
      let '(matched, compiled) := Regexp.MatchString O nm (fst answer) in
      if compiled && matched then
        match Regexp.FindStringSubmatch O marker (fst answer) with
        | _ :: pid :: _ => ("Service (pid  " +:+ pid +:+ ") is running...", true)
        | _ => ("Service is running...", true)
        end
      else ("Service is stopped", false)
  end.

Definition bsd_marker : string := "pid  ([0-9]+)".

Definition launchd_before : string := "PID" +:+ dq +:+ " = ".

(** The output matches the name read as a pattern. *)
Definition name_found (O : Regexp.Oracle) (nm out : string) : bool :=
  let '(matched, compiled) := Regexp.MatchString O nm out in
  compiled && matched.

(** The longest run of decimal digits at the head of a text. *)
Fixpoint leading_digits (s : string) : string :=
  match s with
  | String c r => if Regexp.is_digit c then String c (leading_digits r) else ""
  | EmptyString => ""
  end.

(** A marker of a process id starts right after [pre]: [before], then [d],
    the whole run of digits found there and not empty, then [after]. *)
Definition marker_at (before after out pre d : string) : Prop :=
  exists post,
    out = pre +:+ before +:+ d +:+ after +:+ post
    /\ d <> ""
    /\ d = leading_digits (d +:+ after +:+ post).

(** [d] are the digits of the first marker of the output: no marker starts
    further left. *)
Definition first_marker (before after out d : string) : Prop :=
  exists pre,
    marker_at before after out pre d
    /\ forall pre' d', marker_at before after out pre' d' ->
         String.length pre <= String.length pre'.

(** What a probe owes to the answer of the status command, for a marker
    made of [before], a run of digits and [after]. *)
Definition probe_spec (nm before after : string)
    (answer : string * option error) (v : string * bool) : Prop :=
  (snd answer <> None \/ ~ embeds (fst answer) nm ->
   v = ("Service is stopped", false))
  /\
  (snd answer = None -> embeds (fst answer) nm ->
   (exists d, first_marker before after (fst answer) d
              /\ v = ("Service (pid  " +:+ d +:+ ") is running...", true))
   \/ ((forall pre d, ~ marker_at before after (fst answer) pre d)
       /\ v = ("Service is running...", true))).

(** What follows the digits of a marker cannot be taken for one of them:
    nothing follows, or a character that is no digit. *)
Definition delimits (after : string) : bool :=
  match after with
  | String c _ => negb (Regexp.is_digit c)
  | EmptyString => true
  end.

(** ** Worlds used as examples *)

Definition silent : Regexp.Oracle :=
  {| Regexp.re_valid := fun _ => false; Regexp.re_find := fun _ _ => None |}.

(** A privileged caller on a quiet machine: every command prints nothing
    and succeeds, no system call is refused. *)
Definition env_root : Env :=
  {| checkPrivileges := (true, None);
     executablePath := fun n => ("/usr/local/bin/" +:+ n, None);
     command := fun _ => ("", None);
     create_fault := fun _ => None;
     chmod_fault := fun _ => None;
     remove_fault := fun _ => None;
     oracle := silent |}.

Definition rec_x : record :=
  {| name := "x"; description := "d";
     execStartPath := "/usr/bin/x"; dependencies := [] |}.

Definition with_files (r : record) (files : list (string * entry)) : State :=
  {| self := r; fs := list_to_map files; space := None; log := [] |}.

(** The binary is there, the service is not installed. *)
Definition st_fresh : State :=
  with_files rec_x [("/usr/bin/x", File "ELF" 493%N)].

(** Both descriptors are there already. *)
Definition st_installed : State :=
  with_files rec_x
    [("/usr/bin/x", File "ELF" 493%N);
     ("/usr/local/etc/rc.d/x", File "#!/bin/sh" 493%N);
     ("/Library/LaunchDaemons/x.plist", File "<plist/>" 420%N)].

(** The execution path runs through a regular file: [stat] answers
    ENOTDIR. *)
Definition st_notdir : State :=
  with_files
    {| name := "x"; description := "d";
       execStartPath := "/etc/passwd/x"; dependencies := [] |}
    [("/etc/passwd", File "root:*:0:0" 420%N);
     ("/etc/passwd/x", Broken ENOTDIR)].

(** Thirty bytes are left on the file system. *)
Definition st_full : State := set_space (Some 30) st_fresh.

Definition rec_zebra : record :=
  {| name := "x"; description := "Zebra";
     execStartPath := "/usr/bin/x"; dependencies := [] |}.

Definition running_output : string :=
  "x is running as pid  42. " +:+ dq +:+ "PID" +:+ dq +:+ " = 42;".

(** A privileged caller; every command answers that x runs as 42. *)
Definition env_running : Env :=
  {| checkPrivileges := (true, None);
     executablePath := fun n => ("/usr/local/bin/" +:+ n, None);
     command := fun _ => (running_output, None);
     create_fault := fun _ => None;
     chmod_fault := fun _ => None;
     remove_fault := fun _ => None;
     oracle := silent |}.

Definition no_root : error :=
  ForeignError "You must have root user privileges".

(** The same machine seen by a caller without privileges. *)
Definition env_user : Env :=
  {| checkPrivileges := (false, Some no_root);
     executablePath := fun n => ("/usr/local/bin/" +:+ n, None);
     command := fun _ => (running_output, None);
     create_fault := fun _ => None;
     chmod_fault := fun _ => None;
     remove_fault := fun _ => None;
     oracle := silent |}.

(** Installed, and registered for autostart. *)
Definition st_enabled : State :=
  with_files rec_x
    [("/usr/bin/x", File "ELF" 493%N);
     ("/usr/local/etc/rc.d/x", File "#!/bin/sh" 493%N);
     ("/Library/LaunchDaemons/x.plist", File "<plist/>" 420%N);
     ("/etc/rc.conf", File ("x_enable=" +:+ dq +:+ "YES" +:+ dq +:+ nl) 420%N)].

(** A launchd label with dots, and a status command that prints "axb". *)
Definition env_axb : Env :=
  {| checkPrivileges := (true, None);
     executablePath := fun n => ("/usr/local/bin/" +:+ n, None);
     command := fun _ => ("axb", None);
     create_fault := fun _ => None;
     chmod_fault := fun _ => None;
     remove_fault := fun _ => None;
     oracle := silent |}.

Definition st_dotted : State :=
  with_files
    {| name := "a.b"; description := "d";
       execStartPath := "/usr/bin/x"; dependencies := [] |}
    [("/Library/LaunchDaemons/a.b.plist", File "<plist/>" 420%N)].

(** A name that is no pattern: its parenthesis is never closed. *)
Definition st_paren : State :=
  with_files
    {| name := "("; description := "d";
       execStartPath := "/usr/bin/x"; dependencies := [] |}
    [("/usr/local/etc/rc.d/(", File "#!/bin/sh" 493%N);
     ("/etc/rc.conf", File ("sshd_enable=" +:+ dq +:+ "YES" +:+ dq +:+ nl) 420%N)].

Definition rc_conf_with (r : record) (text : string) : State :=
  with_files r [("/etc/rc.conf", File text 420%N)].

Definition rec_foo : record :=
  {| name := "foo"; description := "d";
     execStartPath := "/usr/bin/foo"; dependencies := [] |}.

Definition foo_line : string := "foo_enable=" +:+ dq +:+ "YES" +:+ dq.

(** ** Statements about the state left behind *)

(** The second state has the files, the record and the room of the first. *)
Definition same_files (st st' : State) : Prop :=
  fs st' = fs st /\ self st' = self st /\ space st' = space st.

(** The pair an operation returns for the error of the command it ran. *)
Definition reported (action : string) (err : option error) : result :=
  match err with
  | Some e => (action +:+ failed, Some e)
  | None => (action +:+ success, None)
  end.

(** A privileged caller on a machine whose service manager is down: every
    command exits with status 1. *)
Definition env_down : Env :=
  {| checkPrivileges := (true, None);
     executablePath := fun n => ("/usr/local/bin/" +:+ n, None);
     command := fun _ => ("", Some (ExitError 1));
     create_fault := fun _ => None;
     chmod_fault := fun _ => None;
     remove_fault := fun _ => None;
     oracle := silent |}.

(** ** Lines of a text *)

(** What follows the end of a line: nothing, or a line break first. *)
Definition line_end (rest : string) : Prop :=
  rest = "" \/ exists r, rest = String newline r.

(** What precedes the start of a line: nothing, or a line break last. *)
Definition line_start (pre : string) : Prop :=
  pre = "" \/ exists p, pre = p +:+ String newline "".

(** The boot configuration switches foo on in its second line, below a
    first line where the same text is commented out. *)
Definition st_shadowed : State :=
  rc_conf_with rec_foo ("#" +:+ foo_line +:+ nl +:+ foo_line +:+ nl).

(** The state once [Install] has filled in an empty execution path with
    the answer of [executablePath]. *)
Definition resolve (E : Env) (st : State) : State :=
  if String.eqb (execStartPath (self st)) "" then
    set_self {| name := name (self st);
                description := description (self st);
                execStartPath := fst (executablePath E (name (self st)));
                dependencies := dependencies (self st) |} st
  else st.






(** * Properties *)

(** ** Strings *)

Lemma append_assoc (a b c : string) : (a +:+ b) +:+ c = a +:+ b +:+ c.
Proof. induction a as [|x a IH]; simpl; [reflexivity | now rewrite IH]. Qed.

Lemma append_nil_r (a : string) : a +:+ "" = a.
Proof. induction a as [|x a IH]; simpl; [reflexivity | now rewrite IH]. Qed.

Lemma cat_app (l : list string) (s : string) :
  cat l +:+ s = fold_right String.append s l.
Proof.
  unfold cat. induction l as [|x l IH]; cbn [fold_right]; [reflexivity|].
  now rewrite append_assoc, IH.
Qed.

Lemma ascii_eqb_eq (a b : ascii) : ascii_eqb a b = true <-> a = b.
Proof. apply Ascii.eqb_eq. Qed.

Lemma is_prefix_spec (p s : string) :
  is_prefix p s = true <-> exists post, s = p +:+ post.
Proof.
  revert s. induction p as [|a p IH]; intros s; simpl.
  - split; [intros _; now exists s | reflexivity].
  - destruct s as [|b s]; simpl.
    + split; [discriminate | intros [post H]; discriminate].
    + rewrite andb_true_iff, ascii_eqb_eq, IH. split.
      * intros [-> [post ->]]. now exists post.
      * intros [post H]. injection H as -> ->. split; [reflexivity | now exists post].
Qed.

Lemma contains_unfold (s p : string) :
  contains s p =
    is_prefix p s ||
    match s with EmptyString => false | String _ s' => contains s' p end.
Proof. destruct s; reflexivity. Qed.

Lemma contains_spec (s p : string) : contains s p = true <-> embeds s p.
Proof.
  unfold embeds. split.
  - induction s as [|c s IH]; rewrite contains_unfold, orb_true_iff, is_prefix_spec.
    + intros [[post ->] | H]; [now exists "", post | discriminate].
    + intros [[post ->] | H]; [now exists "", post|].
      destruct (IH H) as (pre & post & ->). now exists (String c pre), post.
  - intros (pre & post & ->). induction pre as [|c pre IH].
    + rewrite contains_unfold, orb_true_iff. left. apply is_prefix_spec. now exists post.
    + simpl String.append. rewrite contains_unfold, orb_true_iff. now right.
Qed.

Lemma embeds_char (c : ascii) (text v : string) :
  embeds text v -> embeds (String c text) v.
Proof. intros (pre & post & ->). now exists (String c pre), post. Qed.

Lemma embeds_skip (a text v : string) :
  embeds text v -> embeds (a +:+ text) v.
Proof.
  intros (pre & post & ->). exists (a +:+ pre), post.
  symmetry. apply append_assoc.
Qed.

Lemma embeds_cat_here (l : list string) (text post : string) :
  text = fold_right String.append post l -> embeds text (cat l).
Proof. intros ->. exists "", post. now rewrite cat_app. Qed.

Ltac find_embedded :=
  repeat first
    [ solve [eapply embeds_cat_here; cbn; reflexivity]
    | apply embeds_char
    | apply embeds_skip ].

Lemma failed_is_not_success (a : string) : a +:+ failed <> a +:+ success.
Proof. intros H. apply (inj (String.append a)) in H. discriminate H. Qed.

(** ** Running a call *)

Ltac run_monad :=
  unfold ret, get, modify, panic, mbind, M_bind, mret, M_ret in *; simpl in *.

Lemma bind_run {A B : Type} (m : M A) (k : A -> M B) (st : State) :
  (m ≫= k) st =
    match m st with
    | (Returned a, st') => k a st'
    | (Panicked w, st') => (Panicked w, st')
    end.
Proof. reflexivity. Qed.

Ltac crunch :=
  repeat (simpl in *; try reflexivity;
          match goal with
          | |- context [match ?x with _ => _ end] =>
              lazymatch x with
              | context [match _ with _ => _ end] => fail
              | _ => destruct x eqn:?
              end
          end).

(** ** IsInstalled *)

(** C10. On both variants [IsInstalled] answers true exactly when the error
    it returns is nil; a false answer comes with the error of the [stat] of
    the descriptor path, which is not nil. *)
Theorem IsInstalled_true_iff_nil (st : State) :
  (exists b err,
      Bsd.IsInstalled st = (Returned (b, err), st)
      /\ (b = true <-> err = None)
      /\ (b = false ->
          err <> None
          /\ err = snd (stat_entry (Bsd.servicePath (self st))
                          (fs st !! Bsd.servicePath (self st)))))
  /\
  (exists b err,
      Darwin.IsInstalled st = (Returned (b, err), st)
      /\ (b = true <-> err = None)
      /\ (b = false ->
          err <> None
          /\ err = snd (stat_entry (Darwin.servicePath (self st))
                          (fs st !! Darwin.servicePath (self st))))).
Proof.
  split.
  - unfold Bsd.IsInstalled, os_Stat, get, ret, mbind, M_bind, mret, M_ret.
    destruct (stat_entry _ _) as [fi [e|]] eqn:Hs; simpl;
      eexists _, _; (split; [reflexivity|]); split;
      try (split; congruence); intros; try congruence; split; congruence.
  - unfold Darwin.IsInstalled, os_Stat, get, ret, mbind, M_bind, mret, M_ret.
    destruct (stat_entry _ _) as [fi [e|]] eqn:Hs; simpl;
      eexists _, _; (split; [reflexivity|]); split;
      try (split; congruence); intros; try congruence; split; congruence.
Qed.

Lemma bsd_IsInstalled_spec (st : State) :
  Bsd.IsInstalled st =
    (Returned (match snd (stat_entry (Bsd.servicePath (self st))
                            (fs st !! Bsd.servicePath (self st))) with
               | None => true
               | Some _ => false
               end,
               snd (stat_entry (Bsd.servicePath (self st))
                      (fs st !! Bsd.servicePath (self st)))), st).
Proof.
  unfold Bsd.IsInstalled, os_Stat. run_monad.
  destruct (stat_entry _ _) as [fi [e|]]; reflexivity.
Qed.

Lemma darwin_IsInstalled_spec (st : State) :
  Darwin.IsInstalled st =
    (Returned (match snd (stat_entry (Darwin.servicePath (self st))
                            (fs st !! Darwin.servicePath (self st))) with
               | None => true
               | Some _ => false
               end,
               snd (stat_entry (Darwin.servicePath (self st))
                      (fs st !! Darwin.servicePath (self st)))), st).
Proof.
  unfold Darwin.IsInstalled, os_Stat. run_monad.
  destruct (stat_entry _ _) as [fi [e|]]; reflexivity.
Qed.

(** ** What the modelled patterns match

    The matcher is sound and complete for [re_sem]; the leftmost search
    finds a match exactly when the subject holds one. *)

Lemma match_here_sound (its : list Regexp.item) :
  forall s m g,
    Regexp.match_here its s = Some (m, g) ->
    re_sem its m g /\ exists rest, s = m +:+ rest.
Proof.
  induction its as [|it r IH]; intros s m g H.
  - injection H as <- <-. split; [split; reflexivity | now exists s].
  - destruct it; simpl in H.
    + destruct s as [|x s']; [discriminate|].
      destruct (ascii_eqb x c) eqn:Hx; [|discriminate].
      apply ascii_eqb_eq in Hx as ->.
      destruct (Regexp.match_here r s') as [[m' g']|] eqn:Hr; [|discriminate].
      injection H as <- <-. destruct (IH _ _ _ Hr) as [Hs [rest ->]].
      split; [now exists m' | now exists rest].
    + destruct s as [|x s']; [discriminate|].
      destruct (ascii_eqb x newline) eqn:Hx; [discriminate|].
      destruct (Regexp.match_here r s') as [[m' g']|] eqn:Hr; [|discriminate].
      injection H as <- <-. destruct (IH _ _ _ Hr) as [Hs [rest ->]].
      split; [now exists x, m' | now exists rest].
    + revert m g H. induction s as [|x s' IHs]; intros m g H.
      * destruct (IH _ _ _ H) as [Hs [rest Hrest]].
        split; [now exists "", m | now exists rest].
      * destruct (ascii_eqb x newline) eqn:Hx.
        { destruct (IH _ _ _ H) as [Hs [rest Hrest]].
          split; [now exists "", m | now exists rest]. }
        match type of H with
        | match ?t with _ => _ end = _ => destruct t as [[m' g']|] eqn:Hstar
        end.
        { injection H as <- <-.
          destruct (IHs _ _ eq_refl) as [(w & m0 & -> & Hw & Hs) [rest ->]].
          split; [|now exists rest].
          exists (String x w), m0. repeat split; [|exact Hs].
          unfold no_newline in *. simpl. now rewrite Hx. }
        destruct (IH _ _ _ H) as [Hs [rest Hrest]].
        split; [now exists "", m | now exists rest].
    + match type of H with
      | mbind _ ?t = _ => destruct t as [[d [m' g']]|] eqn:Hd; [|discriminate]
      end.
      simpl in H. injection H as <- <-.
      revert d m' g' Hd. induction s as [|x s' IHs]; intros d m' g' Hd;
        [discriminate|].
      destruct (Regexp.is_digit x) eqn:Hx; [|discriminate].
      match type of Hd with
      | match ?t with _ => _ end = _ => destruct t as [[d0 res]|] eqn:Hdig
      end.
      * destruct res as [m0 g0]. injection Hd as <- <- <-.
        destruct (IHs _ _ _ eq_refl) as [(d1 & m1 & g1 & Hm & Hg & [Hne Hall] & Hs) [rest ->]].
        injection Hg as -> ->.
        split; [|now exists rest].
        exists (String x d1), m1, g1. repeat split; try easy.
        { simpl. now rewrite Hm. }
        unfold all_digits in *. simpl. now rewrite Hx.
      * destruct (Regexp.match_here r s') as [[m1 g1]|] eqn:Hr; [|discriminate].
        simpl in Hd. injection Hd as <- <- <-.
        destruct (IH _ _ _ Hr) as [Hs [rest ->]].
        split; [|now exists rest].
        exists (String x ""), m1, g1. repeat split; try easy.
        unfold all_digits. simpl. now rewrite Hx.
Qed.

Lemma match_here_complete (its : list Regexp.item) :
  forall m g rest,
    re_sem its m g ->
    exists m' g', Regexp.match_here its (m +:+ rest) = Some (m', g').
Proof.
  induction its as [|it r IH]; intros m g rest H.
  - now exists "", [].
  - destruct it; simpl in H.
    + destruct H as (m' & -> & Hs). simpl.
      unfold ascii_eqb. rewrite Ascii.eqb_refl.
      destruct (IH _ _ rest Hs) as (m1 & g1 & ->). simpl. eauto.
    + destruct H as (x & m' & -> & Hx & Hs). simpl. rewrite Hx.
      destruct (IH _ _ rest Hs) as (m1 & g1 & ->). simpl. eauto.
    + destruct H as (w & m' & -> & Hw & Hs).
      destruct (IH _ _ rest Hs) as (m1 & g1 & Hr).
      rewrite append_assoc. simpl.
      induction w as [|x w IHw].
      * simpl. destruct (m' +:+ rest) as [|y s'] eqn:Hs'; [eauto|].
        destruct (ascii_eqb y newline); [eauto|].
        match goal with
        | |- context [match ?t with Some _ => _ | None => _ end] =>
            destruct t as [[? ?]|]
        end; eauto.
      * unfold no_newline in Hw. simpl in Hw. apply andb_true_iff in Hw as [Hx Hw].
        apply negb_true_iff in Hx. simpl. rewrite Hx.
        destruct (IHw Hw) as (m2 & g2 & ->). eauto.
    + destruct H as (d & m' & g' & -> & -> & [Hne Hall] & Hs).
      destruct (IH _ _ rest Hs) as (m1 & g1 & Hr).
      rewrite append_assoc. simpl.
      match goal with
      | |- context [mbind _ ?t] =>
          assert (Hd : exists res, t = Some res)
      end.
      { destruct d as [|x d]; [congruence|]. clear Hne.
        revert x Hall. induction d as [|y d IHd]; intros x Hall;
          unfold all_digits in Hall; simpl in Hall;
          apply andb_true_iff in Hall as [Hx Hall]; simpl; rewrite Hx.
        - match goal with
          | |- context [match ?t with Some _ => _ | None => _ end] =>
              destruct t as [[? ?]|]
          end; [eauto|]. rewrite Hr. simpl. eauto.
        - destruct (IHd y Hall) as (res & Hres). simpl in Hres. rewrite Hres.
          destruct res. eauto. }
      destruct Hd as ([d1 [m2 g2]] & ->). simpl. eauto.
Qed.

Lemma search_sound (its : list Regexp.item) (s : string) (l : list string) :
  Regexp.search its s = Some l ->
  exists pre m g post, l = m :: g /\ s = pre +:+ m +:+ post /\ re_sem its m g.
Proof.
  induction s as [|x s IHs]; simpl.
  - destruct (Regexp.match_here its "") as [[m g]|] eqn:Hm; [|discriminate].
    intros [= <-]. destruct (match_here_sound _ _ _ _ Hm) as [Hs [rest Hr]].
    exists "", m, g, rest. auto.
  - destruct (Regexp.match_here its (String x s)) as [[m g]|] eqn:Hm.
    + intros [= <-]. destruct (match_here_sound _ _ _ _ Hm) as [Hs [rest Hr]].
      exists "", m, g, rest. auto.
    + intros H. destruct (IHs H) as (pre & m & g & post & -> & -> & Hs).
      exists (String x pre), m, g, post. auto.
Qed.

Lemma search_complete (its : list Regexp.item) (pre m post : string) (g : list string) :
  re_sem its m g -> exists l, Regexp.search its (pre +:+ m +:+ post) = Some l.
Proof.
  intros Hs. destruct (match_here_complete its m g post Hs) as (m' & g' & Hm).
  induction pre as [|x pre IH]; simpl.
  - destruct (m +:+ post); simpl in *; rewrite Hm; eauto.
  - destruct (Regexp.match_here its (String x _)) as [[? ?]|]; [eauto | exact IH].
Qed.

Lemma re_sem_lits (l : string) (r : list Regexp.item) (m : string) (g : list string) :
  re_sem (lits l ++ r) m g <-> exists m', m = l +:+ m' /\ re_sem r m' g.
Proof.
  revert m. induction l as [|c l IH]; intros m; simpl.
  - split; [intros H; now exists m | now intros (m' & -> & H)].
  - split.
    + intros (m' & -> & H). apply IH in H as (m'' & -> & H). now exists m''.
    + intros (m' & -> & H). exists (l +:+ m'). split; [reflexivity|].
      apply IH. now exists m'.
Qed.

Lemma re_sem_marker (before after m : string) (g : list string) :
  re_sem (lits before ++ Regexp.Digits :: lits after) m g
  <-> exists d, digits_run d /\ m = before +:+ d +:+ after /\ g = [d].
Proof.
  rewrite re_sem_lits. split.
  - intros (m' & -> & d & m'' & g' & -> & -> & Hd & H).
    rewrite <- (app_nil_r (lits after)) in H.
    apply re_sem_lits in H as (e & -> & -> & ->).
    exists d. rewrite append_nil_r. auto.
  - intros (d & Hd & -> & ->). exists (d +:+ after). split; [reflexivity|].
    exists d, after, []. repeat split; try apply Hd.
    rewrite <- (app_nil_r (lits after)). apply re_sem_lits.
    exists "". rewrite append_nil_r. simpl. auto.
Qed.

Lemma exec_dot_free (O : Regexp.Oracle) (re : string) (its : list Regexp.item)
    (s : string) :
  Regexp.parse re = Some its -> Regexp.dot_free its = true ->
  Regexp.exec O re s = Regexp.search its s.
Proof. intros Hp Hd. unfold Regexp.exec. now rewrite Hp, Hd. Qed.

Lemma dot_free_lits (l : string) (r : list Regexp.item) :
  Regexp.dot_free (lits l ++ r) = Regexp.dot_free r.
Proof.
  unfold Regexp.dot_free, lits. rewrite forallb_app.
  induction l as [|c l IH]; simpl; [reflexivity | exact IH].
Qed.

Lemma strip_prefix_length (a s rest : string) :
  Regexp.strip_prefix a s = Some rest ->
  String.length s = (String.length a + String.length rest)%nat.
Proof.
  revert s. induction a as [|x a IH]; intros s; simpl.
  - now intros [= ->].
  - destruct s as [|y s]; [discriminate|].
    destruct (ascii_eqb x y); [|discriminate].
    intros H. simpl. now rewrite (IH _ H).
Qed.

Lemma parse_fuel_enough (n : nat) :
  forall m p, (String.length p <= n)%nat -> (String.length p <= m)%nat ->
              Regexp.parse_fuel n p = Regexp.parse_fuel m p.
Proof.
  induction n as [|n IH]; intros m p Hn Hm.
  - destruct p; [now destruct m | simpl in Hn; lia].
  - destruct p as [|c r]; [now destruct m|].
    destruct m as [|m]; [simpl in Hm; lia|].
    simpl in Hn, Hm. cbn [Regexp.parse_fuel].
    destruct (Regexp.strip_prefix "([0-9]+)" (String c r)) as [rest|] eqn:H1.
    { apply strip_prefix_length in H1. simpl in H1.
      now rewrite (IH m rest) by lia. }
    destruct (Regexp.strip_prefix ".*" (String c r)) as [rest|] eqn:H2.
    { apply strip_prefix_length in H2. simpl in H2.
      now rewrite (IH m rest) by lia. }
    now rewrite (IH m r) by lia.
Qed.

Lemma parse_dotstar (p : string) :
  Regexp.parse (".*" +:+ p) = cons Regexp.DotStar <$> Regexp.parse p.
Proof.
  unfold Regexp.parse.
  change (Regexp.parse_fuel (String.length (".*" +:+ p)) (".*" +:+ p))
    with (cons Regexp.DotStar <$> Regexp.parse_fuel (S (String.length p)) p).
  now rewrite (parse_fuel_enough (S (String.length p)) (String.length p) p) by lia.
Qed.

Lemma parse_plain_app (l r : string) :
  plain l = true ->
  Regexp.parse (l +:+ r) = app (lits l) <$> Regexp.parse r.
Proof.
  intros Hp. induction l as [|c l IH].
  - simpl. now destruct (Regexp.parse r).
  - unfold plain in Hp. simpl in Hp. apply andb_true_iff in Hp as [Hc Hp].
    apply andb_true_iff in Hc as [Ha Hm]. apply negb_true_iff in Hm.
    assert (Hne : forall x, In x (list_ascii_of_string "\.+*?()|[]{}^$") ->
                            ascii_eqb x c = false).
    { intros x Hx. unfold Regexp.is_meta in Hm.
      destruct (ascii_eqb x c) eqn:Hxc; [|reflexivity].
      apply ascii_eqb_eq in Hxc as ->.
      assert (existsb (ascii_eqb c) (list_ascii_of_string "\.+*?()|[]{}^$") = true)
        as Hex by (apply existsb_exists; exists c; split;
                   [exact Hx | apply Ascii.eqb_refl]).
      congruence. }
    assert (H1 : ascii_eqb "(" c = false) by (apply Hne; simpl; tauto).
    assert (H2 : ascii_eqb "." c = false) by (apply Hne; simpl; tauto).
    assert (H3 : ascii_eqb c "." = false).
    { unfold ascii_eqb in *. now rewrite Ascii.eqb_sym. }
    unfold Regexp.parse in *. simpl String.append. simpl String.length.
    cbn [Regexp.parse_fuel Regexp.strip_prefix]. rewrite H1, H2, H3, Hm, Ha.
    cbn [orb negb]. rewrite (IH Hp).
    destruct (Regexp.parse_fuel _ r); reflexivity.
Qed.

Lemma parse_fuel_plain (nm : string) :
  plain nm = true ->
  forall n, (String.length nm <= n)%nat -> Regexp.parse_fuel n nm = Some (lits nm).
Proof.
  unfold plain. induction nm as [|c nm IH]; intros Hp n Hn; [now destruct n|].
  simpl in Hp. apply andb_true_iff in Hp as [Hc Hp].
  apply andb_true_iff in Hc as [Ha Hm]. apply negb_true_iff in Hm.
  destruct n as [|n]; [simpl in Hn; lia|].
  assert (Hne : forall x, In x (list_ascii_of_string "\.+*?()|[]{}^$") ->
                          ascii_eqb x c = false).
  { intros x Hx. unfold Regexp.is_meta in Hm.
    destruct (ascii_eqb x c) eqn:Hxc; [|reflexivity].
    apply ascii_eqb_eq in Hxc as ->.
    assert (existsb (ascii_eqb c) (list_ascii_of_string "\.+*?()|[]{}^$") = true)
      as Hex by (apply existsb_exists; exists c; split;
                 [exact Hx | apply Ascii.eqb_refl]).
    congruence. }
  assert (H1 : ascii_eqb "(" c = false) by (apply Hne; simpl; tauto).
  assert (H2 : ascii_eqb "." c = false) by (apply Hne; simpl; tauto).
  assert (H3 : ascii_eqb c "." = false).
  { unfold ascii_eqb in *. now rewrite Ascii.eqb_sym. }
  cbn [Regexp.parse_fuel Regexp.strip_prefix]. rewrite H1, H2, H3, Hm, Ha.
  cbn [orb negb]. rewrite IH by (simpl in Hn; auto with arith). reflexivity.
Qed.

Lemma parse_plain (nm : string) :
  plain nm = true -> Regexp.parse nm = Some (lits nm).
Proof. intros Hp. apply parse_fuel_plain; auto. Qed.

Lemma dot_free_plain (nm : string) : Regexp.dot_free (lits nm) = true.
Proof. rewrite <- (app_nil_r (lits nm)). now rewrite dot_free_lits. Qed.

Lemma plain_name_found (O : Regexp.Oracle) (nm out : string) :
  plain nm = true -> (name_found O nm out = true <-> embeds out nm).
Proof.
  intros Hp. unfold name_found, Regexp.MatchString, Regexp.Compile, Regexp.classify.
  rewrite (parse_plain nm Hp). cbn [andb].
  rewrite (exec_dot_free O nm (lits nm) out (parse_plain nm Hp) (dot_free_plain nm)).
  rewrite bool_decide_eq_true. split.
  - intros [l Hl]. apply search_sound in Hl as (pre & m & g & post & -> & -> & Hs).
    rewrite <- (app_nil_r (lits nm)) in Hs.
    apply re_sem_lits in Hs as (m' & -> & -> & ->).
    rewrite append_nil_r. now exists pre, post.
  - intros (pre & post & ->).
    destruct (search_complete (lits nm) pre nm post []) as (l & Hl).
    + rewrite <- (app_nil_r (lits nm)). apply re_sem_lits.
      exists "". rewrite append_nil_r. simpl. auto.
    + rewrite Hl. eauto.
Qed.

Lemma bsd_marker_parses :
  Regexp.parse bsd_marker = Some (lits "pid  " ++ Regexp.Digits :: lits "").
Proof. reflexivity. Qed.

Lemma darwin_marker_parses :
  Regexp.parse Darwin.pid_pattern
  = Some (lits launchd_before ++ Regexp.Digits :: lits ";").
Proof. reflexivity. Qed.

Lemma enable_pattern_parses (bsd : record) :
  plain (name bsd) = true ->
  Regexp.parse (Bsd.enable_pattern bsd)
  = Some (Regexp.DotStar :: lits (name bsd) ++ lits enable_text ++ [Regexp.DotStar]).
Proof.
  intros Hp. unfold Bsd.enable_pattern.
  rewrite parse_dotstar, (parse_plain_app _ _ Hp). reflexivity.
Qed.

Lemma re_sem_enable (nm m : string) (g : list string) :
  re_sem (Regexp.DotStar :: lits nm ++ lits enable_text ++ [Regexp.DotStar]) m g
  <-> exists w1 w2, m = w1 +:+ nm +:+ enable_text +:+ w2
                    /\ no_newline w1 = true /\ no_newline w2 = true /\ g = [].
Proof.
  cbn [re_sem]. split.
  - intros (w1 & m1 & -> & Hw1 & H).
    apply re_sem_lits in H as (m2 & -> & H).
    apply re_sem_lits in H as (m3 & -> & w2 & m4 & -> & Hw2 & -> & ->).
    exists w1, w2. rewrite append_nil_r. auto.
  - intros (w1 & w2 & -> & Hw1 & Hw2 & ->).
    exists w1, (nm +:+ enable_text +:+ w2). repeat split; auto.
    apply re_sem_lits. eexists. split; [reflexivity|].
    apply re_sem_lits. eexists. split; [reflexivity|].
    exists w2, "". rewrite append_nil_r. repeat split; auto.
Qed.

(** ** The enablement check *)

Lemma scan_uncommented (v : string) :
  fst (Bsd.scan v false false) = uncommented v.
Proof.
  induction v as [|c v IH]; [reflexivity|]. simpl.
  destruct (ascii_eqb c "#") eqn:Hs.
  - apply ascii_eqb_eq in Hs as ->. reflexivity.
  - simpl. destruct (ascii_eqb c " "); [exact IH | reflexivity].
Qed.

Lemma isEnabled_returns (E : Env) (st : State) (data : string) (m : N)
    (re : Regexp.t) :
  fs st !! rc_conf = Some (File data m) ->
  Regexp.Compile (oracle E) (Bsd.enable_pattern (self st)) = Some re ->
  fst (Bsd.isEnabled E st)
  = Returned (uncommented (Regexp.Find (oracle E) re data), None).
Proof.
  unfold rc_conf. intros Hf Hc.
  unfold Bsd.isEnabled, os_Open, ioutil_ReadAll.
  rewrite !bind_run. unfold get, modify, ret, mret, M_ret. cbv beta iota.
  rewrite !bind_run. cbv beta iota. cbn [fs emit]. rewrite Hf. cbn [open_entry].
  rewrite !bind_run. cbv beta iota. cbn [fs emit]. rewrite Hf. cbn [read_entry].
  rewrite Hc. rewrite <- scan_uncommented.
  destruct (Bsd.scan _ false false). reflexivity.
Qed.

Lemma isEnabled_unreadable (E : Env) (st : State) (err : error) :
  open_entry rc_conf (fs st !! rc_conf) = (None, Some err) ->
  fst (Bsd.isEnabled E st) = Returned (false, Some err).
Proof.
  unfold rc_conf. intros Ho.
  unfold Bsd.isEnabled, os_Open.
  rewrite !bind_run. unfold get, modify, ret, mret, M_ret. cbv beta iota.
  rewrite !bind_run. cbv beta iota. rewrite Ho. reflexivity.
Qed.

(** On a pure ASCII text and for a plain name, what [isEnabled] looks at is
    a stretch of the text without line break around an occurrence of
    [<name>_enable="YES"], and the empty text when there is none. *)
Lemma enablement_line (O : Regexp.Oracle) (bsd : record) (data : string) :
  plain (name bsd) = true -> Regexp.ascii_only data = true ->
  let v := Regexp.Find O (Bsd.enable_pattern bsd) data in
  (embeds data (name bsd +:+ enable_text) ->
   exists pre post w1 w2,
     data = pre +:+ v +:+ post
     /\ v = w1 +:+ name bsd +:+ enable_text +:+ w2
     /\ no_newline w1 = true /\ no_newline w2 = true)
  /\ (~ embeds data (name bsd +:+ enable_text) -> v = "").
Proof.
  intros Hp Ha. unfold Regexp.Find, Regexp.exec.
  rewrite (enable_pattern_parses bsd Hp), Ha, orb_true_r.
  split.
  - intros (pre & post & ->).
    destruct (search_complete
                (Regexp.DotStar :: lits (name bsd) ++ lits enable_text ++ [Regexp.DotStar])
                pre (name bsd +:+ enable_text) post []) as (l & Hl).
    { apply re_sem_enable. exists "", "". rewrite append_nil_r. auto. }
    cbv zeta. rewrite Hl.
    apply search_sound in Hl as (pre' & m & g & post' & -> & Hd & Hs).
    apply re_sem_enable in Hs as (w1 & w2 & -> & Hw1 & Hw2 & ->).
    exists pre', post', w1, w2. auto.
  - intros Hno. cbv zeta.
    destruct (Regexp.search _ data) as [l|] eqn:Hl; [|reflexivity].
    apply search_sound in Hl as (pre' & m & g & post' & -> & -> & Hs).
    apply re_sem_enable in Hs as (w1 & w2 & -> & Hw1 & Hw2 & ->).
    exfalso. apply Hno. exists (pre' +:+ w1), (w2 +:+ post').
    now rewrite !append_assoc.
Qed.


(** The four sample configurations for the service foo. *)
Example isEnabled_samples :
  fst (Bsd.isEnabled env_root (rc_conf_with rec_foo foo_line))
    = Returned (true, None)
  /\ fst (Bsd.isEnabled env_root (rc_conf_with rec_foo ("#" +:+ foo_line)))
    = Returned (false, None)
  /\ fst (Bsd.isEnabled env_root (rc_conf_with rec_foo ("  " +:+ foo_line)))
    = Returned (true, None)
  /\ fst (Bsd.isEnabled env_root
            (rc_conf_with rec_foo ("sshd_enable=" +:+ dq +:+ "NO" +:+ dq)))
    = Returned (false, None)
  /\ fst (Bsd.isEnabled env_root (with_files rec_foo []))
    = Returned (false, Some (PathError "open" "/etc/rc.conf" ENOENT)).
Proof. vm_compute. repeat split. Qed.

(** C5. For the name "(" the pattern built by [isEnabled] has a group that
    is never closed: [regexp.Compile] returns nil with an error that is
    dropped, and [Find] is called on the nil expression.  The check panics
    on a readable boot configuration with no matching line, and with it
    [getCmd] and every operation that selects a verb. *)
Theorem isEnabled_panics_on_malformed_name :
  Regexp.Compile (oracle env_root) (Bsd.enable_pattern (self st_paren)) = None
  /\ fst (Bsd.isEnabled env_root st_paren) = Panicked nil_dereference
  /\ fst (Bsd.getCmd env_root "start" st_paren) = Panicked nil_dereference
  /\ fst (Bsd.Start env_root st_paren) = Panicked nil_dereference
  /\ fst (Bsd.Status env_root st_paren) = Panicked nil_dereference.
Proof. vm_compute. repeat split. Qed.

Lemma isEnabled_log (E : Env) (st : State) :
  snd (Bsd.isEnabled E st) = emit (EvOpen rc_conf) st.
Proof.
  unfold Bsd.isEnabled, os_Open, ioutil_ReadAll. run_monad. crunch.
Qed.

Lemma isEnabled_frame (E : Env) (st st' : State) :
  fs st' = fs st -> self st' = self st ->
  fst (Bsd.isEnabled E st') = fst (Bsd.isEnabled E st).
Proof.
  destruct st, st'. simpl. intros -> ->.
  unfold Bsd.isEnabled, os_Open, ioutil_ReadAll. run_monad. crunch.
Qed.

Lemma getCmd_run (E : Env) (cmd : string) (st : State) :
  Bsd.getCmd E cmd st =
    (match fst (Bsd.isEnabled E st) with
     | Returned _ => Returned (verb_for E st cmd)
     | Panicked w => Panicked w
     end, emit (EvOpen rc_conf) st).
Proof.
  unfold Bsd.getCmd, verb_for, autostart.
  unfold mbind at 1, M_bind at 1.
  pose proof (isEnabled_log E st) as Hlog.
  destruct (Bsd.isEnabled E st) as [[[ok err]|w] st1]; simpl in *; subst st1;
    [|reflexivity].
  destruct ok, err; reflexivity.
Qed.

Lemma autostart_frame (E : Env) (st st' : State) :
  fs st' = fs st -> self st' = self st -> autostart E st' = autostart E st.
Proof.
  intros Hfs Hself. unfold autostart. now rewrite (isEnabled_frame E st st').
Qed.

(** ** The status probe *)

Lemma bsd_checkRunning_eq (E : Env) (st : State) :
  Bsd.checkRunning E st =
    match fst (Bsd.isEnabled E st) with
    | Returned _ =>
        (Returned (verdict (oracle E) (name (self st)) bsd_marker
                     (command E ["service"; name (self st); verb_for E st "status"])),
         emit (service_call E st "status") (emit (EvOpen rc_conf) st))
    | Panicked w => (Panicked w, emit (EvOpen rc_conf) st)
    end.
Proof.
  unfold Bsd.checkRunning.
  unfold mbind at 1, M_bind at 1, get at 1.
  unfold mbind at 1, M_bind at 1. rewrite getCmd_run.
  destruct (fst (Bsd.isEnabled E st)) as [r|w] eqn:Hen; [|reflexivity].
  unfold exec_Output, regexp_MustCompile, verdict, service_call. run_monad.
  destruct (command E _) as [output [e|]]; simpl; [reflexivity|].
  destruct (Regexp.MatchString _ _ _) as [matched compiled].
  destruct (compiled && matched); [|reflexivity].
  unfold bsd_marker.
  destruct (Regexp.FindStringSubmatch _ _ _) as [|? [|? ?]]; reflexivity.
Qed.

Lemma darwin_checkRunning_eq (E : Env) (st : State) :
  Darwin.checkRunning E st =
    (Returned (verdict (oracle E) (name (self st)) Darwin.pid_pattern
                 (command E ["launchctl"; "list"; name (self st)])),
     emit (EvExec ["launchctl"; "list"; name (self st)]) st).
Proof.
  unfold Darwin.checkRunning, exec_Output, regexp_MustCompile, verdict. run_monad.
  destruct (command E _) as [output [e|]]; simpl; [reflexivity|].
  destruct (Regexp.MatchString _ _ _) as [matched compiled].
  destruct (compiled && matched); [|reflexivity].
  destruct (Regexp.FindStringSubmatch _ _ _) as [|? [|? ?]]; reflexivity.
Qed.

(** C6. The name is handed to [regexp.MatchString] as a pattern, not as a
    text to look for.  For the service "a.b" the status command of either
    variant prints "axb": the output does not contain the name, so that the
    stopped message with running false is due, and the probe answers
    running. *)
Theorem probe_matches_name_as_pattern :
  command env_axb ["launchctl"; "list"; name (self st_dotted)] = ("axb", None)
  /\ command env_axb ["service"; name (self st_dotted); "onestatus"] = ("axb", None)
  /\ ~ embeds "axb" (name (self st_dotted))
  /\ fst (Darwin.checkRunning env_axb st_dotted)
     = Returned ("Service is running...", true)
  /\ Bsd.checkRunning env_axb st_dotted
     = (Returned ("Service is running...", true),
        emit (EvExec ["service"; name (self st_dotted); "onestatus"])
          (emit (EvOpen rc_conf) st_dotted)).
Proof.
  split; [reflexivity|]. split; [reflexivity|].
  split; [|split; vm_compute; reflexivity].
  rewrite <- contains_spec. vm_compute. discriminate.
Qed.

(** ** Start and Stop on rc.d: the choice of the verb *)







(** ** Start on a running service *)

(** C8. When the caller is privileged, the descriptor is there and the
    probe answers running, [Start] returns the failure message with
    [ErrAlreadyRunning]; the state it leaves is the one the probe left, so
    the only command issued is the status query of the probe, on rc.d after
    the reading of the boot configuration. *)
Theorem Start_running_is_refused (E : Env) (st : State) (msg : string)
    (Hpriv : fst (checkPrivileges E) = true) :
  (snd (stat_entry (Bsd.servicePath (self st))
          (fs st !! Bsd.servicePath (self st))) = None ->
   fst (Bsd.checkRunning E st) = Returned (msg, true) ->
   Bsd.Start E st =
     (Returned (("Starting " +:+ description (self st) +:+ ":") +:+ failed,
                Some ErrAlreadyRunning),
      emit (service_call E st "status") (emit (EvOpen rc_conf) st)))
  /\
  (snd (stat_entry (Darwin.servicePath (self st))
          (fs st !! Darwin.servicePath (self st))) = None ->
   fst (Darwin.checkRunning E st) = Returned (msg, true) ->
   Darwin.Start E st =
     (Returned (("Starting " +:+ description (self st) +:+ ":") +:+ failed,
                Some ErrAlreadyRunning),
      emit (EvExec ["launchctl"; "list"; name (self st)]) st)).
Proof.
  destruct (checkPrivileges E) as [ok perr] eqn:Hp. simpl in Hpriv. subst ok.
  split; intros Hstat Hrun.
  - unfold Bsd.Start. rewrite Hp. cbn [negb].
    rewrite bind_run. unfold get at 1. cbv beta iota.
    rewrite bind_run, bsd_IsInstalled_spec, Hstat. cbn [negb].
    rewrite bind_run. rewrite bsd_checkRunning_eq in Hrun |- *.
    destruct (fst (Bsd.isEnabled E st)); [|discriminate].
    simpl in Hrun. injection Hrun as Hrun. rewrite Hrun. reflexivity.
  - unfold Darwin.Start. rewrite Hp. cbn [negb].
    rewrite bind_run. unfold get at 1. cbv beta iota.
    rewrite bind_run, darwin_IsInstalled_spec, Hstat. cbn [negb].
    rewrite bind_run. rewrite darwin_checkRunning_eq in Hrun |- *.
    simpl in Hrun. injection Hrun as Hrun. rewrite Hrun. reflexivity.
Qed.

Lemma Start_running_is_refused_witness :
  Bsd.Start env_running st_enabled =
    (Returned ("Starting d:failed", Some ErrAlreadyRunning),
     emit (EvExec ["service"; "x"; "status"]) (emit (EvOpen rc_conf) st_enabled))
  /\ Darwin.Start env_running st_enabled =
    (Returned ("Starting d:failed", Some ErrAlreadyRunning),
     emit (EvExec ["launchctl"; "list"; "x"]) st_enabled).
Proof.
  destruct (Start_running_is_refused env_running st_enabled
              "Service (pid  42) is running..." eq_refl) as [Hb Hd].
  split.
  - apply Hb; vm_compute; reflexivity.
  - apply Hd; vm_compute; reflexivity.
Defined.

(** C8, the claim as written fails twice.  A caller without privileges is
    refused for that reason although the service runs; and a privileged
    caller of [Start] on a running service does issue a command of the
    service manager, the status query. *)
Lemma Start_running_as_stated_fails :
  (fst (Darwin.checkRunning env_user st_enabled)
     = Returned ("Service (pid  42) is running...", true)
   /\ fst (Darwin.Start env_user st_enabled)
      = Returned ("Starting d:failed", Some no_root)
   /\ fst (Bsd.checkRunning env_user st_enabled)
      = Returned ("Service (pid  42) is running...", true)
   /\ fst (Bsd.Start env_user st_enabled)
      = Returned ("Starting d:failed", Some no_root))
  /\
  (log (snd (Darwin.Start env_running st_enabled))
     = [EvExec ["launchctl"; "list"; "x"]]
   /\ log (snd (Bsd.Start env_running st_enabled))
      = [EvOpen rc_conf; EvExec ["service"; "x"; "status"]]).
Proof. vm_compute. repeat split. Qed.

(** ** Writing a file *)

Lemma file_Write_effect (f b : string) (st : State) :
  exists err st',
    file_Write f b st = (Returned err, st')
    /\ self st' = self st /\ log st' = log st
    /\ forall c m, fs st !! f = Some (File c m) ->
         (exists c', fs st' !! f = Some (File c' m))
         /\ (err = None -> fs st' !! f = Some (File (c +:+ b) m)).
Proof.
  unfold file_Write. rewrite bind_run. unfold get. cbv beta iota.
  destruct (fs st !! f) as [[c m| |e]|] eqn:Hf;
    try (eexists _, _; split; [reflexivity|];
         split; [reflexivity|]; split; [reflexivity|]; congruence).
  destruct (space st) as [k|]; [destruct (String.length b <=? k)%nat|];
    (eexists _, _; split; [reflexivity|];
     split; [reflexivity|]; split; [reflexivity|];
     intros c0 m0 [= <- <-]; cbn [fs set_fs set_space];
     rewrite lookup_insert_eq; split; [eauto | try discriminate; auto]).
Qed.

Lemma write_all_effect (f : string) (chunks : list string) :
  forall st, exists err st',
    write_all f chunks st = (Returned err, st')
    /\ self st' = self st /\ log st' = log st
    /\ forall c m, fs st !! f = Some (File c m) ->
         (exists c', fs st' !! f = Some (File c' m))
         /\ (err = None -> fs st' !! f = Some (File (c +:+ cat chunks) m)).
Proof.
  induction chunks as [|b chunks IH]; intros st.
  - exists None, st. repeat split; auto. 
    + eauto.
    + intros _. now rewrite append_nil_r.
  - cbn [write_all]. rewrite bind_run.
    destruct (file_Write_effect f b st) as (err & st1 & -> & Hs & Hl & Hf).
    destruct err as [e|].
    + exists (Some e), st1. repeat split; auto.
      * apply (Hf c m H).
      * discriminate.
    + destruct (IH st1) as (err & st2 & -> & Hs2 & Hl2 & Hf2).
      exists err, st2. split; [reflexivity|].
      split; [congruence|]. split; [congruence|].
      intros c m Hc. destruct (Hf c m Hc) as [_ Hok].
      specialize (Hok eq_refl). destruct (Hf2 _ _ Hok) as [Hex Hall].
      split; [exact Hex|]. intros He. rewrite (Hall He).
      unfold cat. cbn [fold_right]. now rewrite append_assoc.
Qed.

Lemma template_Execute_effect (templ : list Template.node) (f : string)
    (data : Template.dot) (st : State) :
  exists err st',
    template_Execute templ f data st = (Returned err, st')
    /\ self st' = self st /\ log st' = log st
    /\ forall c m, fs st !! f = Some (File c m) ->
         (exists c', fs st' !! f = Some (File c' m))
         /\ (err = None ->
             snd (Template.run templ data) = true
             /\ fs st' !! f
                = Some (File (c +:+ cat (fst (Template.run templ data))) m)).
Proof.
  unfold template_Execute.
  destruct (Template.run templ data) as [chunks ok]. rewrite bind_run.
  destruct (write_all_effect f chunks st) as (err & st1 & -> & Hs & Hl & Hf).
  destruct err as [e|].
  - exists (Some e), st1. repeat split; auto; try discriminate. apply (Hf c m H).
  - destruct ok.
    + exists None, st1. split; [reflexivity|].
      split; [exact Hs|]. split; [exact Hl|].
      intros c m Hc. destruct (Hf c m Hc) as [Hex Hall].
      split; [exact Hex|]. intros _. split; [reflexivity | now apply Hall].
    + exists (Some (TemplateError "exec")), st1.
      repeat split; auto; try discriminate. apply (Hf c m H).
Qed.

Lemma os_Chmod_effect (E : Env) (p : string) (mode : N) (st st' : State)
    (c : string) (m : N) :
  os_Chmod E p mode st = (Returned None, st') ->
  fs st !! p = Some (File c m) ->
  fs st' !! p = Some (File c mode) /\ self st' = self st.
Proof.
  unfold os_Chmod. rewrite bind_run. unfold get. cbv beta iota.
  intros H Hf. rewrite Hf in H.
  destruct (chmod_fault E p); [discriminate|].
  rewrite bind_run in H. unfold modify, ret, mret, M_ret in H.
  injection H as <-. cbn [fs self emit set_fs]. now rewrite lookup_insert_eq.
Qed.

(** ** The result contract where it holds

    Apart from [Install] on a record already installed, every pair that an
    operation returns honours the contract, provided the privilege guard
    gives an error when it refuses. *)

Ltac peel :=
  repeat (first
    [ rewrite bind_run
    | rewrite bsd_IsInstalled_spec
    | rewrite darwin_IsInstalled_spec
    | rewrite bsd_checkRunning_eq
    | rewrite darwin_checkRunning_eq
    | rewrite getCmd_run
    | progress (unfold get, ret, mret, M_ret, modify, panic)
    | progress (cbv beta iota)
    | match goal with
      | |- context [match ?x with _ => _ end] =>
          lazymatch x with
          | context [match _ with _ => _ end] => fail
          | _ => destruct x eqn:?
          end
      end ]).

Ltac settle :=
  cbn [fst snd honours];
  try exact I;
  try match goal with H : negb _ = _ |- _ => simpl in H; discriminate H end;
  try congruence;
  try (left; split; [reflexivity | congruence]);
  try (right; split; reflexivity).

Ltac honours_proof :=
  match goal with
  | |- refusal_has_error ?E -> _ =>
      unfold refusal_has_error; intros Hp;
      destruct (checkPrivileges E) as [[|] perr]; cbn [negb fst snd] in *;
      [|left; auto]
  end;
  peel; settle.

Lemma bsd_Remove_honours (E : Env) (st : State) :
  refusal_has_error E ->
  honours ("Removing " +:+ description (self st) +:+ ":") (fst (Bsd.Remove E st)).
Proof. unfold Bsd.Remove, os_Remove. honours_proof. Qed.

Lemma darwin_Remove_honours (E : Env) (st : State) :
  refusal_has_error E ->
  honours ("Removing " +:+ description (self st) +:+ ":") (fst (Darwin.Remove E st)).
Proof. unfold Darwin.Remove, os_Remove. honours_proof. Qed.

Lemma bsd_Start_honours (E : Env) (st : State) :
  refusal_has_error E ->
  honours ("Starting " +:+ description (self st) +:+ ":") (fst (Bsd.Start E st)).
Proof. unfold Bsd.Start, exec_Run. honours_proof. Qed.

Lemma darwin_Start_honours (E : Env) (st : State) :
  refusal_has_error E ->
  honours ("Starting " +:+ description (self st) +:+ ":") (fst (Darwin.Start E st)).
Proof. unfold Darwin.Start, exec_Run. honours_proof. Qed.

Lemma bsd_Stop_honours (E : Env) (st : State) :
  refusal_has_error E ->
  honours ("Stopping " +:+ description (self st) +:+ ":") (fst (Bsd.Stop E st)).
Proof. unfold Bsd.Stop, exec_Run. honours_proof. Qed.

Lemma darwin_Stop_honours (E : Env) (st : State) :
  refusal_has_error E ->
  honours ("Stopping " +:+ description (self st) +:+ ":") (fst (Darwin.Stop E st)).
Proof. unfold Darwin.Stop, exec_Run. honours_proof. Qed.

Lemma bsd_Install_honours (E : Env) (args : list string) (st : State) :
  refusal_has_error E ->
  snd (stat_entry (Bsd.servicePath (self st))
         (fs st !! Bsd.servicePath (self st))) <> None ->
  honours ("Install " +:+ description (self st) +:+ ":") (fst (Bsd.Install E args st)).
Proof.
  unfold Bsd.Install, os_Create, os_Chmod, os_Stat, FileInfo_IsDir.
  generalize (Template.Parse Bsd.bsdConfig). intros parsed.
  unfold refusal_has_error. intros Hp Hni.
  destruct (checkPrivileges E) as [[|] perr]; cbn [negb fst snd] in *;
    [|left; auto].
  peel; settle.
Qed.

Lemma darwin_Install_honours (E : Env) (args : list string) (st : State) :
  refusal_has_error E ->
  snd (stat_entry (Darwin.servicePath (self st))
         (fs st !! Darwin.servicePath (self st))) <> None ->
  honours ("Install " +:+ description (self st) +:+ ":") (fst (Darwin.Install E args st)).
Proof.
  unfold Darwin.Install, os_Create, os_Stat, FileInfo_IsDir.
  generalize (Template.Parse Darwin.propertyList). intros parsed.
  unfold refusal_has_error. intros Hp Hni.
  destruct (checkPrivileges E) as [[|] perr]; cbn [negb fst snd] in *;
    [|left; auto].
  peel; settle.
Qed.

(** ** Install *)

(** C1. Where the descriptor is already there and the caller is privileged,
    [Install] of either variant hands back the failure message together
    with the nil error that [IsInstalled] returned with its true answer:
    the message carries the failure suffix and the error is nil. *)
Theorem Install_installed_failed_with_nil_error
    (E : Env) (args : list string) (st : State)
    (Hpriv : fst (checkPrivileges E) = true) :
  (snd (stat_entry (Bsd.servicePath (self st))
          (fs st !! Bsd.servicePath (self st))) = None ->
   Bsd.Install E args st =
     (Returned (("Install " +:+ description (self st) +:+ ":") +:+ failed, None), st))
  /\
  (snd (stat_entry (Darwin.servicePath (self st))
          (fs st !! Darwin.servicePath (self st))) = None ->
   Darwin.Install E args st =
     (Returned (("Install " +:+ description (self st) +:+ ":") +:+ failed, None), st)).
Proof.
  split; intros Hstat.
  - unfold Bsd.Install.
    destruct (checkPrivileges E) as [ok err]; simpl in Hpriv; subst ok.
    unfold mbind at 1, M_bind at 1, get at 1. cbn [negb].
    unfold mbind at 1, M_bind at 1.
    rewrite bsd_IsInstalled_spec, Hstat. reflexivity.
  - unfold Darwin.Install.
    destruct (checkPrivileges E) as [ok err]; simpl in Hpriv; subst ok.
    unfold mbind at 1, M_bind at 1, get at 1. cbn [negb].
    unfold mbind at 1, M_bind at 1.
    rewrite darwin_IsInstalled_spec, Hstat. reflexivity.
Qed.

Lemma Install_installed_failed_with_nil_error_witness :
  Bsd.Install env_root ["--a"] st_installed =
    (Returned ("Install d:failed", None), st_installed)
  /\ Darwin.Install env_root ["--a"] st_installed =
    (Returned ("Install d:failed", None), st_installed).
Proof.
  destruct (Install_installed_failed_with_nil_error env_root ["--a"] st_installed
              eq_refl) as [Hb Hd].
  split; [apply Hb | apply Hd]; vm_compute; reflexivity.
Defined.

(** C3. On a record whose descriptors exist, [Install] by a privileged
    caller leaves the state as it was, descriptor content included, and
    returns the failure message with a nil error: no error value at all,
    hence none that says the service is already installed. *)
Theorem Install_installed_returns_no_error :
  (fst (Bsd.Install env_root ["--a"] st_installed)
     = Returned ("Install d:" +:+ failed, None)
   /\ snd (Bsd.Install env_root ["--a"] st_installed) = st_installed
   /\ fs st_installed !! Bsd.servicePath rec_x = Some (File "#!/bin/sh" 493%N))
  /\
  (fst (Darwin.Install env_root ["--a"] st_installed)
     = Returned ("Install d:" +:+ failed, None)
   /\ snd (Darwin.Install env_root ["--a"] st_installed) = st_installed
   /\ fs st_installed !! Darwin.servicePath rec_x = Some (File "<plist/>" 420%N)).
Proof. vm_compute. repeat split. Qed.

(** C4. With an execution path whose [stat] fails with an error other than
    not-found, [os.IsNotExist] is false and [stat.IsDir()] is called on the
    nil [FileInfo]: [Install] of either variant panics and returns no
    pair. *)
Theorem Install_panics_on_stat_error :
  fst (Bsd.Install env_root [] st_notdir) = Panicked nil_dereference
  /\ fst (Darwin.Install env_root [] st_notdir) = Panicked nil_dereference.
Proof. vm_compute. split; reflexivity. Qed.

(** C2. With room for thirty bytes only, every precondition of [Install]
    holds, the descriptor is created, and the write of the rendered text
    fails part-way: [Install] reports the failure and the descriptor path
    keeps a file holding the first thirty bytes of the text. *)
Theorem Install_leaves_partial_descriptor :
  (exists text,
      bsd_render rec_x ["--a"] = Some text
      /\ fs st_full !! Bsd.servicePath rec_x = None
      /\ fst (Bsd.Install env_root ["--a"] st_full)
         = Returned ("Install d:" +:+ failed,
                     Some (PathError "write" (Bsd.servicePath rec_x) ENOSPC))
      /\ fs (snd (Bsd.Install env_root ["--a"] st_full)) !! Bsd.servicePath rec_x
         = Some (File (take 30 text) 420%N)
      /\ take 30 text <> text)
  /\
  (exists text,
      darwin_render rec_x ["--a"] = Some text
      /\ fs st_full !! Darwin.servicePath rec_x = None
      /\ fst (Darwin.Install env_root ["--a"] st_full)
         = Returned ("Install d:" +:+ failed,
                     Some (PathError "write" (Darwin.servicePath rec_x) ENOSPC))
      /\ fs (snd (Darwin.Install env_root ["--a"] st_full)) !! Darwin.servicePath rec_x
         = Some (File (take 30 text) 420%N)
      /\ take 30 text <> text).
Proof.
  split; eexists; (split; [vm_compute; reflexivity|]);
    vm_compute; repeat split; discriminate.
Qed.

Ltac absurd_result :=
  match goal with
  | |- Returned (?a +:+ failed, _) = Returned (?a +:+ success, _) -> _ =>
      let H := fresh in
      intros H; exfalso; apply (failed_is_not_success a); congruence
  | |- Panicked _ = Returned _ -> _ => discriminate
  end.

Ltac written_descriptor Hexec :=
  intros _;
  match type of Hexec with
  | template_Execute ?t ?f ?d ?s = _ =>
      let Ht := fresh "Ht" in
      let Hs := fresh "Hs" in
      let Hf := fresh "Hf" in
      destruct (template_Execute_effect t f d s) as (? & ? & Ht & Hs & _ & Hf);
      rewrite Hexec in Ht; injection Ht as <- <-;
      cbn [fs self emit set_fs set_self] in Hf, Hs;
      destruct (Hf _ _ (lookup_insert_eq _ _ _)) as [_ Hf'];
      destruct (Hf' eq_refl) as [Hok Hfile]; clear Hf Hf'
  end.

Lemma bsd_Install_writes_descriptor (E : Env) (args : list string) (st : State) :
  fst (Bsd.Install E args st)
    = Returned (("Install " +:+ description (self st) +:+ ":") +:+ success, None) ->
  exists text,
    bsd_render (self (snd (Bsd.Install E args st))) args = Some text
    /\ fs (snd (Bsd.Install E args st)) !! Bsd.servicePath (self st)
       = Some (File text 493%N).
Proof.
  unfold Bsd.Install, os_Create, os_Stat, FileInfo_IsDir, bsd_render, descriptor.
  destruct (Template.Parse Bsd.bsdConfig) as [templ|] eqn:Hparse.
  2:{ destruct (checkPrivileges E) as [[|] perr]; cbn [negb fst snd] in *;
      peel; cbn [fst snd]; absurd_result. }
  destruct (checkPrivileges E) as [[|] perr]; cbn [negb fst snd] in *;
      peel; cbn [fst snd]; try absurd_result.
  all: try match goal with
           | H : snd (stat_entry _ (Some (File _ _))) = Some _ |- _ =>
               discriminate H
           | H : fs _ !! _ = Some (File _ _), H' : snd (stat_entry _ _) = Some _ |- _ =>
               cbn [fs set_self] in H; rewrite H in H'; discriminate H'
           end.
  all: match goal with
       | H : template_Execute _ _ _ _ = _ |- _ => written_descriptor H
       end.
  all: match goal with
       | H : os_Chmod _ _ _ _ = _ |- _ =>
           destruct (os_Chmod_effect _ _ _ _ _ _ _ H Hfile) as [Hmode Hself]
       end.
  all: eexists; split; [|exact Hmode].
  all: rewrite Hself, Hs; cbn [mbind option_bind].
  all: match goal with
       | |- context [Template.run ?t ?d] =>
           destruct (Template.run t d) as [chunks ok]
       end; cbn [fst snd] in *; subst ok; reflexivity.
Qed.

Lemma darwin_Install_writes_descriptor (E : Env) (args : list string) (st : State) :
  fst (Darwin.Install E args st)
    = Returned (("Install " +:+ description (self st) +:+ ":") +:+ success, None) ->
  exists text,
    darwin_render (self (snd (Darwin.Install E args st))) args = Some text
    /\ fs (snd (Darwin.Install E args st)) !! Darwin.servicePath (self st)
       = Some (File text 420%N).
Proof.
  unfold Darwin.Install, os_Create, os_Stat, FileInfo_IsDir, darwin_render, descriptor.
  destruct (Template.Parse Darwin.propertyList) as [templ|] eqn:Hparse.
  2:{ destruct (checkPrivileges E) as [[|] perr]; cbn [negb fst snd] in *;
      peel; cbn [fst snd]; absurd_result. }
  destruct (checkPrivileges E) as [[|] perr]; cbn [negb fst snd] in *;
      peel; cbn [fst snd]; try absurd_result.
  all: try match goal with
           | H : snd (stat_entry _ (Some (File _ _))) = Some _ |- _ =>
               discriminate H
           | H : fs _ !! _ = Some (File _ _), H' : snd (stat_entry _ _) = Some _ |- _ =>
               cbn [fs set_self] in H; rewrite H in H'; discriminate H'
           end.
  all: match goal with
       | H : template_Execute _ _ _ _ = _ |- _ => written_descriptor H
       end.
  all: eexists; split; [|exact Hfile].
  all: rewrite Hs; cbn [mbind option_bind].
  all: match goal with
       | |- context [Template.run ?t ?d] =>
           destruct (Template.run t d) as [chunks ok]
       end; cbn [fst snd] in *; subst ok; reflexivity.
Qed.

Lemma bsd_Install_creates_after_checks (E : Env) (args : list string) (st : State)
    (p : string) :
  In (EvCreate p) (log (snd (Bsd.Install E args st))) ->
  ~ In (EvCreate p) (log st) ->
  fst (checkPrivileges E) = true
  /\ snd (stat_entry (Bsd.servicePath (self st))
            (fs st !! Bsd.servicePath (self st))) <> None
  /\ (String.eqb (execStartPath (self st)) "" = true ->
      snd (executablePath E (name (self st))) = None)
  /\ exists c m, fs st !! resolved_path E st = Some (File c m).
Proof.
  unfold Bsd.Install, os_Create, os_Stat, FileInfo_IsDir, resolved_path.
  generalize (Template.Parse Bsd.bsdConfig). intros parsed.
  destruct (checkPrivileges E) as [[|] perr]; cbn [negb fst snd] in *;
    peel; cbn [fst snd log fs self set_self emit set_fs] in *;
    intros Hin Hnot; try (exfalso; exact (Hnot Hin)).
  all: split; [reflexivity|]; split; [congruence|]; split; [congruence|].
  all: match goal with
       | H : stat_entry _ _ = (Some ?f, _), Hd : IsDir ?f = false |- _ =>
           cbn [execStartPath] in H; unfold stat_entry in H;
           match type of H with
           | context [fs ?s !! ?q] => destruct (fs s !! q) as [[c m| |?]|]
           end;
           [ eauto
           | injection H as <- _; discriminate Hd
           | discriminate H
           | discriminate H ]
       end.
Qed.

Lemma darwin_Install_creates_after_checks (E : Env) (args : list string) (st : State)
    (p : string) :
  In (EvCreate p) (log (snd (Darwin.Install E args st))) ->
  ~ In (EvCreate p) (log st) ->
  fst (checkPrivileges E) = true
  /\ snd (stat_entry (Darwin.servicePath (self st))
            (fs st !! Darwin.servicePath (self st))) <> None
  /\ (String.eqb (execStartPath (self st)) "" = true ->
      snd (executablePath E (name (self st))) = None)
  /\ exists c m, fs st !! resolved_path E st = Some (File c m).
Proof.
  unfold Darwin.Install, os_Create, os_Stat, FileInfo_IsDir, resolved_path.
  generalize (Template.Parse Darwin.propertyList). intros parsed.
  destruct (checkPrivileges E) as [[|] perr]; cbn [negb fst snd] in *;
    peel; cbn [fst snd log fs self set_self emit set_fs] in *;
    intros Hin Hnot; try (exfalso; exact (Hnot Hin)).
  all: split; [reflexivity|]; split; [congruence|]; split; [congruence|].
  all: match goal with
       | H : stat_entry _ _ = (Some ?f, _), Hd : IsDir ?f = false |- _ =>
           cbn [execStartPath] in H; unfold stat_entry in H;
           match type of H with
           | context [fs ?s !! ?q] => destruct (fs s !! q) as [[c m| |?]|]
           end;
           [ eauto
           | injection H as <- _; discriminate Hd
           | discriminate H
           | discriminate H ]
       end.
Qed.

(** ** The text of the descriptors *)

Lemma bsdConfig_parses : Template.Parse Bsd.bsdConfig = Some bsd_nodes.
Proof. vm_compute. reflexivity. Qed.

Lemma propertyList_parses : Template.Parse Darwin.propertyList = Some plist_nodes.
Proof. vm_compute. reflexivity. Qed.

Lemma range_body_is_run (d : Template.dot) (body : list Template.node) :
  (fix seq (ns : list Template.node) : list string * bool :=
     match ns with
     | [] => ([], true)
     | n' :: ns' =>
         let '(w1, ok1) := Template.run_node n' d in
         if ok1 then let '(w2, ok2) := seq ns' in (w1 ++ w2, ok2)
         else (w1, false)
     end) body = Template.run body d.
Proof.
  induction body as [|n body IH]; [reflexivity|].
  cbn [Template.run]. rewrite IH. reflexivity.
Qed.

Lemma range_over_args (body : list Template.node) (fields : list (string * Template.value))
    (args : list string) (chunk : string -> list string) :
  Template.field "Args" fields = Some (Template.VStrings args) ->
  (forall a, Template.run body (Template.DValue (Template.VString a)) = (chunk a, true)) ->
  Template.run_node (Template.Range (Template.PField "Args") body) (Template.DStruct fields)
  = (concat (map chunk args), true).
Proof.
  intros Hf Hbody. cbn [Template.run_node Template.eval]. rewrite Hf. clear Hf.
  induction args as [|a args IH]; [reflexivity|].
  cbn [map concat].
  rewrite range_body_is_run, Hbody, IH. reflexivity.
Qed.

Lemma cat_concat_entries (args : list string) (rest : list string) :
  cat (concat (map (fun a => ["<string>"; a; "</string>" +:+ nl +:+ tab +:+ tab]) args) ++ rest)
  = plist_entries args +:+ cat rest.
Proof.
  unfold plist_entries, cat.
  induction args as [|a args IH]; [reflexivity|].
  cbn [map concat fold_right app]. rewrite IH.
  rewrite !append_assoc. reflexivity.
Qed.

(** The rc.d script, piece by piece. *)
Lemma bsd_render_text (bsd : record) (args : list string) :
  exists t1 t2 t3 t4 t5 t6 t7 t8,
    bsd_render bsd args =
      Some (cat [t1; name bsd; t2; name bsd; t3; name bsd; t4; name bsd; t5;
                 name bsd; t6; execStartPath bsd; t7; strings_Join args " "; t8])
    /\ t4 = "_enable=" +:+ dq +:+ "YES" +:+ dq +:+ nl +:+ "#" +:+ nl +:+ nl +:+ nl
            +:+ ". /etc/rc.subr" +:+ nl +:+ nl +:+ "name=" +:+ dq
    /\ t5 = dq +:+ nl +:+ "rcvar=" +:+ dq
    /\ t6 = "_enable" +:+ dq +:+ nl +:+ "command=" +:+ dq
    /\ t7 = dq +:+ nl +:+ "pidfile=" +:+ dq +:+ "/var/run/$name.pid" +:+ dq +:+ nl +:+ nl
            +:+ "start_cmd=" +:+ dq +:+ "/usr/sbin/daemon -p $pidfile -f $command "
    /\ t8 = dq +:+ nl +:+ "load_rc_config $name" +:+ nl
            +:+ "run_rc_command " +:+ dq +:+ "$1" +:+ dq +:+ nl.
Proof.
  unfold bsd_render, descriptor. rewrite bsdConfig_parses.
  destruct bsd as [n d p deps]. unfold bsd_nodes.
  cbn [mbind option_bind]. simpl (Template.run _ _). cbv beta iota.
  do 8 eexists. split; [reflexivity|]. repeat split.
Qed.

(** The property list, piece by piece. *)
Lemma darwin_render_text (darwin : record) (args : list string) :
  exists t1 t2 t3 t4 t5 t6,
    darwin_render darwin args =
      Some (cat [t1; name darwin; t2; execStartPath darwin; t3;
                 plist_entries args; t4; name darwin; t5; name darwin; t6])
    /\ t2 = "</string>" +:+ nl +:+ tab +:+ "<key>ProgramArguments</key>" +:+ nl
            +:+ tab +:+ "<array>" +:+ nl +:+ tab +:+ "    <string>"
    /\ t3 = "</string>" +:+ nl +:+ tab +:+ tab
    /\ (exists rest, t4 = nl +:+ tab +:+ "</array>" +:+ rest)
    /\ (exists head, t1 = head +:+ "<string>").
Proof.
  unfold darwin_render, descriptor. rewrite propertyList_parses.
  destruct darwin as [n d p deps]. unfold plist_nodes.
  cbn [mbind option_bind Template.run]. unfold Darwin.plist_data.
  rewrite (range_over_args _ _ args
             (fun a => ["<string>"; a; "</string>" +:+ nl +:+ tab +:+ tab]));
    [|reflexivity|intros; reflexivity].
  simpl.
  change (cat (?a :: ?b :: ?c :: ?d :: ?e :: ?l))
    with (a +:+ b +:+ c +:+ d +:+ e +:+ cat l).
  rewrite cat_concat_entries.
  do 6 eexists. split; [reflexivity|]. repeat split; eexists.
  - reflexivity.
  - match goal with
    | |- ?t = _ => let u := eval vm_compute in (take (String.length t - 8) t) in
                   instantiate (1 := u)
    end.
    reflexivity.
Qed.

Lemma bsd_render_ignores_description (r : record) (d : string) (args : list string) :
  bsd_render (set_description d r) args = bsd_render r args.
Proof.
  unfold bsd_render, descriptor. rewrite bsdConfig_parses.
  destruct r as [n d0 p deps]. unfold bsd_nodes, set_description.
  cbn [mbind option_bind]. simpl (Template.run _ _). reflexivity.
Qed.

(** C9. For every record and every list of trailing arguments both
    descriptors render, and the text embeds the name, the execution path
    and the arguments as they are: on rc.d the arguments joined by single
    spaces close the start command line, on launchd the path is followed by
    one array entry per argument in the order given.  The description is
    not part of either text: changing it changes nothing. *)
Theorem descriptor_embeds_name_path_args (r : record) (args : list string) :
  (exists text,
      bsd_render r args = Some text
      /\ embeds text (cat ["name="; dq; name r; dq; nl])
      /\ embeds text (cat ["command="; dq; execStartPath r; dq; nl])
      /\ embeds text (cat ["start_cmd="; dq;
                           "/usr/sbin/daemon -p $pidfile -f $command ";
                           strings_Join args " "; dq; nl])
      /\ forall d, bsd_render (set_description d r) args = Some text)
  /\
  (exists text,
      darwin_render r args = Some text
      /\ embeds text (cat ["<string>"; name r; "</string>"])
      /\ embeds text (cat ["<array>"; nl; tab; "    <string>"; execStartPath r;
                           "</string>"; nl; tab; tab;
                           plist_entries args; nl; tab; "</array>"])
      /\ forall d, darwin_render (set_description d r) args = Some text).
Proof.
  split.
  - destruct (bsd_render_text r args)
      as (t1 & t2 & t3 & t4 & t5 & t6 & t7 & t8 & Hr & -> & -> & -> & -> & ->).
    eexists. split; [exact Hr|].
    split; [|split; [|split]];
      [ unfold cat at 1; cbn [fold_right]; find_embedded .. | ].
    intros d. now rewrite bsd_render_ignores_description.
  - destruct (darwin_render_text r args)
      as (t1 & t2 & t3 & t4 & t5 & t6 & Hr & -> & -> & (rest & ->) & (head & ->)).
    eexists. split; [exact Hr|].
    split; [|split];
      [ unfold cat at 1; cbn [fold_right]; rewrite ?append_assoc; find_embedded ..
      | ].
    intros d. rewrite <- Hr. destruct r; reflexivity.
Qed.

(** C9, the claim as written fails: the description "Zebra" occurs in
    neither descriptor of the record that carries it. *)
Lemma descriptor_omits_description :
  (exists text, bsd_render rec_zebra ["--a"] = Some text
                /\ ~ embeds text (description rec_zebra))
  /\ (exists text, darwin_render rec_zebra ["--a"] = Some text
                   /\ ~ embeds text (description rec_zebra)).
Proof.
  split; eexists; (split; [vm_compute; reflexivity|]);
    rewrite <- contains_spec; vm_compute; discriminate.
Qed.

(** * Further properties of the operations *)

(** ** The privilege guard comes first *)

(** X1. A caller the privilege guard refuses gets the guard's error at
    once from every operation of both variants, with the failure message
    (the empty message from [Status]); the state is left as it was: no
    file is touched and nothing is run. *)
Theorem unprivileged_call_changes_nothing
    (E : Env) (args : list string) (st : State)
    (Hpriv : fst (checkPrivileges E) = false) :
  let err := snd (checkPrivileges E) in
  let d := description (self st) in
  (Bsd.Install E args st = (Returned (("Install " +:+ d +:+ ":") +:+ failed, err), st)
   /\ Bsd.Remove E st = (Returned (("Removing " +:+ d +:+ ":") +:+ failed, err), st)
   /\ Bsd.Start E st = (Returned (("Starting " +:+ d +:+ ":") +:+ failed, err), st)
   /\ Bsd.Stop E st = (Returned (("Stopping " +:+ d +:+ ":") +:+ failed, err), st)
   /\ Bsd.Status E st = (Returned ("", err), st))
  /\
  (Darwin.Install E args st = (Returned (("Install " +:+ d +:+ ":") +:+ failed, err), st)
   /\ Darwin.Remove E st = (Returned (("Removing " +:+ d +:+ ":") +:+ failed, err), st)
   /\ Darwin.Start E st = (Returned (("Starting " +:+ d +:+ ":") +:+ failed, err), st)
   /\ Darwin.Stop E st = (Returned (("Stopping " +:+ d +:+ ":") +:+ failed, err), st)
   /\ Darwin.Status E st = (Returned ("", err), st)).
Proof.
  unfold Bsd.Install, Bsd.Remove, Bsd.Start, Bsd.Stop, Bsd.Status,
    Darwin.Install, Darwin.Remove, Darwin.Start, Darwin.Stop, Darwin.Status.
  destruct (checkPrivileges E) as [ok err]. simpl in Hpriv. subst ok.
  cbn [negb fst snd]. repeat split.
Qed.

Lemma unprivileged_call_changes_nothing_witness :
  Bsd.Remove env_user st_enabled
    = (Returned ("Removing d:failed", Some no_root), st_enabled)
  /\ Darwin.Status env_user st_enabled = (Returned ("", Some no_root), st_enabled).
Proof.
  pose proof (unprivileged_call_changes_nothing env_user [] st_enabled eq_refl)
    as [(_ & Hr & _) (_ & _ & _ & _ & Hs)].
  split; [exact Hr | exact Hs].
Defined.

(** ** A service that is not installed *)

(** X2. When the descriptor cannot be stat'ed, [Remove], [Start], [Stop]
    and [Status] of a privileged caller return the error of that [stat]
    ([Status] with the message "Status could not defined") and leave the
    state as it was: nothing is removed and no command is run. *)
Theorem not_installed_is_reported
    (E : Env) (st : State) (Hpriv : fst (checkPrivileges E) = true) :
  let d := description (self st) in
  (forall e,
     snd (stat_entry (Bsd.servicePath (self st))
            (fs st !! Bsd.servicePath (self st))) = Some e ->
     Bsd.Remove E st = (Returned (("Removing " +:+ d +:+ ":") +:+ failed, Some e), st)
     /\ Bsd.Start E st = (Returned (("Starting " +:+ d +:+ ":") +:+ failed, Some e), st)
     /\ Bsd.Stop E st = (Returned (("Stopping " +:+ d +:+ ":") +:+ failed, Some e), st)
     /\ Bsd.Status E st = (Returned ("Status could not defined", Some e), st))
  /\
  (forall e,
     snd (stat_entry (Darwin.servicePath (self st))
            (fs st !! Darwin.servicePath (self st))) = Some e ->
     Darwin.Remove E st = (Returned (("Removing " +:+ d +:+ ":") +:+ failed, Some e), st)
     /\ Darwin.Start E st = (Returned (("Starting " +:+ d +:+ ":") +:+ failed, Some e), st)
     /\ Darwin.Stop E st = (Returned (("Stopping " +:+ d +:+ ":") +:+ failed, Some e), st)
     /\ Darwin.Status E st = (Returned ("Status could not defined", Some e), st)).
Proof.
  destruct (checkPrivileges E) as [ok perr] eqn:Hp. simpl in Hpriv. subst ok.
  split; intros e He.
  - unfold Bsd.Remove, Bsd.Start, Bsd.Stop, Bsd.Status. rewrite Hp. cbn [negb].
    rewrite !bind_run. unfold get. cbv beta iota.
    rewrite !bind_run, bsd_IsInstalled_spec, He. cbn [negb]. repeat split.
  - unfold Darwin.Remove, Darwin.Start, Darwin.Stop, Darwin.Status. rewrite Hp.
    cbn [negb]. rewrite !bind_run. unfold get. cbv beta iota.
    rewrite !bind_run, darwin_IsInstalled_spec, He. cbn [negb]. repeat split.
Qed.

Lemma not_installed_is_reported_witness :
  Bsd.Start env_root st_fresh
    = (Returned ("Starting d:failed",
                 Some (PathError "stat" "/usr/local/etc/rc.d/x" ENOENT)), st_fresh)
  /\ Darwin.Status env_root st_fresh
    = (Returned ("Status could not defined",
                 Some (PathError "stat" "/Library/LaunchDaemons/x.plist" ENOENT)),
       st_fresh).
Proof.
  destruct (not_installed_is_reported env_root st_fresh eq_refl) as [Hb Hd].
  split.
  - apply (Hb (PathError "stat" "/usr/local/etc/rc.d/x" ENOENT)). reflexivity.
  - apply (Hd (PathError "stat" "/Library/LaunchDaemons/x.plist" ENOENT)). reflexivity.
Defined.

(** ** Remove *)

Lemma installed_entry (p : string) (e : option entry) :
  snd (stat_entry p e) = None ->
  (exists c m, e = Some (File c m)) \/ e = Some Dir.
Proof. destruct e as [[c m| |x]|]; simpl; try discriminate; eauto. Qed.

Lemma bsd_Remove_installed (E : Env) (st : State) :
  fst (checkPrivileges E) = true ->
  snd (stat_entry (Bsd.servicePath (self st))
         (fs st !! Bsd.servicePath (self st))) = None ->
  Bsd.Remove E st =
    match remove_fault E (Bsd.servicePath (self st)) with
    | Some e =>
        (Returned (("Removing " +:+ description (self st) +:+ ":") +:+ failed,
                   Some (PathError "remove" (Bsd.servicePath (self st)) e)), st)
    | None =>
        (Returned (("Removing " +:+ description (self st) +:+ ":") +:+ success, None),
         emit (EvRemove (Bsd.servicePath (self st)))
           (set_fs (delete (Bsd.servicePath (self st)) (fs st)) st))
    end.
Proof.
  intros Hpriv Hin.
  destruct (checkPrivileges E) as [ok perr] eqn:Hp. simpl in Hpriv. subst ok.
  unfold Bsd.Remove. rewrite Hp. cbn [negb].
  rewrite bind_run. unfold get at 1. cbv beta iota.
  rewrite bind_run, bsd_IsInstalled_spec, Hin. cbn [negb].
  unfold os_Remove. rewrite !bind_run. unfold get. cbv beta iota.
  destruct (remove_fault E _); [reflexivity|].
  destruct (installed_entry _ _ Hin) as [(c & m & ->) | ->]; reflexivity.
Qed.

Lemma darwin_Remove_installed (E : Env) (st : State) :
  fst (checkPrivileges E) = true ->
  snd (stat_entry (Darwin.servicePath (self st))
         (fs st !! Darwin.servicePath (self st))) = None ->
  Darwin.Remove E st =
    match remove_fault E (Darwin.servicePath (self st)) with
    | Some e =>
        (Returned (("Removing " +:+ description (self st) +:+ ":") +:+ failed,
                   Some (PathError "remove" (Darwin.servicePath (self st)) e)), st)
    | None =>
        (Returned (("Removing " +:+ description (self st) +:+ ":") +:+ success, None),
         emit (EvRemove (Darwin.servicePath (self st)))
           (set_fs (delete (Darwin.servicePath (self st)) (fs st)) st))
    end.
Proof.
  intros Hpriv Hin.
  destruct (checkPrivileges E) as [ok perr] eqn:Hp. simpl in Hpriv. subst ok.
  unfold Darwin.Remove. rewrite Hp. cbn [negb].
  rewrite bind_run. unfold get at 1. cbv beta iota.
  rewrite bind_run, darwin_IsInstalled_spec, Hin. cbn [negb].
  unfold os_Remove. rewrite !bind_run. unfold get. cbv beta iota.
  destruct (remove_fault E _); [reflexivity|].
  destruct (installed_entry _ _ Hin) as [(c & m & ->) | ->]; reflexivity.
Qed.

(** X3. [Remove] by a privileged caller on an installed service deletes the
    descriptor and nothing else: the file system afterwards is the old one
    without the descriptor path, and [IsInstalled] then answers false with
    a not-found error.  When [os.Remove] fails, its error is returned with
    the failure message and the state is as before. *)
Theorem Remove_deletes_the_descriptor
    (E : Env) (st : State) (Hpriv : fst (checkPrivileges E) = true) :
  let d := description (self st) in
  (let p := Bsd.servicePath (self st) in
   snd (stat_entry p (fs st !! p)) = None ->
   (remove_fault E p = None ->
    Bsd.Remove E st =
      (Returned (("Removing " +:+ d +:+ ":") +:+ success, None),
       emit (EvRemove p) (set_fs (delete p (fs st)) st))
    /\ fst (Bsd.IsInstalled (snd (Bsd.Remove E st)))
       = Returned (false, Some (PathError "stat" p ENOENT)))
   /\ (forall e, remove_fault E p = Some e ->
       Bsd.Remove E st =
         (Returned (("Removing " +:+ d +:+ ":") +:+ failed,
                    Some (PathError "remove" p e)), st)))
  /\
  (let p := Darwin.servicePath (self st) in
   snd (stat_entry p (fs st !! p)) = None ->
   (remove_fault E p = None ->
    Darwin.Remove E st =
      (Returned (("Removing " +:+ d +:+ ":") +:+ success, None),
       emit (EvRemove p) (set_fs (delete p (fs st)) st))
    /\ fst (Darwin.IsInstalled (snd (Darwin.Remove E st)))
       = Returned (false, Some (PathError "stat" p ENOENT)))
   /\ (forall e, remove_fault E p = Some e ->
       Darwin.Remove E st =
         (Returned (("Removing " +:+ d +:+ ":") +:+ failed,
                    Some (PathError "remove" p e)), st))).
Proof.
  cbv zeta. split; intros Hin.
  - pose proof (bsd_Remove_installed E st Hpriv Hin) as Hrm. split.
    + intros Hr. rewrite Hr in Hrm. rewrite Hrm. split; [reflexivity|].
      rewrite bsd_IsInstalled_spec. cbn [snd fst self fs emit set_fs].
      rewrite lookup_delete_eq. reflexivity.
    + intros e Hr. now rewrite Hr in Hrm.
  - pose proof (darwin_Remove_installed E st Hpriv Hin) as Hrm. split.
    + intros Hr. rewrite Hr in Hrm. rewrite Hrm. split; [reflexivity|].
      rewrite darwin_IsInstalled_spec. cbn [snd fst self fs emit set_fs].
      rewrite lookup_delete_eq. reflexivity.
    + intros e Hr. now rewrite Hr in Hrm.
Qed.

Lemma Remove_deletes_the_descriptor_witness :
  Bsd.Remove env_root st_installed =
    (Returned ("Removing d:completed successfully", None),
     emit (EvRemove "/usr/local/etc/rc.d/x")
       (set_fs (delete "/usr/local/etc/rc.d/x" (fs st_installed)) st_installed))
  /\ Darwin.Remove env_root st_installed =
    (Returned ("Removing d:completed successfully", None),
     emit (EvRemove "/Library/LaunchDaemons/x.plist")
       (set_fs (delete "/Library/LaunchDaemons/x.plist" (fs st_installed)) st_installed)).
Proof.
  destruct (Remove_deletes_the_descriptor env_root st_installed eq_refl) as [Hb Hd].
  split.
  - apply Hb; reflexivity.
  - apply Hd; reflexivity.
Defined.

(** ** Operations that only look and run *)

Ltac frame_proof :=
  unfold same_files;
  match goal with
  | |- context [checkPrivileges ?E] =>
      destruct (checkPrivileges E) as [[|] perr]; cbn [negb fst snd] in *
  end;
  peel; cbn [fst snd fs self space emit]; repeat split.

(** X4. [Start], [Stop] and [Status] of both variants never change a file,
    the record or the room on the file system themselves, whatever the
    environment answers and whether they return or not: they read the boot
    configuration and run commands, and all they add to the state are the
    events of doing so (what a command does once run is not part of the
    state). *)
Theorem start_stop_status_touch_no_file (E : Env) (st : State) :
  (same_files st (snd (Bsd.Start E st))
   /\ same_files st (snd (Bsd.Stop E st))
   /\ same_files st (snd (Bsd.Status E st)))
  /\
  (same_files st (snd (Darwin.Start E st))
   /\ same_files st (snd (Darwin.Stop E st))
   /\ same_files st (snd (Darwin.Status E st))).
Proof.
  split; (split; [|split]).
  - unfold Bsd.Start, exec_Run. frame_proof.
  - unfold Bsd.Stop, exec_Run. frame_proof.
  - unfold Bsd.Status. frame_proof.
  - unfold Darwin.Start, exec_Run. frame_proof.
  - unfold Darwin.Stop, exec_Run. frame_proof.
  - unfold Darwin.Status. frame_proof.
Qed.

(** ** What Install touches *)

Lemma file_Write_frame (f b : string) (st : State) :
  self (snd (file_Write f b st)) = self st
  /\ log (snd (file_Write f b st)) = log st
  /\ forall q, q <> f -> fs (snd (file_Write f b st)) !! q = fs st !! q.
Proof.
  unfold file_Write. rewrite bind_run. unfold get. cbv beta iota.
  destruct (fs st !! f) as [[c m| |e]|]; try (repeat split; reflexivity).
  destruct (space st) as [k|]; [destruct (String.length b <=? k)%nat|];
    rewrite bind_run; unfold modify, ret, mret, M_ret; cbv beta iota;
    cbn [snd self log fs set_fs set_space]; repeat split; intros q Hq;
    now rewrite lookup_insert_ne.
Qed.

Lemma write_all_frame (f : string) (chunks : list string) :
  forall st,
    self (snd (write_all f chunks st)) = self st
    /\ log (snd (write_all f chunks st)) = log st
    /\ forall q, q <> f -> fs (snd (write_all f chunks st)) !! q = fs st !! q.
Proof.
  induction chunks as [|b chunks IH]; intros st; [repeat split|].
  cbn [write_all]. rewrite bind_run.
  destruct (file_Write_frame f b st) as (Hs & Hl & Hf).
  destruct (file_Write f b st) as [[[e|]|w] st1]; cbn [snd] in *;
    try (repeat split; assumption).
  destruct (IH st1) as (Hs1 & Hl1 & Hf1).
  split; [congruence|]. split; [congruence|].
  intros q Hq. now rewrite Hf1, Hf.
Qed.

Lemma template_Execute_frame (templ : list Template.node) (f : string)
    (data : Template.dot) (st : State) :
  self (snd (template_Execute templ f data st)) = self st
  /\ log (snd (template_Execute templ f data st)) = log st
  /\ forall q, q <> f ->
       fs (snd (template_Execute templ f data st)) !! q = fs st !! q.
Proof.
  unfold template_Execute. destruct (Template.run templ data) as [chunks ok].
  rewrite bind_run. destruct (write_all_frame f chunks st) as (Hs & Hl & Hf).
  destruct (write_all f chunks st) as [[[e|]|w] st1]; cbn [snd] in *;
    repeat split; assumption.
Qed.

Ltac use_template_frame :=
  match goal with
  | H : template_Execute ?t ?f ?d ?s0 = (_, ?s) |- _ =>
      let Hs := fresh "Hs" in
      let Hl := fresh "Hl" in
      let Hf := fresh "Hf" in
      destruct (template_Execute_frame t f d s0) as (Hs & Hl & Hf);
      rewrite H in Hs, Hl, Hf; cbn [snd self log fs emit set_fs set_self] in Hs, Hl, Hf
  end.

Lemma bsd_Install_frame (E : Env) (args : list string) (st : State) :
  let st' := snd (Bsd.Install E args st) in
  name (self st') = name (self st)
  /\ description (self st') = description (self st)
  /\ dependencies (self st') = dependencies (self st)
  /\ (String.eqb (execStartPath (self st)) "" = false ->
      execStartPath (self st') = execStartPath (self st))
  /\ forall q, q <> Bsd.servicePath (self st) -> fs st' !! q = fs st !! q.
Proof.
  unfold Bsd.Install, os_Create, os_Chmod, os_Stat, FileInfo_IsDir.
  generalize (Template.Parse Bsd.bsdConfig). intros parsed.
  destruct (checkPrivileges E) as [[|] perr]; cbn [negb fst snd] in *;
    peel; try use_template_frame;
    cbn [fst snd fs self emit set_fs set_self] in *;
    try rewrite Hs;
    cbn [name description dependencies execStartPath] in *;
    (split; [congruence|]); (split; [congruence|]); (split; [congruence|]);
    (split; [congruence|]); intros q Hq;
    rewrite ?lookup_insert_ne by congruence;
    rewrite ?Hf by congruence;
    rewrite ?lookup_insert_ne by congruence; reflexivity.
Qed.

Lemma darwin_Install_frame (E : Env) (args : list string) (st : State) :
  let st' := snd (Darwin.Install E args st) in
  name (self st') = name (self st)
  /\ description (self st') = description (self st)
  /\ dependencies (self st') = dependencies (self st)
  /\ (String.eqb (execStartPath (self st)) "" = false ->
      execStartPath (self st') = execStartPath (self st))
  /\ forall q, q <> Darwin.servicePath (self st) -> fs st' !! q = fs st !! q.
Proof.
  unfold Darwin.Install, os_Create, os_Stat, FileInfo_IsDir.
  generalize (Template.Parse Darwin.propertyList). intros parsed.
  destruct (checkPrivileges E) as [[|] perr]; cbn [negb fst snd] in *;
    peel; try use_template_frame;
    cbn [fst snd fs self emit set_fs set_self] in *;
    try rewrite Hs;
    cbn [name description dependencies execStartPath] in *;
    (split; [congruence|]); (split; [congruence|]); (split; [congruence|]);
    (split; [congruence|]); intros q Hq;
    rewrite ?lookup_insert_ne by congruence;
    rewrite ?Hf by congruence;
    rewrite ?lookup_insert_ne by congruence; reflexivity.
Qed.

(** X5. Whatever [Install] does and however it ends, the only path of the
    file system it can change is the descriptor path, and of the record it
    keeps the name, the description and the dependencies; an execution
    path that was given is kept too (an empty one is replaced by what
    [executablePath] returns). *)
Theorem Install_touches_only_the_descriptor
    (E : Env) (args : list string) (st : State) :
  (let st' := snd (Bsd.Install E args st) in
   (forall q, q <> Bsd.servicePath (self st) -> fs st' !! q = fs st !! q)
   /\ name (self st') = name (self st)
   /\ description (self st') = description (self st)
   /\ dependencies (self st') = dependencies (self st)
   /\ (String.eqb (execStartPath (self st)) "" = false ->
       execStartPath (self st') = execStartPath (self st)))
  /\
  (let st' := snd (Darwin.Install E args st) in
   (forall q, q <> Darwin.servicePath (self st) -> fs st' !! q = fs st !! q)
   /\ name (self st') = name (self st)
   /\ description (self st') = description (self st)
   /\ dependencies (self st') = dependencies (self st)
   /\ (String.eqb (execStartPath (self st)) "" = false ->
       execStartPath (self st') = execStartPath (self st))).
Proof.
  split; cbv zeta.
  - destruct (bsd_Install_frame E args st) as (Hn & Hd & Hp & He & Hf). auto.
  - destruct (darwin_Install_frame E args st) as (Hn & Hd & Hp & He & Hf). auto.
Qed.

(** X6. When [Install] reports success, the descriptor path holds exactly
    the text rendered from the record (with the execution path as
    resolved) and the arguments, on rc.d with mode 0755; [IsInstalled]
    then answers true. *)
Theorem Install_success_writes_the_descriptor
    (E : Env) (args : list string) (st : State) :
  (fst (Bsd.Install E args st)
     = Returned (("Install " +:+ description (self st) +:+ ":") +:+ success, None) ->
   let st' := snd (Bsd.Install E args st) in
   exists text,
     bsd_render (self st') args = Some text
     /\ fs st' !! Bsd.servicePath (self st) = Some (File text 493%N)
     /\ fst (Bsd.IsInstalled st') = Returned (true, None))
  /\
  (fst (Darwin.Install E args st)
     = Returned (("Install " +:+ description (self st) +:+ ":") +:+ success, None) ->
   let st' := snd (Darwin.Install E args st) in
   exists text mode,
     darwin_render (self st') args = Some text
     /\ fs st' !! Darwin.servicePath (self st) = Some (File text mode)
     /\ fst (Darwin.IsInstalled st') = Returned (true, None)).
Proof.
  split; intros Hok; cbv zeta.
  - destruct (bsd_Install_writes_descriptor E args st Hok) as (text & Hr & Hf).
    exists text. split; [exact Hr|]. split; [exact Hf|].
    rewrite bsd_IsInstalled_spec. unfold Bsd.servicePath in *.
    destruct (bsd_Install_frame E args st) as (Hn & _). cbv zeta in Hn.
    rewrite Hn, Hf. reflexivity.
  - destruct (darwin_Install_writes_descriptor E args st Hok) as (text & Hr & Hf).
    exists text, 420%N. split; [exact Hr|]. split; [exact Hf|].
    rewrite darwin_IsInstalled_spec. unfold Darwin.servicePath in *.
    destruct (darwin_Install_frame E args st) as (Hn & _). cbv zeta in Hn.
    rewrite Hn, Hf. reflexivity.
Qed.

Lemma Install_success_writes_the_descriptor_witness :
  (exists text,
      bsd_render (self (snd (Bsd.Install env_root ["--a"] st_fresh))) ["--a"] = Some text
      /\ fs (snd (Bsd.Install env_root ["--a"] st_fresh)) !! Bsd.servicePath (self st_fresh)
         = Some (File text 493%N)
      /\ fst (Bsd.IsInstalled (snd (Bsd.Install env_root ["--a"] st_fresh)))
         = Returned (true, None))
  /\
  (exists text mode,
      darwin_render (self (snd (Darwin.Install env_root ["--a"] st_fresh))) ["--a"]
        = Some text
      /\ fs (snd (Darwin.Install env_root ["--a"] st_fresh))
           !! Darwin.servicePath (self st_fresh)
         = Some (File text mode)
      /\ fst (Darwin.IsInstalled (snd (Darwin.Install env_root ["--a"] st_fresh)))
         = Returned (true, None)).
Proof.
  destruct (Install_success_writes_the_descriptor env_root ["--a"] st_fresh)
    as [Hb Hd].
  split.
  - apply Hb. vm_compute. reflexivity.
  - apply Hd. vm_compute. reflexivity.
Defined.

(** X7. [Install] creates the descriptor file only after its three checks:
    if the call creates a file, then the caller is privileged, the [stat]
    of the descriptor path had failed (the service was not installed), an
    empty execution path was resolved without error, and the execution
    path is an existing file that is no directory. *)
Theorem Install_creates_after_its_checks
    (E : Env) (args : list string) (st : State) (p : string)
    (Hnew : ~ In (EvCreate p) (log st)) :
  (In (EvCreate p) (log (snd (Bsd.Install E args st))) ->
   fst (checkPrivileges E) = true
   /\ snd (stat_entry (Bsd.servicePath (self st))
             (fs st !! Bsd.servicePath (self st))) <> None
   /\ (String.eqb (execStartPath (self st)) "" = true ->
       snd (executablePath E (name (self st))) = None)
   /\ exists c m, fs st !! resolved_path E st = Some (File c m))
  /\
  (In (EvCreate p) (log (snd (Darwin.Install E args st))) ->
   fst (checkPrivileges E) = true
   /\ snd (stat_entry (Darwin.servicePath (self st))
             (fs st !! Darwin.servicePath (self st))) <> None
   /\ (String.eqb (execStartPath (self st)) "" = true ->
       snd (executablePath E (name (self st))) = None)
   /\ exists c m, fs st !! resolved_path E st = Some (File c m)).
Proof.
  split; intros Hin.
  - exact (bsd_Install_creates_after_checks E args st p Hin Hnew).
  - exact (darwin_Install_creates_after_checks E args st p Hin Hnew).
Qed.

Lemma Install_creates_after_its_checks_witness :
  In (EvCreate "/usr/local/etc/rc.d/x") (log (snd (Bsd.Install env_root [] st_fresh)))
  /\ fst (checkPrivileges env_root) = true
  /\ exists c m, fs st_fresh !! resolved_path env_root st_fresh = Some (File c m).
Proof.
  assert (Hin : In (EvCreate "/usr/local/etc/rc.d/x")
                  (log (snd (Bsd.Install env_root [] st_fresh))))
    by (vm_compute; auto).
  split; [exact Hin|].
  destruct (Install_creates_after_its_checks env_root [] st_fresh
              "/usr/local/etc/rc.d/x" (fun H : In _ [] => H)) as [Hb _].
  destruct (Hb Hin) as (Hp & _ & _ & Hf). split; assumption.
Defined.

(** ** Install, then Remove *)

Lemma bsd_Install_success_needs (E : Env) (args : list string) (st : State) :
  fst (Bsd.Install E args st)
    = Returned (("Install " +:+ description (self st) +:+ ":") +:+ success, None) ->
  fst (checkPrivileges E) = true
  /\ fs st !! Bsd.servicePath (self st) = None.
Proof.
  unfold Bsd.Install, os_Create, os_Stat, FileInfo_IsDir.
  generalize (Template.Parse Bsd.bsdConfig). intros parsed.
  destruct (checkPrivileges E) as [[|] perr]; cbn [negb fst snd] in *;
    peel; cbn [fst snd]; try absurd_result.
  all: intros _; split; [reflexivity|].
  all: cbn [fs set_self] in *; try assumption; try reflexivity.
  all: match goal with
       | H : snd (stat_entry _ (Some (File _ _))) = Some _ |- _ => discriminate H
       | H : fs _ !! _ = Some (File _ _), H' : snd (stat_entry _ _) = Some _ |- _ =>
           rewrite H in H'; discriminate H'
       end.
Qed.

Lemma darwin_Install_success_needs (E : Env) (args : list string) (st : State) :
  fst (Darwin.Install E args st)
    = Returned (("Install " +:+ description (self st) +:+ ":") +:+ success, None) ->
  fst (checkPrivileges E) = true
  /\ fs st !! Darwin.servicePath (self st) = None.
Proof.
  unfold Darwin.Install, os_Create, os_Stat, FileInfo_IsDir.
  generalize (Template.Parse Darwin.propertyList). intros parsed.
  destruct (checkPrivileges E) as [[|] perr]; cbn [negb fst snd] in *;
    peel; cbn [fst snd]; try absurd_result.
  all: intros _; split; [reflexivity|].
  all: cbn [fs set_self] in *; try assumption; try reflexivity.
  all: match goal with
       | H : snd (stat_entry _ (Some (File _ _))) = Some _ |- _ => discriminate H
       | H : fs _ !! _ = Some (File _ _), H' : snd (stat_entry _ _) = Some _ |- _ =>
           rewrite H in H'; discriminate H'
       end.
Qed.

(** X8. A successful [Install] followed by [Remove] (with [os.Remove] not
    failing) succeeds and gives back the file system [Install] started
    from: the descriptor is gone and no other path has changed. *)
Theorem Install_then_Remove_restores_the_files
    (E : Env) (args : list string) (st : State) :
  (fst (Bsd.Install E args st)
     = Returned (("Install " +:+ description (self st) +:+ ":") +:+ success, None) ->
   remove_fault E (Bsd.servicePath (self st)) = None ->
   let st1 := snd (Bsd.Install E args st) in
   fst (Bsd.Remove E st1)
     = Returned (("Removing " +:+ description (self st) +:+ ":") +:+ success, None)
   /\ fs (snd (Bsd.Remove E st1)) = fs st)
  /\
  (fst (Darwin.Install E args st)
     = Returned (("Install " +:+ description (self st) +:+ ":") +:+ success, None) ->
   remove_fault E (Darwin.servicePath (self st)) = None ->
   let st1 := snd (Darwin.Install E args st) in
   fst (Darwin.Remove E st1)
     = Returned (("Removing " +:+ description (self st) +:+ ":") +:+ success, None)
   /\ fs (snd (Darwin.Remove E st1)) = fs st).
Proof.
  split; intros Hok Hrm; cbv zeta.
  - destruct (bsd_Install_success_needs E args st Hok) as [Hpriv Hnone].
    destruct (bsd_Install_writes_descriptor E args st Hok) as (text & _ & Hfile).
    destruct (bsd_Install_frame E args st) as (Hn & Hd & _ & _ & Hother).
    cbv zeta in *.
    assert (Hp : Bsd.servicePath (self (snd (Bsd.Install E args st)))
                 = Bsd.servicePath (self st))
      by (unfold Bsd.servicePath; now rewrite Hn).
    rewrite (bsd_Remove_installed E _ Hpriv); rewrite Hp.
    2:{ now rewrite Hfile. }
    rewrite Hrm, Hd. split; [reflexivity|].
    cbn [snd fs emit set_fs]. apply map_eq. intros q.
    destruct (decide (q = Bsd.servicePath (self st))) as [->|Hq].
    + now rewrite lookup_delete_eq.
    + rewrite lookup_delete_ne by congruence. now apply Hother.
  - destruct (darwin_Install_success_needs E args st Hok) as [Hpriv Hnone].
    destruct (darwin_Install_writes_descriptor E args st Hok) as (text & _ & Hfile).
    destruct (darwin_Install_frame E args st) as (Hn & Hd & _ & _ & Hother).
    cbv zeta in *.
    assert (Hp : Darwin.servicePath (self (snd (Darwin.Install E args st)))
                 = Darwin.servicePath (self st))
      by (unfold Darwin.servicePath; now rewrite Hn).
    rewrite (darwin_Remove_installed E _ Hpriv); rewrite Hp.
    2:{ now rewrite Hfile. }
    rewrite Hrm, Hd. split; [reflexivity|].
    cbn [snd fs emit set_fs]. apply map_eq. intros q.
    destruct (decide (q = Darwin.servicePath (self st))) as [->|Hq].
    + now rewrite lookup_delete_eq.
    + rewrite lookup_delete_ne by congruence. now apply Hother.
Qed.

Lemma Install_then_Remove_restores_the_files_witness :
  fs (snd (Bsd.Remove env_root (snd (Bsd.Install env_root ["--a"] st_fresh))))
    = fs st_fresh
  /\ fs (snd (Darwin.Remove env_root (snd (Darwin.Install env_root ["--a"] st_fresh))))
    = fs st_fresh.
Proof.
  destruct (Install_then_Remove_restores_the_files env_root ["--a"] st_fresh)
    as [Hb Hd].
  split.
  - apply Hb; vm_compute; reflexivity.
  - apply Hd; vm_compute; reflexivity.
Defined.

(** ** Start and Stop once the guards have passed *)

Lemma bsd_second_getCmd (E : Env) (st : State) (cmd : string) (r : bool * option error) :
  fst (Bsd.isEnabled E st) = Returned r ->
  Bsd.getCmd E cmd (emit (service_call E st "status") (emit (EvOpen rc_conf) st))
  = (Returned (verb_for E st cmd),
     emit (EvOpen rc_conf)
       (emit (service_call E st "status") (emit (EvOpen rc_conf) st))).
Proof.
  intros Hen. rewrite getCmd_run.
  rewrite (isEnabled_frame E st) by reflexivity. rewrite Hen.
  unfold verb_for. now rewrite (autostart_frame E st) by reflexivity.
Qed.

Lemma bsd_Start_stopped (E : Env) (st : State) (msg : string)
    (Hpriv : fst (checkPrivileges E) = true) :
  snd (stat_entry (Bsd.servicePath (self st))
         (fs st !! Bsd.servicePath (self st))) = None ->
  fst (Bsd.checkRunning E st) = Returned (msg, false) ->
  Bsd.Start E st =
    (Returned (reported ("Starting " +:+ description (self st) +:+ ":")
                 (snd (command E ["service"; name (self st); verb_for E st "start"]))),
     emit (service_call E st "start")
       (emit (EvOpen rc_conf)
          (emit (service_call E st "status") (emit (EvOpen rc_conf) st)))).
Proof.
  destruct (checkPrivileges E) as [ok perr] eqn:Hp. simpl in Hpriv. subst ok.
  intros Hstat Hrun.
  unfold Bsd.Start. rewrite Hp. cbn [negb].
  rewrite bind_run. unfold get at 1. cbv beta iota.
  rewrite bind_run, bsd_IsInstalled_spec, Hstat. cbn [negb].
  rewrite bind_run. rewrite bsd_checkRunning_eq in Hrun |- *.
  destruct (fst (Bsd.isEnabled E st)) as [r|w] eqn:Hen; [|discriminate].
  simpl in Hrun. injection Hrun as Hrun. rewrite Hrun.
  rewrite bind_run, (bsd_second_getCmd E st "start" r Hen).
  unfold exec_Run, service_call, reported. run_monad.
  now destruct (snd (command E _)).
Qed.

Lemma bsd_Stop_running (E : Env) (st : State) (msg : string)
    (Hpriv : fst (checkPrivileges E) = true) :
  snd (stat_entry (Bsd.servicePath (self st))
         (fs st !! Bsd.servicePath (self st))) = None ->
  fst (Bsd.checkRunning E st) = Returned (msg, true) ->
  Bsd.Stop E st =
    (Returned (reported ("Stopping " +:+ description (self st) +:+ ":")
                 (snd (command E ["service"; name (self st); verb_for E st "stop"]))),
     emit (service_call E st "stop")
       (emit (EvOpen rc_conf)
          (emit (service_call E st "status") (emit (EvOpen rc_conf) st)))).
Proof.
  destruct (checkPrivileges E) as [ok perr] eqn:Hp. simpl in Hpriv. subst ok.
  intros Hstat Hrun.
  unfold Bsd.Stop. rewrite Hp. cbn [negb].
  rewrite bind_run. unfold get at 1. cbv beta iota.
  rewrite bind_run, bsd_IsInstalled_spec, Hstat. cbn [negb].
  rewrite bind_run. rewrite bsd_checkRunning_eq in Hrun |- *.
  destruct (fst (Bsd.isEnabled E st)) as [r|w] eqn:Hen; [|discriminate].
  simpl in Hrun. injection Hrun as Hrun. rewrite Hrun. cbn [negb].
  rewrite bind_run, (bsd_second_getCmd E st "stop" r Hen).
  unfold exec_Run, service_call, reported. run_monad.
  now destruct (snd (command E _)).
Qed.

Lemma darwin_Start_stopped (E : Env) (st : State) (msg : string)
    (Hpriv : fst (checkPrivileges E) = true) :
  snd (stat_entry (Darwin.servicePath (self st))
         (fs st !! Darwin.servicePath (self st))) = None ->
  fst (Darwin.checkRunning E st) = Returned (msg, false) ->
  Darwin.Start E st =
    (Returned (reported ("Starting " +:+ description (self st) +:+ ":")
                 (snd (command E ["launchctl"; "load"; Darwin.servicePath (self st)]))),
     emit (EvExec ["launchctl"; "load"; Darwin.servicePath (self st)])
       (emit (EvExec ["launchctl"; "list"; name (self st)]) st)).
Proof.
  destruct (checkPrivileges E) as [ok perr] eqn:Hp. simpl in Hpriv. subst ok.
  intros Hstat Hrun.
  unfold Darwin.Start. rewrite Hp. cbn [negb].
  rewrite bind_run. unfold get at 1. cbv beta iota.
  rewrite bind_run, darwin_IsInstalled_spec, Hstat. cbn [negb].
  rewrite bind_run. rewrite darwin_checkRunning_eq in Hrun |- *.
  simpl in Hrun. injection Hrun as Hrun. rewrite Hrun. cbn [negb].
  unfold exec_Run, reported. run_monad.
  now destruct (snd (command E _)).
Qed.

Lemma darwin_Stop_running (E : Env) (st : State) (msg : string)
    (Hpriv : fst (checkPrivileges E) = true) :
  snd (stat_entry (Darwin.servicePath (self st))
         (fs st !! Darwin.servicePath (self st))) = None ->
  fst (Darwin.checkRunning E st) = Returned (msg, true) ->
  Darwin.Stop E st =
    (Returned (reported ("Stopping " +:+ description (self st) +:+ ":")
                 (snd (command E ["launchctl"; "unload"; Darwin.servicePath (self st)]))),
     emit (EvExec ["launchctl"; "unload"; Darwin.servicePath (self st)])
       (emit (EvExec ["launchctl"; "list"; name (self st)]) st)).
Proof.
  destruct (checkPrivileges E) as [ok perr] eqn:Hp. simpl in Hpriv. subst ok.
  intros Hstat Hrun.
  unfold Darwin.Stop. rewrite Hp. cbn [negb].
  rewrite bind_run. unfold get at 1. cbv beta iota.
  rewrite bind_run, darwin_IsInstalled_spec, Hstat. cbn [negb].
  rewrite bind_run. rewrite darwin_checkRunning_eq in Hrun |- *.
  simpl in Hrun. injection Hrun as Hrun. rewrite Hrun. cbn [negb].
  unfold exec_Run, reported. run_monad.
  now destruct (snd (command E _)).
Qed.

(** X9. When the caller is privileged, the descriptor is there and the
    probe answers stopped, [Stop] returns the failure message with
    [ErrAlreadyStopped] and runs no stop command: the state it leaves is
    the one the probe left. *)
Theorem Stop_stopped_is_refused (E : Env) (st : State) (msg : string)
    (Hpriv : fst (checkPrivileges E) = true) :
  (snd (stat_entry (Bsd.servicePath (self st))
          (fs st !! Bsd.servicePath (self st))) = None ->
   fst (Bsd.checkRunning E st) = Returned (msg, false) ->
   Bsd.Stop E st =
     (Returned (("Stopping " +:+ description (self st) +:+ ":") +:+ failed,
                Some ErrAlreadyStopped),
      snd (Bsd.checkRunning E st)))
  /\
  (snd (stat_entry (Darwin.servicePath (self st))
          (fs st !! Darwin.servicePath (self st))) = None ->
   fst (Darwin.checkRunning E st) = Returned (msg, false) ->
   Darwin.Stop E st =
     (Returned (("Stopping " +:+ description (self st) +:+ ":") +:+ failed,
                Some ErrAlreadyStopped),
      snd (Darwin.checkRunning E st))).
Proof.
  destruct (checkPrivileges E) as [ok perr] eqn:Hp. simpl in Hpriv. subst ok.
  split; intros Hstat Hrun.
  - unfold Bsd.Stop. rewrite Hp. cbn [negb].
    rewrite bind_run. unfold get at 1. cbv beta iota.
    rewrite bind_run, bsd_IsInstalled_spec, Hstat. cbn [negb].
    rewrite bind_run.
    destruct (Bsd.checkRunning E st) as [o st1]. simpl in Hrun. subst o.
    reflexivity.
  - unfold Darwin.Stop. rewrite Hp. cbn [negb].
    rewrite bind_run. unfold get at 1. cbv beta iota.
    rewrite bind_run, darwin_IsInstalled_spec, Hstat. cbn [negb].
    rewrite bind_run.
    destruct (Darwin.checkRunning E st) as [o st1]. simpl in Hrun. subst o.
    reflexivity.
Qed.

Lemma Stop_stopped_is_refused_witness :
  Bsd.Stop env_root st_installed =
    (Returned ("Stopping d:failed", Some ErrAlreadyStopped),
     emit (EvExec ["service"; "x"; "onestatus"]) (emit (EvOpen rc_conf) st_installed))
  /\ Darwin.Stop env_root st_installed =
    (Returned ("Stopping d:failed", Some ErrAlreadyStopped),
     emit (EvExec ["launchctl"; "list"; "x"]) st_installed).
Proof.
  destruct (Stop_stopped_is_refused env_root st_installed
              "Service is stopped" eq_refl) as [Hb Hd].
  split.
  - apply Hb; vm_compute; reflexivity.
  - apply Hd; vm_compute; reflexivity.
Defined.

(** X10. [Start] on an installed service that the probe finds stopped runs
    exactly one more command, after the probe: [service <name> <verb>]
    with the verb chosen by a second enablement check on rc.d,
    [launchctl load <descriptor path>] on launchd.  The error of that
    command is returned as it is with the failure message, and no error
    gives the success message. *)
Theorem Start_runs_the_start_command (E : Env) (st : State) (msg : string)
    (Hpriv : fst (checkPrivileges E) = true) :
  (snd (stat_entry (Bsd.servicePath (self st))
          (fs st !! Bsd.servicePath (self st))) = None ->
   fst (Bsd.checkRunning E st) = Returned (msg, false) ->
   Bsd.Start E st =
     (Returned (reported ("Starting " +:+ description (self st) +:+ ":")
                  (snd (command E ["service"; name (self st); verb_for E st "start"]))),
      emit (EvExec ["service"; name (self st); verb_for E st "start"])
        (emit (EvOpen rc_conf) (snd (Bsd.checkRunning E st)))))
  /\
  (snd (stat_entry (Darwin.servicePath (self st))
          (fs st !! Darwin.servicePath (self st))) = None ->
   fst (Darwin.checkRunning E st) = Returned (msg, false) ->
   Darwin.Start E st =
     (Returned (reported ("Starting " +:+ description (self st) +:+ ":")
                  (snd (command E ["launchctl"; "load"; Darwin.servicePath (self st)]))),
      emit (EvExec ["launchctl"; "load"; Darwin.servicePath (self st)])
        (snd (Darwin.checkRunning E st)))).
Proof.
  split; intros Hstat Hrun.
  - rewrite (bsd_Start_stopped E st msg Hpriv Hstat Hrun).
    rewrite bsd_checkRunning_eq in Hrun |- *.
    destruct (fst (Bsd.isEnabled E st)); [reflexivity | discriminate].
  - rewrite (darwin_Start_stopped E st msg Hpriv Hstat Hrun).
    now rewrite darwin_checkRunning_eq.
Qed.

Lemma Start_runs_the_start_command_witness :
  Bsd.Start env_root st_installed =
    (Returned ("Starting d:completed successfully", None),
     emit (EvExec ["service"; "x"; "onestart"])
       (emit (EvOpen rc_conf)
          (emit (EvExec ["service"; "x"; "onestatus"])
             (emit (EvOpen rc_conf) st_installed))))
  /\ Darwin.Start env_root st_installed =
    (Returned ("Starting d:completed successfully", None),
     emit (EvExec ["launchctl"; "load"; "/Library/LaunchDaemons/x.plist"])
       (emit (EvExec ["launchctl"; "list"; "x"]) st_installed)).
Proof.
  destruct (Start_runs_the_start_command env_root st_installed
              "Service is stopped" eq_refl) as [Hb Hd].
  split.
  - rewrite Hb; vm_compute; reflexivity.
  - rewrite Hd; vm_compute; reflexivity.
Defined.

(** X11. [Stop] on an installed service that the probe finds running runs
    exactly one more command, after the probe: [service <name> <verb>]
    with the verb chosen by a second enablement check on rc.d,
    [launchctl unload <descriptor path>] on launchd.  The error of that
    command is returned as it is with the failure message, and no error
    gives the success message. *)
Theorem Stop_runs_the_stop_command (E : Env) (st : State) (msg : string)
    (Hpriv : fst (checkPrivileges E) = true) :
  (snd (stat_entry (Bsd.servicePath (self st))
          (fs st !! Bsd.servicePath (self st))) = None ->
   fst (Bsd.checkRunning E st) = Returned (msg, true) ->
   Bsd.Stop E st =
     (Returned (reported ("Stopping " +:+ description (self st) +:+ ":")
                  (snd (command E ["service"; name (self st); verb_for E st "stop"]))),
      emit (EvExec ["service"; name (self st); verb_for E st "stop"])
        (emit (EvOpen rc_conf) (snd (Bsd.checkRunning E st)))))
  /\
  (snd (stat_entry (Darwin.servicePath (self st))
          (fs st !! Darwin.servicePath (self st))) = None ->
   fst (Darwin.checkRunning E st) = Returned (msg, true) ->
   Darwin.Stop E st =
     (Returned (reported ("Stopping " +:+ description (self st) +:+ ":")
                  (snd (command E ["launchctl"; "unload"; Darwin.servicePath (self st)]))),
      emit (EvExec ["launchctl"; "unload"; Darwin.servicePath (self st)])
        (snd (Darwin.checkRunning E st)))).
Proof.
  split; intros Hstat Hrun.
  - rewrite (bsd_Stop_running E st msg Hpriv Hstat Hrun).
    rewrite bsd_checkRunning_eq in Hrun |- *.
    destruct (fst (Bsd.isEnabled E st)); [reflexivity | discriminate].
  - rewrite (darwin_Stop_running E st msg Hpriv Hstat Hrun).
    now rewrite darwin_checkRunning_eq.
Qed.

Lemma Stop_runs_the_stop_command_witness :
  Bsd.Stop env_running st_enabled =
    (Returned ("Stopping d:completed successfully", None),
     emit (EvExec ["service"; "x"; "stop"])
       (emit (EvOpen rc_conf)
          (emit (EvExec ["service"; "x"; "status"])
             (emit (EvOpen rc_conf) st_enabled))))
  /\ Darwin.Stop env_running st_enabled =
    (Returned ("Stopping d:completed successfully", None),
     emit (EvExec ["launchctl"; "unload"; "/Library/LaunchDaemons/x.plist"])
       (emit (EvExec ["launchctl"; "list"; "x"]) st_enabled)).
Proof.
  destruct (Stop_runs_the_stop_command env_running st_enabled
              "Service (pid  42) is running..." eq_refl) as [Hb Hd].
  split.
  - rewrite Hb; vm_compute; reflexivity.
  - rewrite Hd; vm_compute; reflexivity.
Defined.

(** ** What can panic *)

Lemma isEnabled_panics_iff (E : Env) (st : State) :
  (exists w, fst (Bsd.isEnabled E st) = Panicked w)
  <-> (fst (open_entry rc_conf (fs st !! rc_conf)) <> None
       /\ Regexp.Compile (oracle E) (Bsd.enable_pattern (self st)) = None).
Proof.
  unfold Bsd.isEnabled, os_Open, ioutil_ReadAll, rc_conf.
  rewrite !bind_run. unfold get, modify, ret, mret, M_ret. cbv beta iota.
  rewrite !bind_run. cbv beta iota. cbn [fs emit].
  destruct (fs st !! "/etc/rc.conf") as [[c m| |e]|]; cbn [open_entry fst snd].
  - rewrite !bind_run. cbv beta iota.
    destruct (Regexp.Compile _ _) as [re|].
    + destruct (read_entry _ _) as [rcData rerr].
      destruct (Bsd.scan _ false false). split.
      * intros [w Hw]. discriminate Hw.
      * intros [_ H]. discriminate H.
    + destruct (read_entry _ _) as [rcData rerr].
      split; [intros _; split; [discriminate|reflexivity]|].
      intros _. eexists. reflexivity.
  - rewrite !bind_run. cbv beta iota.
    destruct (Regexp.Compile _ _) as [re|].
    + destruct (read_entry _ _) as [rcData rerr].
      destruct (Bsd.scan _ false false). split.
      * intros [w Hw]. discriminate Hw.
      * intros [_ H]. discriminate H.
    + destruct (read_entry _ _) as [rcData rerr].
      split; [intros _; split; [discriminate|reflexivity]|].
      intros _. eexists. reflexivity.
  - split; [intros [w Hw]; discriminate Hw | intros [H _]; now elim H].
  - split; [intros [w Hw]; discriminate Hw | intros [H _]; now elim H].
Qed.

Ltac rc_panic E st :=
  let Hp := fresh "Hp" in
  let Hs := fresh "Hs" in
  let Hen := fresh "Hen" in
  destruct (checkPrivileges E) as [[|] perr] eqn:Hp; cbn [negb fst];
  [|split; [intros H; discriminate H | intros (H & _); discriminate H]];
  rewrite ?bind_run; unfold get at 1; cbv beta iota;
  rewrite ?bind_run, bsd_IsInstalled_spec;
  destruct (snd (stat_entry _ _)) eqn:Hs; cbn [negb];
  [split; [intros H; discriminate H | intros (_ & H & _); discriminate H]|];
  rewrite bind_run, bsd_checkRunning_eq;
  destruct (fst (Bsd.isEnabled E st)) as [r|w'] eqn:Hen;
  [|split; [intros [= ->]; auto | intros (_ & _ & [= ->]); reflexivity]];
  destruct (verdict _ _ _ _) as [msg [|]]; cbn [negb];
  try (rewrite bind_run, (bsd_second_getCmd E st _ r Hen);
       unfold exec_Run; rewrite !bind_run; unfold modify at 1; cbv beta iota;
       unfold ret at 1, mret, M_ret; destruct (snd (command E _)));
  (split; [intros H; discriminate H | intros (_ & _ & H); discriminate H]).

Lemma bsd_Start_panics (E : Env) (st : State) (w : string) :
  fst (Bsd.Start E st) = Panicked w
  <-> fst (checkPrivileges E) = true
      /\ snd (stat_entry (Bsd.servicePath (self st))
                (fs st !! Bsd.servicePath (self st))) = None
      /\ fst (Bsd.isEnabled E st) = Panicked w.
Proof. unfold Bsd.Start. rc_panic E st. Qed.

Lemma bsd_Stop_panics (E : Env) (st : State) (w : string) :
  fst (Bsd.Stop E st) = Panicked w
  <-> fst (checkPrivileges E) = true
      /\ snd (stat_entry (Bsd.servicePath (self st))
                (fs st !! Bsd.servicePath (self st))) = None
      /\ fst (Bsd.isEnabled E st) = Panicked w.
Proof. unfold Bsd.Stop. rc_panic E st. Qed.

Lemma bsd_Status_panics (E : Env) (st : State) (w : string) :
  fst (Bsd.Status E st) = Panicked w
  <-> fst (checkPrivileges E) = true
      /\ snd (stat_entry (Bsd.servicePath (self st))
                (fs st !! Bsd.servicePath (self st))) = None
      /\ fst (Bsd.isEnabled E st) = Panicked w.
Proof.
  unfold Bsd.Status.
  destruct (checkPrivileges E) as [[|] perr] eqn:Hp; cbn [negb fst];
    [|split; [intros H; discriminate H | intros (H & _); discriminate H]].
  rewrite bind_run, bsd_IsInstalled_spec.
  destruct (snd (stat_entry _ _)) eqn:Hs; cbn [negb];
    [split; [intros H; discriminate H | intros (_ & H & _); discriminate H]|].
  rewrite bind_run, bsd_checkRunning_eq.
  destruct (fst (Bsd.isEnabled E st)) as [r|w'] eqn:Hen;
    [|split; [intros [= ->]; auto | intros (_ & _ & [= ->]); reflexivity]].
  destruct (verdict _ _ _ _) as [msg b].
  split; [intros H; discriminate H | intros (_ & _ & H); discriminate H].
Qed.

(** X12. On rc.d, [Start], [Stop] and [Status] panic in exactly one
    situation: the caller is privileged, the descriptor is there, the boot
    configuration opens, and the pattern built from the name does not
    compile, so that [Find] is called on the nil pattern.  In every other
    situation they return a pair. *)
Theorem rc_calls_panic_exactly_on_a_bad_pattern (E : Env) (st : State) :
  let reached :=
    fst (checkPrivileges E) = true
    /\ snd (stat_entry (Bsd.servicePath (self st))
              (fs st !! Bsd.servicePath (self st))) = None
    /\ fst (open_entry rc_conf (fs st !! rc_conf)) <> None
    /\ Regexp.Compile (oracle E) (Bsd.enable_pattern (self st)) = None in
  ((exists w, fst (Bsd.Start E st) = Panicked w) <-> reached)
  /\ ((exists w, fst (Bsd.Stop E st) = Panicked w) <-> reached)
  /\ ((exists w, fst (Bsd.Status E st) = Panicked w) <-> reached).
Proof.
  cbv zeta.
  split; [|split]; split.
  - intros [w H]. apply bsd_Start_panics in H as (Hp & Hs & Hen).
    split; [exact Hp|]. split; [exact Hs|].
    apply isEnabled_panics_iff. eauto.
  - intros (Hp & Hs & Hbad). apply isEnabled_panics_iff in Hbad as [w Hw].
    exists w. apply bsd_Start_panics. auto.
  - intros [w H]. apply bsd_Stop_panics in H as (Hp & Hs & Hen).
    split; [exact Hp|]. split; [exact Hs|].
    apply isEnabled_panics_iff. eauto.
  - intros (Hp & Hs & Hbad). apply isEnabled_panics_iff in Hbad as [w Hw].
    exists w. apply bsd_Stop_panics. auto.
  - intros [w H]. apply bsd_Status_panics in H as (Hp & Hs & Hen).
    split; [exact Hp|]. split; [exact Hs|].
    apply isEnabled_panics_iff. eauto.
  - intros (Hp & Hs & Hbad). apply isEnabled_panics_iff in Hbad as [w Hw].
    exists w. apply bsd_Status_panics. auto.
Qed.

Lemma rc_calls_panic_exactly_on_a_bad_pattern_witness :
  (exists w, fst (Bsd.Start env_root st_paren) = Panicked w)
  /\ (exists w, fst (Bsd.Stop env_root st_paren) = Panicked w)
  /\ (exists w, fst (Bsd.Status env_root st_paren) = Panicked w).
Proof.
  destruct (rc_calls_panic_exactly_on_a_bad_pattern env_root st_paren)
    as (Hstart & Hstop & Hstatus).
  assert (Hreached :
    fst (checkPrivileges env_root) = true
    /\ snd (stat_entry (Bsd.servicePath (self st_paren))
              (fs st_paren !! Bsd.servicePath (self st_paren))) = None
    /\ fst (open_entry rc_conf (fs st_paren !! rc_conf)) <> None
    /\ Regexp.Compile (oracle env_root) (Bsd.enable_pattern (self st_paren)) = None).
  { split; [reflexivity|]. split; [vm_compute; reflexivity|].
    split; [vm_compute; discriminate | vm_compute; reflexivity]. }
  split; [|split].
  - apply Hstart, Hreached.
  - apply Hstop, Hreached.
  - apply Hstatus, Hreached.
Defined.

(** X13. No operation of the launchd variant other than [Install] panics,
    and neither does [Remove] on rc.d: each of them returns a pair in
    every state and every environment. *)
Theorem launchd_calls_and_Remove_return (E : Env) (st : State) :
  (exists r, fst (Darwin.Remove E st) = Returned r)
  /\ (exists r, fst (Darwin.Start E st) = Returned r)
  /\ (exists r, fst (Darwin.Stop E st) = Returned r)
  /\ (exists r, fst (Darwin.Status E st) = Returned r)
  /\ (exists r, fst (Bsd.Remove E st) = Returned r).
Proof.
  unfold Darwin.Remove, Darwin.Start, Darwin.Stop, Darwin.Status, Bsd.Remove,
    os_Remove, exec_Run.
  destruct (checkPrivileges E) as [[|] perr]; cbn [negb].
  2:{ repeat split; eexists; reflexivity. }
  split; [|split; [|split; [|split]]]; peel; cbn [fst]; eauto.
Qed.

Ltac install_panic :=
  peel; cbn [fst snd fs self set_self execStartPath] in *;
  try match goal with
      | H : template_Execute ?t ?f ?d ?s = _ |- _ =>
          let Ht := fresh "Ht" in
          destruct (template_Execute_effect t f d s) as (? & ? & Ht & _);
          rewrite H in Ht; discriminate Ht
      end;
  (split;
   [ let H := fresh in intros [? H]; try discriminate H
   | let Hr := fresh "Hr" in
     intros (_ & ? & Hr & ? & ? & ?); try (specialize (Hr eq_refl)) ]);
  try congruence;
  try (eexists; reflexivity);
  (split; [reflexivity|]); (split; [congruence|]); (split; [congruence|]);
  match goal with
  | H : stat_entry ?p ?x = (None, _) |- _ =>
      destruct x as [[| |]|]; simpl in H; try discriminate H;
      injection H as <-; eauto
  end.

Lemma bsd_Install_panics (E : Env) (args : list string) (st : State) :
  (exists w, fst (Bsd.Install E args st) = Panicked w)
  <-> fst (checkPrivileges E) = true
      /\ snd (stat_entry (Bsd.servicePath (self st))
                (fs st !! Bsd.servicePath (self st))) <> None
      /\ (String.eqb (execStartPath (self st)) "" = true ->
          snd (executablePath E (name (self st))) = None)
      /\ exists e,
           stat_entry (resolved_path E st) (fs st !! resolved_path E st)
             = (None, Some e)
           /\ os_IsNotExist (Some e) = false.
Proof.
  unfold Bsd.Install, os_Create, os_Stat, os_Chmod, FileInfo_IsDir, resolved_path.
  generalize (Template.Parse Bsd.bsdConfig). intros parsed.
  destruct (checkPrivileges E) as [[|] perr]; cbn [negb fst snd] in *.
  2:{ split; [intros [w H]; discriminate H | intros (H & _); discriminate H]. }
  install_panic.
Qed.

Lemma darwin_Install_panics (E : Env) (args : list string) (st : State) :
  (exists w, fst (Darwin.Install E args st) = Panicked w)
  <-> fst (checkPrivileges E) = true
      /\ snd (stat_entry (Darwin.servicePath (self st))
                (fs st !! Darwin.servicePath (self st))) <> None
      /\ (String.eqb (execStartPath (self st)) "" = true ->
          snd (executablePath E (name (self st))) = None)
      /\ exists e,
           stat_entry (resolved_path E st) (fs st !! resolved_path E st)
             = (None, Some e)
           /\ os_IsNotExist (Some e) = false.
Proof.
  unfold Darwin.Install, os_Create, os_Stat, FileInfo_IsDir, resolved_path.
  generalize (Template.Parse Darwin.propertyList). intros parsed.
  destruct (checkPrivileges E) as [[|] perr]; cbn [negb fst snd] in *.
  2:{ split; [intros [w H]; discriminate H | intros (H & _); discriminate H]. }
  install_panic.
Qed.

(** X14. [Install] panics in exactly one situation: the caller is
    privileged, the descriptor is not there, an empty execution path was
    resolved without error, and [os.Stat] of the execution path fails with
    an error that [os.IsNotExist] does not accept, so that [IsDir] is
    called on the nil [FileInfo].  In every other situation [Install]
    returns a pair. *)
Theorem Install_panics_exactly_on_a_stat_error
    (E : Env) (args : list string) (st : State) :
  let stat_fails :=
    exists e,
      stat_entry (resolved_path E st) (fs st !! resolved_path E st) = (None, Some e)
      /\ os_IsNotExist (Some e) = false in
  ((exists w, fst (Bsd.Install E args st) = Panicked w)
   <-> fst (checkPrivileges E) = true
       /\ snd (stat_entry (Bsd.servicePath (self st))
                 (fs st !! Bsd.servicePath (self st))) <> None
       /\ (String.eqb (execStartPath (self st)) "" = true ->
           snd (executablePath E (name (self st))) = None)
       /\ stat_fails)
  /\
  ((exists w, fst (Darwin.Install E args st) = Panicked w)
   <-> fst (checkPrivileges E) = true
       /\ snd (stat_entry (Darwin.servicePath (self st))
                 (fs st !! Darwin.servicePath (self st))) <> None
       /\ (String.eqb (execStartPath (self st)) "" = true ->
           snd (executablePath E (name (self st))) = None)
       /\ stat_fails).
Proof.
  cbv zeta. split.
  - apply bsd_Install_panics.
  - apply darwin_Install_panics.
Qed.

Lemma Install_panics_exactly_on_a_stat_error_witness :
  (exists w, fst (Bsd.Install env_root [] st_notdir) = Panicked w)
  /\ (exists w, fst (Darwin.Install env_root [] st_notdir) = Panicked w).
Proof.
  destruct (Install_panics_exactly_on_a_stat_error env_root [] st_notdir)
    as [Hb Hd].
  split; [apply Hb | apply Hd].
  all: split; [reflexivity|].
  all: split; [vm_compute; discriminate|].
  all: split; [intros H; vm_compute in H; discriminate H|].
  all: eexists; split; vm_compute; reflexivity.
Defined.

(** ** The result contract, operation by operation *)

(** X15. Provided the privilege guard gives an error when it refuses,
    every pair returned by [Remove], [Start] and [Stop] of either variant
    honours the result contract: the failure suffix comes with an error
    and the success suffix with none.  [Install] honours it as well
    whenever the descriptor is not there yet. *)
Theorem result_contract_where_it_holds
    (E : Env) (args : list string) (st : State) (Hp : refusal_has_error E) :
  honours ("Removing " +:+ description (self st) +:+ ":") (fst (Bsd.Remove E st))
  /\ honours ("Starting " +:+ description (self st) +:+ ":") (fst (Bsd.Start E st))
  /\ honours ("Stopping " +:+ description (self st) +:+ ":") (fst (Bsd.Stop E st))
  /\ honours ("Removing " +:+ description (self st) +:+ ":") (fst (Darwin.Remove E st))
  /\ honours ("Starting " +:+ description (self st) +:+ ":") (fst (Darwin.Start E st))
  /\ honours ("Stopping " +:+ description (self st) +:+ ":") (fst (Darwin.Stop E st))
  /\ (snd (stat_entry (Bsd.servicePath (self st))
             (fs st !! Bsd.servicePath (self st))) <> None ->
      honours ("Install " +:+ description (self st) +:+ ":")
        (fst (Bsd.Install E args st)))
  /\ (snd (stat_entry (Darwin.servicePath (self st))
             (fs st !! Darwin.servicePath (self st))) <> None ->
      honours ("Install " +:+ description (self st) +:+ ":")
        (fst (Darwin.Install E args st))).
Proof.
  split; [now apply bsd_Remove_honours|].
  split; [now apply bsd_Start_honours|].
  split; [now apply bsd_Stop_honours|].
  split; [now apply darwin_Remove_honours|].
  split; [now apply darwin_Start_honours|].
  split; [now apply darwin_Stop_honours|].
  split; intros Hni.
  - now apply bsd_Install_honours.
  - now apply darwin_Install_honours.
Qed.

Lemma result_contract_where_it_holds_witness :
  honours "Removing d:" (fst (Bsd.Remove env_root st_fresh))
  /\ honours "Install d:" (fst (Bsd.Install env_root ["--a"] st_fresh))
  /\ honours "Install d:" (fst (Darwin.Install env_root ["--a"] st_fresh)).
Proof.
  assert (Hp : refusal_has_error env_root) by (intros H; discriminate H).
  destruct (result_contract_where_it_holds env_root ["--a"] st_fresh Hp)
    as (Hr & _ & _ & _ & _ & _ & Hb & Hd).
  split; [exact Hr|].
  split; [apply Hb | apply Hd]; vm_compute; discriminate.
Defined.

(** ** Status *)

(** X16. A status command that fails is absorbed: for a privileged caller
    and an installed service, [Status] then answers that the service is
    stopped and returns no error (on rc.d provided the enablement check
    returns). *)
Theorem Status_absorbs_a_failing_query (E : Env) (st : State)
    (Hpriv : fst (checkPrivileges E) = true) :
  (snd (stat_entry (Bsd.servicePath (self st))
          (fs st !! Bsd.servicePath (self st))) = None ->
   (exists r, fst (Bsd.isEnabled E st) = Returned r) ->
   snd (command E ["service"; name (self st); verb_for E st "status"]) <> None ->
   fst (Bsd.Status E st) = Returned ("Service is stopped", None))
  /\
  (snd (stat_entry (Darwin.servicePath (self st))
          (fs st !! Darwin.servicePath (self st))) = None ->
   snd (command E ["launchctl"; "list"; name (self st)]) <> None ->
   fst (Darwin.Status E st) = Returned ("Service is stopped", None)).
Proof.
  destruct (checkPrivileges E) as [ok perr] eqn:Hp. simpl in Hpriv. subst ok.
  split.
  - intros Hstat [r Hr] Herr. unfold Bsd.Status. rewrite Hp. cbn [negb].
    rewrite bind_run, bsd_IsInstalled_spec, Hstat. cbn [negb].
    rewrite bind_run, bsd_checkRunning_eq, Hr. unfold verdict.
    destruct (snd (command E _)); [reflexivity | now elim Herr].
  - intros Hstat Herr. unfold Darwin.Status. rewrite Hp. cbn [negb].
    rewrite bind_run, darwin_IsInstalled_spec, Hstat. cbn [negb].
    rewrite bind_run, darwin_checkRunning_eq. unfold verdict.
    destruct (snd (command E _)); [reflexivity | now elim Herr].
Qed.

Lemma Status_absorbs_a_failing_query_witness :
  fst (Bsd.Status env_down st_enabled) = Returned ("Service is stopped", None)
  /\ fst (Darwin.Status env_down st_enabled) = Returned ("Service is stopped", None).
Proof.
  destruct (Status_absorbs_a_failing_query env_down st_enabled eq_refl)
    as [Hb Hd].
  split.
  - apply Hb; [vm_compute; reflexivity | eexists; vm_compute; reflexivity
              | vm_compute; discriminate].
  - apply Hd; [vm_compute; reflexivity | vm_compute; discriminate].
Defined.

(** ** The descriptor path *)

Lemma append_inv_head (p a b : string) : p +:+ a = p +:+ b -> a = b.
Proof. induction p as [|x p IH]; simpl; [auto | intros [= H]; auto]. Qed.

Lemma append_length (a b : string) :
  String.length (a +:+ b) = String.length a + String.length b.
Proof. induction a as [|x a IH]; simpl; [reflexivity | now rewrite IH]. Qed.

Lemma append_inv_tail (a b s : string) : a +:+ s = b +:+ s -> a = b.
Proof.
  revert b. induction a as [|x a IH]; intros [|y b] H; simpl in H.
  - reflexivity.
  - apply (f_equal String.length) in H. simpl in H.
    rewrite append_length in H. lia.
  - apply (f_equal String.length) in H. simpl in H.
    rewrite append_length in H. lia.
  - injection H as -> H. now rewrite (IH b H).
Qed.

(** X17. The name determines the descriptor path and the path determines
    the name: two records have the same descriptor path exactly when they
    have the same name, on both variants. *)
Theorem servicePath_determines_the_name (r1 r2 : record) :
  (Bsd.servicePath r1 = Bsd.servicePath r2 <-> name r1 = name r2)
  /\ (Darwin.servicePath r1 = Darwin.servicePath r2 <-> name r1 = name r2).
Proof.
  unfold Bsd.servicePath, Darwin.servicePath. split; split.
  - apply append_inv_head.
  - now intros ->.
  - intros H. apply append_inv_head in H. now apply append_inv_tail in H.
  - now intros ->.
Qed.

Lemma servicePath_determines_the_name_witness :
  name rec_x = name rec_zebra.
Proof.
  apply (proj1 (servicePath_determines_the_name rec_x rec_zebra)).
  reflexivity.
Defined.

(** ** The verb when the boot configuration cannot be read *)

(** X18. When [/etc/rc.conf] cannot be opened, the enablement check
    returns false with the error of [os.Open], and [getCmd] answers the
    one-shot verb: the rc.d variant then runs [onestatus], [onestart] and
    [onestop]. *)
Theorem unreadable_rc_conf_gives_one_shot_verbs
    (E : Env) (st : State) (cmd : string) (err : error) :
  open_entry rc_conf (fs st !! rc_conf) = (None, Some err) ->
  fst (Bsd.isEnabled E st) = Returned (false, Some err)
  /\ Bsd.getCmd E cmd st = (Returned ("one" +:+ cmd), emit (EvOpen rc_conf) st)
  /\ verb_for E st cmd = "one" +:+ cmd.
Proof.
  intros Ho. pose proof (isEnabled_unreadable E st err Ho) as Hen.
  split; [exact Hen|].
  rewrite getCmd_run, Hen. unfold verb_for, autostart. rewrite Hen. auto.
Qed.

Lemma unreadable_rc_conf_gives_one_shot_verbs_witness :
  Bsd.getCmd env_root "start" st_installed
  = (Returned "onestart", emit (EvOpen rc_conf) st_installed).
Proof.
  apply (unreadable_rc_conf_gives_one_shot_verbs env_root st_installed "start"
           (PathError "open" rc_conf ENOENT)).
  vm_compute. reflexivity.
Defined.

(** ** The line the enablement check looks at *)

Lemma no_newline_app (a b : string) :
  no_newline (a +:+ b) = no_newline a && no_newline b.
Proof.
  unfold no_newline. induction a as [|x a IH]; simpl; [reflexivity|].
  now rewrite IH, andb_assoc.
Qed.

Lemma no_newline_prefix (m : string) :
  forall p rest t,
    no_newline m = true ->
    m +:+ rest = p +:+ String newline t ->
    exists p', p = m +:+ p'.
Proof.
  induction m as [|x m IH]; intros p rest t Hm H.
  - now exists p.
  - unfold no_newline in Hm. simpl in Hm. apply andb_true_iff in Hm as [Hx Hm].
    destruct p as [|y p]; simpl in H; injection H as -> H.
    + unfold ascii_eqb in Hx. now rewrite Ascii.eqb_refl in Hx.
    + destruct (IH p rest t Hm H) as [p' ->]. now exists p'.
Qed.

Lemma same_line (m : string) :
  forall line rest post,
    no_newline m = true -> no_newline line = true ->
    line_end rest -> line_end post ->
    m +:+ rest = line +:+ post -> m = line.
Proof.
  assert (Hnl : forall r, no_newline (String newline r) = false).
  { intros r. reflexivity. }
  induction m as [|x m IH]; intros line rest post Hm Hl Hr Hp H.
  - destruct line as [|y line]; [reflexivity|]. simpl in H.
    destruct Hr as [-> | [r ->]]; [discriminate H|].
    injection H as <- _. now rewrite Hnl in Hl.
  - destruct line as [|y line]; simpl in H.
    + destruct Hp as [-> | [r ->]]; [discriminate H|].
      injection H as -> _. now rewrite Hnl in Hm.
    + injection H as -> H. f_equal.
      unfold no_newline in Hm, Hl. simpl in Hm, Hl.
      apply andb_true_iff in Hm as [_ Hm]. apply andb_true_iff in Hl as [_ Hl].
      exact (IH line rest post Hm Hl Hr Hp H).
Qed.

Lemma star_to_line_end (s : string) :
  forall m g, Regexp.match_here [Regexp.DotStar] s = Some (m, g) ->
  exists rest, s = m +:+ rest /\ line_end rest.
Proof.
  induction s as [|x s IH]; intros m g H; simpl in H.
  - injection H as <- <-. exists "". split; [reflexivity | now left].
  - destruct (ascii_eqb x newline) eqn:Hx.
    + injection H as <- <-. apply ascii_eqb_eq in Hx as ->.
      exists (String newline s). split; [reflexivity | right; eauto].
    + match type of H with
      | match ?t with _ => _ end = _ => destruct t as [[m' g']|] eqn:Hstar
      end.
      * injection H as <- <-. destruct (IH _ _ Hstar) as (rest & -> & Hr).
        now exists rest.
      * exfalso. clear -Hstar. revert Hstar.
        generalize s. intros s0. induction s0 as [|y s0 IH0]; [discriminate|].
        destruct (ascii_eqb y newline); [discriminate|].
        match goal with
        | |- match ?t with _ => _ end = _ -> _ => destruct t as [[? ?]|]
        end; [discriminate | auto].
Qed.

Lemma lits_star_to_line_end (k : string) :
  forall s m g,
    Regexp.match_here (lits k ++ [Regexp.DotStar]) s = Some (m, g) ->
    exists rest, s = m +:+ rest /\ line_end rest.
Proof.
  induction k as [|c k IH]; intros s m g H.
  - exact (star_to_line_end s m g H).
  - simpl in H. destruct s as [|x s]; [discriminate|].
    destruct (ascii_eqb x c); [|discriminate].
    destruct (Regexp.match_here _ s) as [[m' g']|] eqn:Hr; [|discriminate].
    injection H as <- <-. destruct (IH _ _ _ Hr) as (rest & -> & Hrest).
    now exists rest.
Qed.

Lemma line_pattern_to_line_end (k : string) (s : string) :
  forall m g,
    Regexp.match_here (Regexp.DotStar :: lits k ++ [Regexp.DotStar]) s = Some (m, g) ->
    exists rest, s = m +:+ rest /\ line_end rest.
Proof.
  induction s as [|x s IH]; intros m g H; simpl in H.
  - exact (lits_star_to_line_end k _ m g H).
  - destruct (ascii_eqb x newline).
    + exact (lits_star_to_line_end k _ m g H).
    + match type of H with
      | match ?t with _ => _ end = _ => destruct t as [[m' g']|] eqn:Hstar
      end.
      * injection H as <- <-. destruct (IH _ _ Hstar) as (rest & -> & Hr).
        now exists rest.
      * exact (lits_star_to_line_end k _ m g H).
Qed.

Lemma lits_append (a b : string) : lits (a +:+ b) = lits a ++ lits b.
Proof.
  unfold lits. induction a as [|x a IH]; simpl; [reflexivity | now rewrite IH].
Qed.

Lemma search_at_match (its : list Regexp.item) (s m : string) (g : list string) :
  Regexp.match_here its s = Some (m, g) -> Regexp.search its s = Some (m :: g).
Proof. intros H. destruct s; simpl; now rewrite H. Qed.

Lemma line_start_tail (x : ascii) (pre : string) :
  line_start (String x pre) -> line_start pre.
Proof.
  intros [H | [p H]]; [discriminate H|].
  destruct p as [|y p]; simpl in H; injection H as -> ->.
  - now left.
  - right. now exists p.
Qed.

Lemma search_skips_lines (nm : string) (pre : string) :
  no_newline nm = true ->
  forall s,
    line_start pre -> ~ embeds pre (nm +:+ enable_text) ->
    Regexp.search
      (Regexp.DotStar :: lits nm ++ lits enable_text ++ [Regexp.DotStar]) (pre +:+ s)
    = Regexp.search
        (Regexp.DotStar :: lits nm ++ lits enable_text ++ [Regexp.DotStar]) s.
Proof.
  intros Hnm. induction pre as [|x pre IH]; intros s Hstart Hno; [reflexivity|].
  cbn [String.append Regexp.search].
  destruct (Regexp.match_here _ (String x (pre +:+ s))) as [[m g]|] eqn:Hm.
  - exfalso. apply Hno.
    destruct (match_here_sound _ _ _ _ Hm) as [Hsem [rest Hrest]].
    apply re_sem_enable in Hsem as (w1 & w2 & -> & Hw1 & Hw2 & _).
    destruct Hstart as [H | [p Hp]]; [discriminate H|].
    assert (Hline : no_newline (w1 +:+ nm +:+ enable_text +:+ w2) = true).
    { rewrite !no_newline_app, Hw1, Hnm, Hw2. reflexivity. }
    change (String x (pre +:+ s)) with (String x pre +:+ s) in Hrest.
    rewrite Hp, append_assoc in Hrest. cbn [String.append] in Hrest.
    symmetry in Hrest.
    destruct (no_newline_prefix _ _ _ _ Hline Hrest) as [p' Hp'].
    rewrite Hp, Hp'. exists w1, (w2 +:+ p' +:+ String newline "").
    now rewrite !append_assoc.
  - apply IH.
    + exact (line_start_tail x pre Hstart).
    + intros Hin. apply Hno. now apply embeds_char.
Qed.

Lemma enablement_first_line (O : Regexp.Oracle) (bsd : record)
    (pre line post : string) :
  plain (name bsd) = true -> no_newline (name bsd) = true ->
  Regexp.ascii_only (pre +:+ line +:+ post) = true ->
  line_start pre -> line_end post -> no_newline line = true ->
  embeds line (name bsd +:+ enable_text) ->
  ~ embeds pre (name bsd +:+ enable_text) ->
  Regexp.Find O (Bsd.enable_pattern bsd) (pre +:+ line +:+ post) = line.
Proof.
  intros Hp Hnm Ha Hstart Hend Hline (a & b & Hab) Hno.
  unfold Regexp.Find, Regexp.exec.
  rewrite (enable_pattern_parses bsd Hp), Ha, orb_true_r.
  rewrite (search_skips_lines (name bsd) pre Hnm _ Hstart Hno).
  assert (Hsem : re_sem (Regexp.DotStar :: lits (name bsd) ++ lits enable_text
                           ++ [Regexp.DotStar]) line []).
  { apply re_sem_enable. exists a, b.
    rewrite Hab, !no_newline_app in Hline.
    apply andb_true_iff in Hline as [Hna Hline].
    apply andb_true_iff in Hline as [_ Hnb].
    rewrite Hab, !append_assoc. auto. }
  destruct (match_here_complete _ _ _ post Hsem) as (m & g & Hm).
  rewrite (search_at_match _ _ _ _ Hm).
  destruct (match_here_sound _ _ _ _ Hm) as [Hsem' _].
  apply re_sem_enable in Hsem' as (w1 & w2 & Hmeq & Hw1 & Hw2 & _).
  assert (Hmline : no_newline m = true).
  { rewrite Hmeq, !no_newline_app, Hw1, Hnm, Hw2. reflexivity. }
  pose proof Hm as Hm'.
  rewrite app_assoc, <- lits_append in Hm'.
  apply line_pattern_to_line_end in Hm' as (rest & Hrest & Hr).
  symmetry in Hrest.
  exact (same_line m line rest post Hmline Hline Hr Hend Hrest).
Qed.

Lemma enable_pattern_compiles (O : Regexp.Oracle) (bsd : record) :
  plain (name bsd) = true ->
  Regexp.Compile O (Bsd.enable_pattern bsd) = Some (Bsd.enable_pattern bsd).
Proof.
  intros Hp. unfold Regexp.Compile, Regexp.classify.
  now rewrite (enable_pattern_parses bsd Hp).
Qed.

(** X19. For a name of ASCII characters without operators and without line
    break, and a boot configuration of ASCII characters, the enablement
    check is decided by the first line that holds [<name>_enable="YES"],
    taken whole: the answer is true exactly when the first character of
    that line that is not a space is not the comment sign.  Later lines
    are not looked at; and with no such line the answer is false.  The
    error is nil in both cases. *)
Theorem first_matching_line_decides
    (E : Env) (st : State) (data : string) (m : N) :
  plain (name (self st)) = true ->
  Regexp.ascii_only data = true ->
  fs st !! rc_conf = Some (File data m) ->
  (forall pre line post,
     data = pre +:+ line +:+ post ->
     no_newline (name (self st)) = true ->
     line_start pre -> line_end post -> no_newline line = true ->
     embeds line (name (self st) +:+ enable_text) ->
     ~ embeds pre (name (self st) +:+ enable_text) ->
     fst (Bsd.isEnabled E st) = Returned (uncommented line, None))
  /\
  (~ embeds data (name (self st) +:+ enable_text) ->
   fst (Bsd.isEnabled E st) = Returned (false, None)).
Proof.
  intros Hp Ha Hf.
  pose proof (isEnabled_returns E st data m _ Hf
                (enable_pattern_compiles (oracle E) (self st) Hp)) as Hen.
  split.
  - intros pre line post Hdata Hnm Hstart Hend Hline Hin Hno.
    rewrite Hen, Hdata. rewrite Hdata in Ha.
    now rewrite (enablement_first_line (oracle E) (self st) pre line post).
  - intros Hno. rewrite Hen.
    destruct (enablement_line (oracle E) (self st) data Hp Ha) as [_ Hempty].
    cbv zeta in Hempty. now rewrite (Hempty Hno).
Qed.

Lemma first_matching_line_decides_witness :
  fst (Bsd.isEnabled env_root st_shadowed) = Returned (false, None).
Proof.
  destruct (first_matching_line_decides env_root st_shadowed
              ("#" +:+ foo_line +:+ nl +:+ foo_line +:+ nl) 420%N
              eq_refl eq_refl eq_refl) as [Hline _].
  apply (Hline "" ("#" +:+ foo_line) (nl +:+ foo_line +:+ nl)).
  - reflexivity.
  - reflexivity.
  - now left.
  - right. eexists. reflexivity.
  - reflexivity.
  - exists "#", "". reflexivity.
  - intros (a & b & H). destruct a; discriminate H.
Defined.

(** ** Install refused for its execution path *)

Ltac refuse_path Hbad :=
  rewrite bind_run;
  let Hne := fresh "Hne" in
  let Hd := fresh "Hd" in
  destruct Hbad as [Hne | (? & -> & Hd)];
  [ rewrite Hne; reflexivity
  | destruct (os_IsNotExist _); unfold ret, mret, M_ret; cbv beta iota;
    rewrite ?Hd; reflexivity ].

Ltac bad_path E st spec :=
  destruct (checkPrivileges E) as [[|] ?]; cbn [negb fst snd] in *;
  [|discriminate];
  let Hni := fresh "Hni" in
  let Hres := fresh "Hres" in
  let Hst := fresh "Hst" in
  let Hbad := fresh "Hbad" in
  let Hempty := fresh "Hempty" in
  intros _ Hni Hres Hst Hbad;
  rewrite bind_run; unfold get at 1; cbv beta iota;
  rewrite bind_run, spec;
  destruct (snd (stat_entry _ _)); [|now elim Hni];
  rewrite bind_run;
  destruct (String.eqb (execStartPath (self st)) "") eqn:Hempty;
  [ specialize (Hres eq_refl);
    destruct (executablePath E (name (self st))) as [? ?];
    cbn [fst snd] in *; subst;
    rewrite !bind_run; unfold modify at 1; cbv beta iota;
    unfold ret at 1, mret, M_ret; cbv beta iota;
    rewrite bind_run; unfold get at 1; cbv beta iota;
    rewrite !bind_run; unfold get at 1; cbv beta iota;
    unfold ret at 1, mret, M_ret; cbv beta iota;
    cbn [self fs set_self execStartPath]; rewrite Hst;
    refuse_path Hbad
  | unfold ret at 1, mret, M_ret; cbv beta iota;
    rewrite bind_run; unfold get at 1; cbv beta iota;
    rewrite !bind_run; unfold get at 1; cbv beta iota;
    unfold ret at 1, mret, M_ret; cbv beta iota;
    rewrite Hst;
    refuse_path Hbad ].

Lemma bsd_Install_bad_path (E : Env) (args : list string) (st : State)
    (fi : option FileInfo) (err : option error) :
  fst (checkPrivileges E) = true ->
  snd (stat_entry (Bsd.servicePath (self st))
         (fs st !! Bsd.servicePath (self st))) <> None ->
  (String.eqb (execStartPath (self st)) "" = true ->
   snd (executablePath E (name (self st))) = None) ->
  stat_entry (resolved_path E st) (fs st !! resolved_path E st) = (fi, err) ->
  os_IsNotExist err = true \/ (exists f, fi = Some f /\ IsDir f = true) ->
  Bsd.Install E args st
    = (Returned (("Install " +:+ description (self st) +:+ ":") +:+ failed,
                 Some ErrIncorrectExecStartPath),
       resolve E st).
Proof.
  unfold Bsd.Install, os_Stat, FileInfo_IsDir, resolved_path, resolve.
  bad_path E st bsd_IsInstalled_spec.
Qed.

Lemma darwin_Install_bad_path (E : Env) (args : list string) (st : State)
    (fi : option FileInfo) (err : option error) :
  fst (checkPrivileges E) = true ->
  snd (stat_entry (Darwin.servicePath (self st))
         (fs st !! Darwin.servicePath (self st))) <> None ->
  (String.eqb (execStartPath (self st)) "" = true ->
   snd (executablePath E (name (self st))) = None) ->
  stat_entry (resolved_path E st) (fs st !! resolved_path E st) = (fi, err) ->
  os_IsNotExist err = true \/ (exists f, fi = Some f /\ IsDir f = true) ->
  Darwin.Install E args st
    = (Returned (("Install " +:+ description (self st) +:+ ":") +:+ failed,
                 Some ErrIncorrectExecStartPath),
       resolve E st).
Proof.
  unfold Darwin.Install, os_Stat, FileInfo_IsDir, resolved_path, resolve.
  bad_path E st darwin_IsInstalled_spec.
Qed.

Ltac unresolved_path E st spec :=
  destruct (checkPrivileges E) as [[|] ?]; cbn [negb fst snd] in *;
  [|discriminate];
  let Hni := fresh "Hni" in
  let Hempty := fresh "Hempty" in
  let Hres := fresh "Hres" in
  intros _ Hni Hempty Hres;
  rewrite bind_run; unfold get at 1; cbv beta iota;
  rewrite bind_run, spec;
  destruct (snd (stat_entry _ _)); [|now elim Hni];
  rewrite bind_run, Hempty;
  destruct (executablePath E (name (self st))) as [? ?];
  cbn [fst snd] in *; subst;
  rewrite !bind_run; unfold modify at 1; cbv beta iota;
  reflexivity.

Lemma bsd_Install_unresolved (E : Env) (args : list string) (st : State)
    (e : error) :
  fst (checkPrivileges E) = true ->
  snd (stat_entry (Bsd.servicePath (self st))
         (fs st !! Bsd.servicePath (self st))) <> None ->
  String.eqb (execStartPath (self st)) "" = true ->
  snd (executablePath E (name (self st))) = Some e ->
  Bsd.Install E args st
    = (Returned (("Install " +:+ description (self st) +:+ ":") +:+ failed, Some e),
       resolve E st).
Proof. unfold Bsd.Install, resolve. unresolved_path E st bsd_IsInstalled_spec. Qed.

Lemma darwin_Install_unresolved (E : Env) (args : list string) (st : State)
    (e : error) :
  fst (checkPrivileges E) = true ->
  snd (stat_entry (Darwin.servicePath (self st))
         (fs st !! Darwin.servicePath (self st))) <> None ->
  String.eqb (execStartPath (self st)) "" = true ->
  snd (executablePath E (name (self st))) = Some e ->
  Darwin.Install E args st
    = (Returned (("Install " +:+ description (self st) +:+ ":") +:+ failed, Some e),
       resolve E st).
Proof. unfold Darwin.Install, resolve. unresolved_path E st darwin_IsInstalled_spec. Qed.

(** X20. [Install] by a privileged caller on a service that is not
    installed is refused for its execution path in two ways, both before
    anything is created.  An empty path whose resolution fails gives the
    error of [executablePath]; a path that does not exist or is a directory
    gives [ErrIncorrectExecStartPath].  Each time the failure message is
    returned, the files and the events are as before, and the record keeps
    the resolved path in place of the empty one. *)
Theorem Install_refused_for_its_path
    (E : Env) (args : list string) (st : State)
    (Hpriv : fst (checkPrivileges E) = true) :
  let refused (e : error) : outcome result * State :=
    (Returned (("Install " +:+ description (self st) +:+ ":") +:+ failed, Some e),
     resolve E st) in
  let unresolved (e : error) : Prop :=
    String.eqb (execStartPath (self st)) "" = true
    /\ snd (executablePath E (name (self st))) = Some e in
  let bad_path : Prop :=
    (String.eqb (execStartPath (self st)) "" = true ->
     snd (executablePath E (name (self st))) = None)
    /\ exists fi err,
         stat_entry (resolved_path E st) (fs st !! resolved_path E st) = (fi, err)
         /\ (os_IsNotExist err = true \/ exists f, fi = Some f /\ IsDir f = true) in
  (snd (stat_entry (Bsd.servicePath (self st))
          (fs st !! Bsd.servicePath (self st))) <> None ->
   (forall e, unresolved e -> Bsd.Install E args st = refused e)
   /\ (bad_path -> Bsd.Install E args st = refused ErrIncorrectExecStartPath))
  /\
  (snd (stat_entry (Darwin.servicePath (self st))
          (fs st !! Darwin.servicePath (self st))) <> None ->
   (forall e, unresolved e -> Darwin.Install E args st = refused e)
   /\ (bad_path -> Darwin.Install E args st = refused ErrIncorrectExecStartPath))
  /\ fs (resolve E st) = fs st
  /\ log (resolve E st) = log st.
Proof.
  cbv zeta. split; [|split; [|split]].
  - intros Hni. split.
    + intros e [Hempty Hres]. now apply bsd_Install_unresolved.
    + intros (Hres & fi & err & Hst & Hbad).
      now apply (bsd_Install_bad_path E args st fi err).
  - intros Hni. split.
    + intros e [Hempty Hres]. now apply darwin_Install_unresolved.
    + intros (Hres & fi & err & Hst & Hbad).
      now apply (darwin_Install_bad_path E args st fi err).
  - unfold resolve. now destruct (String.eqb _ _).
  - unfold resolve. now destruct (String.eqb _ _).
Qed.

Lemma Install_refused_for_its_path_witness :
  Bsd.Install env_root [] (with_files rec_x [])
    = (Returned ("Install d:failed", Some ErrIncorrectExecStartPath),
       with_files rec_x [])
  /\ Darwin.Install env_root [] (with_files rec_x [])
     = (Returned ("Install d:failed", Some ErrIncorrectExecStartPath),
        with_files rec_x []).
Proof.
  destruct (Install_refused_for_its_path env_root [] (with_files rec_x []) eq_refl)
    as (Hb & Hd & _).
  split.
  - apply Hb; [vm_compute; discriminate|].
    split; [intros H; vm_compute in H; discriminate H|].
    eexists _, _. split; [vm_compute; reflexivity | left; reflexivity].
  - apply Hd; [vm_compute; discriminate|].
    split; [intros H; vm_compute in H; discriminate H|].
    eexists _, _. split; [vm_compute; reflexivity | left; reflexivity].
Defined.

(** ** What Install leaves behind when it fails *)

Ltac created_file :=
  match goal with
  | H : template_Execute ?t ?f ?d ?s0 = (_, _) |- _ =>
      let Ht := fresh "Ht" in
      let Hf := fresh "Hf" in
      destruct (template_Execute_effect t f d s0) as (? & ? & Ht & _ & _ & Hf);
      rewrite H in Ht;
      first
        [ discriminate Ht
        | injection Ht as <- <-;
          cbn [fs self emit set_fs set_self] in Hf;
          destruct (Hf _ _ (lookup_insert_eq _ _ _)) as [[? ?] _]; clear Hf ]
  end.

Ltac keeps_created :=
  peel; cbn [fst snd log fs self set_self emit set_fs] in *;
  let Hin := fresh "Hin" in
  let Hnot := fresh "Hnot" in
  intros Hin Hnot; try (exfalso; exact (Hnot Hin));
  try (rewrite lookup_insert_eq; eauto);
  try created_file;
  eauto;
  try (rewrite lookup_insert_eq; eauto).

Lemma bsd_Install_keeps_created (E : Env) (args : list string) (st : State) :
  In (EvCreate (Bsd.servicePath (self st))) (log (snd (Bsd.Install E args st))) ->
  ~ In (EvCreate (Bsd.servicePath (self st))) (log st) ->
  exists c m,
    fs (snd (Bsd.Install E args st)) !! Bsd.servicePath (self st) = Some (File c m).
Proof.
  unfold Bsd.Install, os_Create, os_Stat, os_Chmod, FileInfo_IsDir.
  generalize (Template.Parse Bsd.bsdConfig). intros parsed.
  destruct (checkPrivileges E) as [[|] perr]; cbn [negb fst snd] in *;
    keeps_created.
Qed.

Lemma darwin_Install_keeps_created (E : Env) (args : list string) (st : State) :
  In (EvCreate (Darwin.servicePath (self st)))
     (log (snd (Darwin.Install E args st))) ->
  ~ In (EvCreate (Darwin.servicePath (self st))) (log st) ->
  exists c m,
    fs (snd (Darwin.Install E args st)) !! Darwin.servicePath (self st)
    = Some (File c m).
Proof.
  unfold Darwin.Install, os_Create, os_Stat, FileInfo_IsDir.
  generalize (Template.Parse Darwin.propertyList). intros parsed.
  destruct (checkPrivileges E) as [[|] perr]; cbn [negb fst snd] in *;
    keeps_created.
Qed.

(** X21. [Install] never takes back the file it has created.  Whenever a
    call has created the descriptor, a file is at the descriptor path when
    the call ends, also when the call goes on to fail in the rendering,
    in a write or in the change of mode; [IsInstalled] answers true
    afterwards. *)
Theorem Install_never_removes_what_it_created
    (E : Env) (args : list string) (st : State) :
  (let p := Bsd.servicePath (self st) in
   let st' := snd (Bsd.Install E args st) in
   ~ In (EvCreate p) (log st) -> In (EvCreate p) (log st') ->
   (exists c m, fs st' !! p = Some (File c m))
   /\ fst (Bsd.IsInstalled st') = Returned (true, None))
  /\
  (let p := Darwin.servicePath (self st) in
   let st' := snd (Darwin.Install E args st) in
   ~ In (EvCreate p) (log st) -> In (EvCreate p) (log st') ->
   (exists c m, fs st' !! p = Some (File c m))
   /\ fst (Darwin.IsInstalled st') = Returned (true, None)).
Proof.
  cbv zeta. split; intros Hnot Hin.
  - destruct (bsd_Install_keeps_created E args st Hin Hnot) as (c & m & Hf).
    split; [eauto|].
    rewrite bsd_IsInstalled_spec. unfold Bsd.servicePath in *.
    destruct (bsd_Install_frame E args st) as (Hn & _). cbv zeta in Hn.
    rewrite Hn, Hf. reflexivity.
  - destruct (darwin_Install_keeps_created E args st Hin Hnot) as (c & m & Hf).
    split; [eauto|].
    rewrite darwin_IsInstalled_spec. unfold Darwin.servicePath in *.
    destruct (darwin_Install_frame E args st) as (Hn & _). cbv zeta in Hn.
    rewrite Hn, Hf. reflexivity.
Qed.

Lemma Install_never_removes_what_it_created_witness :
  fst (Bsd.Install env_root ["--a"] st_full)
    = Returned ("Install d:failed",
                Some (PathError "write" "/usr/local/etc/rc.d/x" ENOSPC))
  /\ fst (Bsd.IsInstalled (snd (Bsd.Install env_root ["--a"] st_full)))
     = Returned (true, None)
  /\ fst (Darwin.IsInstalled (snd (Darwin.Install env_root ["--a"] st_full)))
     = Returned (true, None).
Proof.
  destruct (Install_never_removes_what_it_created env_root ["--a"] st_full)
    as [Hb Hd].
  split; [vm_compute; reflexivity|]. split.
  - apply Hb; [intros [] | vm_compute; auto].
  - apply Hd; [intros [] | vm_compute; auto].
Defined.

(** ** What Install and Remove never do *)

Ltac no_command :=
  peel; cbn [fst snd log fs self set_self emit set_fs] in *;
  try use_template_frame;
  let Hin := fresh "Hin" in
  intros ? Hin; try exact Hin;
  repeat match goal with
         | H : log _ = _ |- _ => rewrite H in Hin
         end;
  clear - Hin;
  rewrite ?in_app_iff in Hin; simpl in Hin;
  repeat match type of Hin with
         | _ \/ _ => destruct Hin as [Hin | Hin]
         end;
  first [exact Hin | discriminate Hin | contradiction].

Lemma bsd_Install_runs_nothing (E : Env) (args : list string) (st : State) :
  forall argv,
    In (EvExec argv) (log (snd (Bsd.Install E args st))) -> In (EvExec argv) (log st).
Proof.
  unfold Bsd.Install, os_Create, os_Stat, os_Chmod, FileInfo_IsDir.
  generalize (Template.Parse Bsd.bsdConfig). intros parsed.
  destruct (checkPrivileges E) as [[|] perr]; cbn [negb fst snd] in *;
    no_command.
Qed.

Lemma darwin_Install_runs_nothing (E : Env) (args : list string) (st : State) :
  forall argv,
    In (EvExec argv) (log (snd (Darwin.Install E args st))) ->
    In (EvExec argv) (log st).
Proof.
  unfold Darwin.Install, os_Create, os_Stat, FileInfo_IsDir.
  generalize (Template.Parse Darwin.propertyList). intros parsed.
  destruct (checkPrivileges E) as [[|] perr]; cbn [negb fst snd] in *;
    no_command.
Qed.

(** X22. [Install] and [Remove] never run a command: they write or delete
    the descriptor and leave the service manager alone, so that a service
    is neither loaded nor started by [Install] and neither stopped nor
    unloaded by [Remove]. *)
Theorem Install_and_Remove_run_no_command
    (E : Env) (args : list string) (st : State) (argv : list string) :
  (In (EvExec argv) (log (snd (Bsd.Install E args st))) -> In (EvExec argv) (log st))
  /\ (In (EvExec argv) (log (snd (Darwin.Install E args st))) ->
      In (EvExec argv) (log st))
  /\ (In (EvExec argv) (log (snd (Bsd.Remove E st))) -> In (EvExec argv) (log st))
  /\ (In (EvExec argv) (log (snd (Darwin.Remove E st))) -> In (EvExec argv) (log st)).
Proof.
  split; [apply bsd_Install_runs_nothing|].
  split; [apply darwin_Install_runs_nothing|].
  unfold Bsd.Remove, Darwin.Remove, os_Remove.
  destruct (checkPrivileges E) as [[|] perr]; cbn [negb fst snd] in *.
  2:{ split; intros Hin; exact Hin. }
  split; revert argv; no_command.
Qed.

Lemma Install_and_Remove_run_no_command_witness :
  ~ In (EvExec ["launchctl"; "load"; "/Library/LaunchDaemons/x.plist"])
       (log (snd (Darwin.Install env_root [] st_fresh)))
  /\ ~ In (EvExec ["launchctl"; "unload"; "/Library/LaunchDaemons/x.plist"])
          (log (snd (Darwin.Remove env_root st_installed))).
Proof.
  split; intros Hin.
  - destruct (Install_and_Remove_run_no_command env_root [] st_fresh
                ["launchctl"; "load"; "/Library/LaunchDaemons/x.plist"])
      as (_ & Hd & _ & _).
    exact (Hd Hin).
  - destruct (Install_and_Remove_run_no_command env_root [] st_installed
                ["launchctl"; "unload"; "/Library/LaunchDaemons/x.plist"])
      as (_ & _ & _ & Hd).
    exact (Hd Hin).
Defined.

(** ** The same call twice *)

Lemma bsd_Remove_success_needs (E : Env) (st : State) :
  fst (Bsd.Remove E st)
    = Returned (("Removing " +:+ description (self st) +:+ ":") +:+ success, None) ->
  fst (checkPrivileges E) = true
  /\ snd (Bsd.Remove E st)
     = emit (EvRemove (Bsd.servicePath (self st)))
         (set_fs (delete (Bsd.servicePath (self st)) (fs st)) st).
Proof.
  unfold Bsd.Remove, os_Remove.
  destruct (checkPrivileges E) as [[|] perr]; cbn [negb fst snd] in *;
    peel; cbn [fst snd]; try absurd_result.
  all: intros _; split; reflexivity.
Qed.

Lemma darwin_Remove_success_needs (E : Env) (st : State) :
  fst (Darwin.Remove E st)
    = Returned (("Removing " +:+ description (self st) +:+ ":") +:+ success, None) ->
  fst (checkPrivileges E) = true
  /\ snd (Darwin.Remove E st)
     = emit (EvRemove (Darwin.servicePath (self st)))
         (set_fs (delete (Darwin.servicePath (self st)) (fs st)) st).
Proof.
  unfold Darwin.Remove, os_Remove.
  destruct (checkPrivileges E) as [[|] perr]; cbn [negb fst snd] in *;
    peel; cbn [fst snd]; try absurd_result.
  all: intros _; split; reflexivity.
Qed.

(** X23. Neither [Install] nor [Remove] can be repeated.  After an
    [Install] that succeeded, a second [Install], with whatever arguments,
    returns the failure message (with a nil error) and changes nothing;
    after a [Remove] that succeeded, a second [Remove] returns the failure
    message with the not-found error of [os.Stat] and changes nothing. *)
Theorem second_call_is_refused
    (E : Env) (args args' : list string) (st : State) :
  let d := description (self st) in
  (fst (Bsd.Install E args st)
     = Returned (("Install " +:+ d +:+ ":") +:+ success, None) ->
   let st1 := snd (Bsd.Install E args st) in
   Bsd.Install E args' st1
     = (Returned (("Install " +:+ d +:+ ":") +:+ failed, None), st1))
  /\
  (fst (Darwin.Install E args st)
     = Returned (("Install " +:+ d +:+ ":") +:+ success, None) ->
   let st1 := snd (Darwin.Install E args st) in
   Darwin.Install E args' st1
     = (Returned (("Install " +:+ d +:+ ":") +:+ failed, None), st1))
  /\
  (fst (Bsd.Remove E st)
     = Returned (("Removing " +:+ d +:+ ":") +:+ success, None) ->
   let st1 := snd (Bsd.Remove E st) in
   Bsd.Remove E st1
     = (Returned (("Removing " +:+ d +:+ ":") +:+ failed,
                  Some (PathError "stat" (Bsd.servicePath (self st)) ENOENT)), st1))
  /\
  (fst (Darwin.Remove E st)
     = Returned (("Removing " +:+ d +:+ ":") +:+ success, None) ->
   let st1 := snd (Darwin.Remove E st) in
   Darwin.Remove E st1
     = (Returned (("Removing " +:+ d +:+ ":") +:+ failed,
                  Some (PathError "stat" (Darwin.servicePath (self st)) ENOENT)), st1)).
Proof.
  cbv zeta. split; [|split; [|split]]; intros Hok.
  - destruct (bsd_Install_success_needs E args st Hok) as [Hpriv _].
    destruct (bsd_Install_writes_descriptor E args st Hok) as (text & _ & Hfile).
    destruct (bsd_Install_frame E args st) as (Hn & Hd & _). cbv zeta in *.
    destruct (checkPrivileges E) as [ok perr] eqn:Hp. simpl in Hpriv. subst ok.
    unfold Bsd.Install at 1. rewrite Hp. cbn [negb].
    rewrite bind_run. unfold get at 1. cbv beta iota.
    rewrite bind_run, bsd_IsInstalled_spec.
    unfold Bsd.servicePath in *. rewrite Hn, Hfile, Hd. reflexivity.
  - destruct (darwin_Install_success_needs E args st Hok) as [Hpriv _].
    destruct (darwin_Install_writes_descriptor E args st Hok) as (text & _ & Hfile).
    destruct (darwin_Install_frame E args st) as (Hn & Hd & _). cbv zeta in *.
    destruct (checkPrivileges E) as [ok perr] eqn:Hp. simpl in Hpriv. subst ok.
    unfold Darwin.Install at 1. rewrite Hp. cbn [negb].
    rewrite bind_run. unfold get at 1. cbv beta iota.
    rewrite bind_run, darwin_IsInstalled_spec.
    unfold Darwin.servicePath in *. rewrite Hn, Hfile, Hd. reflexivity.
  - destruct (bsd_Remove_success_needs E st Hok) as [Hpriv ->].
    destruct (checkPrivileges E) as [ok perr] eqn:Hp. simpl in Hpriv. subst ok.
    unfold Bsd.Remove. rewrite Hp. cbn [negb].
    rewrite bind_run. unfold get at 1. cbv beta iota.
    rewrite bind_run, bsd_IsInstalled_spec.
    cbn [self fs emit set_fs]. rewrite lookup_delete_eq. reflexivity.
  - destruct (darwin_Remove_success_needs E st Hok) as [Hpriv ->].
    destruct (checkPrivileges E) as [ok perr] eqn:Hp. simpl in Hpriv. subst ok.
    unfold Darwin.Remove. rewrite Hp. cbn [negb].
    rewrite bind_run. unfold get at 1. cbv beta iota.
    rewrite bind_run, darwin_IsInstalled_spec.
    cbn [self fs emit set_fs]. rewrite lookup_delete_eq. reflexivity.
Qed.

Lemma second_call_is_refused_witness :
  fst (Bsd.Install env_root []
         (snd (Bsd.Install env_root ["--a"] st_fresh)))
    = Returned ("Install d:failed", None)
  /\ fst (Darwin.Remove env_root (snd (Darwin.Remove env_root st_installed)))
     = Returned ("Removing d:failed",
                 Some (PathError "stat" "/Library/LaunchDaemons/x.plist" ENOENT)).
Proof.
  destruct (second_call_is_refused env_root ["--a"] [] st_fresh)
    as (Hb & _ & _ & _).
  destruct (second_call_is_refused env_root [] [] st_installed)
    as (_ & _ & _ & Hd).
  split.
  - rewrite Hb; [reflexivity | vm_compute; reflexivity].
  - rewrite Hd; [reflexivity | vm_compute; reflexivity].
Defined.

(** ** The status probe on names without operators *)

Lemma leading_digits_all (s : string) : all_digits (leading_digits s) = true.
Proof.
  unfold all_digits. induction s as [|c s IH]; [reflexivity|]. simpl.
  destruct (Regexp.is_digit c) eqn:Hc; [|reflexivity]. simpl. now rewrite Hc.
Qed.

Lemma leading_digits_app (d t : string) :
  all_digits d = true -> leading_digits (d +:+ t) = d +:+ leading_digits t.
Proof.
  unfold all_digits. induction d as [|c d IH]; [reflexivity|]. simpl.
  intros H. apply andb_true_iff in H as [Hc Hd]. rewrite Hc. now rewrite IH.
Qed.

Lemma leading_digits_delimited (after post : string) :
  delimits after = true -> leading_digits post = "" \/ after <> "" ->
  leading_digits (after +:+ post) = "".
Proof.
  destruct after as [|c after]; simpl.
  - intros _ [H|H]; [exact H | now elim H].
  - intros Hc _. apply negb_true_iff in Hc. now rewrite Hc.
Qed.

(** The greedy run of digits at the end of a pattern takes every digit. *)
Lemma digits_take_all (s m : string) (g : list string) :
  Regexp.match_here [Regexp.Digits] s = Some (m, g) ->
  exists rest, s = m +:+ rest /\ leading_digits rest = "".
Proof.
  simpl. 
  match goal with
  | |- mbind _ ?t = _ -> _ => destruct t as [[d [m' g']]|] eqn:Hd; [|discriminate]
  end.
  simpl. intros [= <- <-].
  revert d m' g' Hd. induction s as [|x s IH]; intros d m' g' Hd; [discriminate|].
  destruct (Regexp.is_digit x) eqn:Hx; [|discriminate].
  match type of Hd with
  | match ?t with _ => _ end = _ => destruct t as [[d0 res]|] eqn:Hdig
  end.
  - destruct res as [m0 g0]. injection Hd as <- <- <-.
    destruct (IH _ _ _ eq_refl) as (rest & -> & Hrest).
    exists rest. split; [reflexivity | exact Hrest].
  - simpl in Hd. injection Hd as <- <- <-.
    exists s. split; [reflexivity|].
    clear -Hdig. destruct s as [|y s]; [reflexivity|]. simpl.
    destruct (Regexp.is_digit y) eqn:Hy; [|reflexivity].
    exfalso. simpl in Hdig. rewrite ?Hy in Hdig.
    match type of Hdig with
    | match ?t with _ => _ end = _ => destruct t as [[? ?]|]
    end; discriminate.
Qed.

Lemma lits_digits_take_all (before : string) :
  forall s m g,
    Regexp.match_here (lits before ++ [Regexp.Digits]) s = Some (m, g) ->
    exists rest, s = m +:+ rest /\ leading_digits rest = "".
Proof.
  induction before as [|c before IH]; intros s m g H.
  - exact (digits_take_all s m g H).
  - simpl in H. destruct s as [|x s]; [discriminate|].
    destruct (ascii_eqb x c); [|discriminate].
    destruct (Regexp.match_here _ s) as [[m' g']|] eqn:Hr; [|discriminate].
    injection H as <- <-. destruct (IH _ _ _ Hr) as (rest & -> & Hrest).
    now exists rest.
Qed.

(** A match of a marker pattern at the head of a text is the marker found
    there, with the whole run of digits. *)
Lemma head_marker (before after s m : string) (g : list string) :
  delimits after = true ->
  (Regexp.match_here (lits before ++ Regexp.Digits :: lits after) s = Some (m, g)
   <-> exists d post,
         s = before +:+ d +:+ after +:+ post
         /\ d <> "" /\ d = leading_digits (d +:+ after +:+ post)
         /\ m = before +:+ d +:+ after /\ g = [d]).
Proof.
  intros Hdel.
  assert (Hfwd : forall m g,
    Regexp.match_here (lits before ++ Regexp.Digits :: lits after) s = Some (m, g) ->
    exists d post,
      s = before +:+ d +:+ after +:+ post
      /\ d <> "" /\ d = leading_digits (d +:+ after +:+ post)
      /\ m = before +:+ d +:+ after /\ g = [d]).
  { clear m g. intros m g H.
    destruct (match_here_sound _ _ _ _ H) as [Hsem [rest Hrest]].
    apply re_sem_marker in Hsem as (d & [Hne Hall] & -> & ->).
    exists d, rest. rewrite !append_assoc in Hrest.
    split; [exact Hrest|]. split; [exact Hne|]. split; [|auto].
    rewrite (leading_digits_app d _ Hall).
    rewrite leading_digits_delimited; [now rewrite append_nil_r | exact Hdel |].
    destruct after as [|c after]; [left | right; discriminate].
    change (lits "") with (@nil Regexp.item) in H.
    destruct (lits_digits_take_all before _ _ _ H) as (rest' & Hs & Hr).
    rewrite Hrest in Hs. simpl in Hs. rewrite append_nil_r in Hs.
    rewrite <- append_assoc in Hs. apply append_inv_head in Hs. now subst. }
  split; [apply Hfwd|].
  intros (d & post & -> & Hne & Hd & -> & ->).
  assert (Hall : all_digits d = true) by (rewrite Hd; apply leading_digits_all).
  destruct (match_here_complete (lits before ++ Regexp.Digits :: lits after)
              (before +:+ d +:+ after) [d] post) as (m' & g' & Hm).
  { apply re_sem_marker. exists d. repeat split; auto. }
  rewrite !append_assoc in Hm. rewrite Hm. f_equal.
  destruct (Hfwd _ _ Hm) as (d' & post' & Hs & Hne' & Hd' & -> & ->).
  apply append_inv_head in Hs.
  assert (d = d') by (rewrite Hd, Hd', Hs; reflexivity).
  now subst.
Qed.

(** The search returns the match that starts first. *)
Lemma search_leftmost (its : list Regexp.item) (s : string) (l : list string) :
  Regexp.search its s = Some l ->
  exists pre s' m g,
    s = pre +:+ s' /\ Regexp.match_here its s' = Some (m, g) /\ l = m :: g
    /\ forall pre2 s2,
         s = pre2 +:+ s2 -> String.length pre2 < String.length pre ->
         Regexp.match_here its s2 = None.
Proof.
  revert l. induction s as [|x s IH]; intros l; simpl.
  - destruct (Regexp.match_here its "") as [[m g]|] eqn:Hm; [|discriminate].
    intros [= <-]. exists "", "", m, g. repeat split; auto.
    intros pre2 s2 _ Hlt. simpl in Hlt. lia.
  - destruct (Regexp.match_here its (String x s)) as [[m g]|] eqn:Hm.
    + intros [= <-]. exists "", (String x s), m, g. repeat split; auto.
      intros pre2 s2 _ Hlt. simpl in Hlt. lia.
    + intros H. destruct (IH _ H) as (pre & s' & m & g & -> & Hs' & -> & Hmin).
      exists (String x pre), s', m, g. repeat split; auto.
      intros [|y pre2] s2 Heq Hlt; simpl in Heq.
      * now subst s2.
      * injection Heq as -> Heq. apply (Hmin pre2 s2 Heq). simpl in Hlt. lia.
Qed.

Lemma search_nowhere (its : list Regexp.item) (s : string) :
  Regexp.search its s = None ->
  forall pre s', s = pre +:+ s' -> Regexp.match_here its s' = None.
Proof.
  induction s as [|x s IH]; simpl.
  - destruct (Regexp.match_here its "") as [[m g]|] eqn:Hm; [discriminate|].
    intros _ [|y pre] s' H; simpl in H; [now subst s' | discriminate].
  - destruct (Regexp.match_here its (String x s)) as [[m g]|] eqn:Hm;
      [discriminate|].
    intros Hs [|y pre] s' H; simpl in H.
    + now subst s'.
    + injection H as -> H. exact (IH Hs pre s' H).
Qed.

(** What the pattern of a marker finds: the first marker of the output with
    the whole run of its digits, or nothing when the output has no
    marker. *)
Lemma find_first_marker (O : Regexp.Oracle) (before after marker out : string) :
  Regexp.parse marker = Some (lits before ++ Regexp.Digits :: lits after) ->
  delimits after = true ->
  (exists d, Regexp.FindStringSubmatch O marker out = [before +:+ d +:+ after; d]
             /\ first_marker before after out d)
  \/ (Regexp.FindStringSubmatch O marker out = []
      /\ forall pre d, ~ marker_at before after out pre d).
Proof.
  intros Hp Hdel. unfold Regexp.FindStringSubmatch.
  rewrite (exec_dot_free O marker _ out Hp).
  2:{ rewrite dot_free_lits. change (Regexp.dot_free (lits after) = true).
      rewrite <- (app_nil_r (lits after)), dot_free_lits. reflexivity. }
  destruct (Regexp.search _ out) as [l|] eqn:Hs.
  - left. apply search_leftmost in Hs as (pre & s' & m & g & -> & Hm & -> & Hmin).
    apply (head_marker before after s' m g Hdel) in Hm
      as (d & post & -> & Hne & Hd & -> & ->).
    exists d. split; [reflexivity|]. exists pre. split.
    + exists post. auto.
    + intros pre' d' (post' & Heq & Hne' & Hd').
      destruct (Nat.le_gt_cases (String.length pre) (String.length pre'))
        as [Hle|Hlt]; [exact Hle|].
      exfalso. specialize (Hmin pre' _ Heq Hlt).
      assert (Hsome : Regexp.match_here
                        (lits before ++ Regexp.Digits :: lits after)
                        (before +:+ d' +:+ after +:+ post')
                      = Some (before +:+ d' +:+ after, [d'])).
      { apply (head_marker before after _ _ _ Hdel). exists d', post'. auto. }
      congruence.
  - right. split; [reflexivity|]. intros pre d (post & Heq & Hne & Hd).
    pose proof (search_nowhere _ _ Hs pre _ Heq) as Hnone.
    assert (Hsome : Regexp.match_here
                      (lits before ++ Regexp.Digits :: lits after)
                      (before +:+ d +:+ after +:+ post)
                    = Some (before +:+ d +:+ after, [d])).
    { apply (head_marker before after _ _ _ Hdel). exists d, post. auto. }
    congruence.
Qed.

Lemma append_same_length (a b x y : string) :
  a +:+ x = b +:+ y -> String.length a = String.length b -> a = b /\ x = y.
Proof.
  revert b. induction a as [|c a IH]; intros [|e b] H Hlen; simpl in *;
    try discriminate; [auto|].
  injection H as -> H. injection Hlen as Hlen.
  destruct (IH b H Hlen) as [-> ->]. auto.
Qed.

(** The first marker of an output has one run of digits only. *)
Lemma first_marker_unique (before after out d d' : string) :
  first_marker before after out d -> first_marker before after out d' -> d = d'.
Proof.
  intros (pre & Hat & Hmin) (pre' & Hat' & Hmin').
  pose proof (Hmin _ _ Hat') as Hle. pose proof (Hmin' _ _ Hat) as Hge.
  destruct Hat as (post & Hout & _ & Hd). destruct Hat' as (post' & Hout' & _ & Hd').
  rewrite Hout in Hout'.
  apply append_same_length in Hout' as [_ Hrest]; [|lia].
  apply append_inv_head in Hrest. rewrite Hd, Hd', Hrest. reflexivity.
Qed.

Lemma verdict_spec (O : Regexp.Oracle) (nm marker before after : string)
    (answer : string * option error) :
  plain nm = true ->
  Regexp.parse marker = Some (lits before ++ Regexp.Digits :: lits after) ->
  delimits after = true ->
  probe_spec nm before after answer (verdict O nm marker answer).
Proof.
  intros Hplain Hp Hdel. unfold probe_spec, verdict.
  pose proof (plain_name_found O nm (fst answer) Hplain) as Hname.
  unfold name_found in Hname.
  destruct answer as [out [e|]]; cbn [fst snd] in *.
  - split; [reflexivity | discriminate].
  - destruct (Regexp.MatchString O nm out) as [matched compiled].
    destruct (compiled && matched).
    + split.
      * intros [H|H]; [congruence|]. elim H. now apply Hname.
      * intros _ _.
        destruct (find_first_marker O before after marker out Hp Hdel)
          as [(d & -> & Hd) | [-> Hno]]; [left | right]; eauto.
    + split; [reflexivity|]. intros _ Hin. apply Hname in Hin. discriminate Hin.
Qed.

Lemma isEnabled_plain_returns (E : Env) (st : State) :
  plain (name (self st)) = true ->
  exists r, fst (Bsd.isEnabled E st) = Returned r.
Proof.
  intros Hp.
  destruct (fst (Bsd.isEnabled E st)) as [r|w] eqn:Hen; [eauto|].
  exfalso.
  assert (Hpanic : exists w, fst (Bsd.isEnabled E st) = Panicked w) by eauto.
  apply isEnabled_panics_iff in Hpanic as [_ Hc].
  rewrite (enable_pattern_compiles (oracle E) (self st) Hp) in Hc.
  discriminate Hc.
Qed.

(** X24. For a service name of ASCII characters without operators of a
    pattern, a probe of either variant returns, having run its status
    command (on rc.d after the enablement check that selects the verb), and
    makes this of the answer.  If the command erred or the output does not
    contain the name, the result is the stopped message with running
    false.  Otherwise running is true: if the output holds a marker
    ([pid  <digits>] on rc.d; on launchd [PID], a double quote and
    [ = <digits>;]) the message carries the whole run of digits of the
    first marker, and if it holds none the message is the generic one. *)
Theorem probe_on_plain_names (E : Env) (st : State)
    (Hplain : plain (name (self st)) = true) :
  (exists v,
      Darwin.checkRunning E st =
        (Returned v, emit (EvExec ["launchctl"; "list"; name (self st)]) st)
      /\ probe_spec (name (self st)) launchd_before ";"
           (command E ["launchctl"; "list"; name (self st)]) v)
  /\
  (exists v,
      Bsd.checkRunning E st =
        (Returned v, emit (service_call E st "status") (emit (EvOpen rc_conf) st))
      /\ probe_spec (name (self st)) "pid  " ""
           (command E ["service"; name (self st); verb_for E st "status"]) v).
Proof.
  split.
  - eexists. split; [apply darwin_checkRunning_eq|].
    now apply verdict_spec; [| apply darwin_marker_parses |].
  - destruct (isEnabled_plain_returns E st Hplain) as [r Hr].
    eexists. split.
    + rewrite bsd_checkRunning_eq, Hr. reflexivity.
    + now apply verdict_spec; [| apply bsd_marker_parses |].
Qed.

Lemma probe_on_plain_names_witness :
  (exists v,
      Darwin.checkRunning env_running st_enabled =
        (Returned v, emit (EvExec ["launchctl"; "list"; "x"]) st_enabled)
      /\ probe_spec "x" launchd_before ";" (running_output, None) v)
  /\
  (exists v,
      Bsd.checkRunning env_running st_enabled =
        (Returned v,
         emit (EvExec ["service"; "x"; "status"]) (emit (EvOpen rc_conf) st_enabled))
      /\ probe_spec "x" "pid  " "" (running_output, None) v).
Proof.
  exact (probe_on_plain_names env_running st_enabled eq_refl).
Defined.

(** ** The verb of Start and Stop and the text of the boot configuration *)



